(** * Model fallback registry and the non-streaming chat driver

    A shallow embedding of

    - [app/lib/.server/llm/model-fallback.ts]: the memoized fallback chain,
      [getDefaultModel], [getNextFallback] and [shouldRetry];
    - [app/routes/api.chat-nonstream.ts]: [chatAction], i.e. the usage-limit
      guard, the planning stage, the usage accumulator, the retry / fallback
      loop around the builder call and the usage tracking that follows it,
      and [parseCookies];
    - [app/lib/.server/llm/generate-text.ts]: [generateText] up to the call
      of the SDK, with [getCompletionTokenLimit];
    - [app/lib/modules/llm/providers/openrouter-config.ts]:
      [getOpenRouterProviderConfig];
    - [app/routes/api.screens.create.ts]: the [action] of the route;
    - [stripe.server.ts] and [app/lib/billing/usage-guard.server.ts]: the
      limit on projects, from [getTierLimits] to [enforceProjectLimit];
    - [app/lib/utils/promptEnhancer.ts]: [shouldEnhancePrompt].

    Conventions of the model:

    - JavaScript strings are [string]s: a text is held as the bytes of its
      UTF-8 encoding, so text of ASCII characters is held character by
      character.  Equality, concatenation, [includes], [startsWith] and
      [split] at an ASCII separator are on the bytes what they are on the
      text.  What an engine computes from the Unicode tables, [toLowerCase]
      and [trim], is left to an [Engine]; of a standard engine the model
      only says what it does to ASCII text.  Counters ([maxRetries],
      attempt numbers, token counts) are natural numbers.  [process.env] is
      a finite map from variable names to strings.  Numbers that the code
      compares with a negative number, or that may be one, are integers.
    - A value that is thrown by a collaborator of the route is an error
      object whose fields may be absent (and whose message, when present,
      is a string).  [shouldRetry] is exported and typed for any value: its
      argument may also be null or undefined, or carry a message that is
      no string.
    - The collaborators of the route (authentication, the limit check, the
      model providers, the helpers that summarise and select context, the
      database) are transitions of an abstract outside world that either
      return or throw.  A run of the route yields its result, the new world
      and the trace of what it did to the outside, log lines included.
    - [while (true)] is unrolled a bounded number of times; the properties
      say how many rounds are enough. *)

From Stdlib Require Import Ascii String.
From stdpp Require Import base option list strings gmap.

Local Open Scope string_scope.

(** ** JavaScript string primitives used by the modules *)

Module JsString.

(** Text of ASCII characters only. *)
Definition isAsciiChar (c : ascii) : bool := (nat_of_ascii c <? 128)%nat.

Fixpoint isAscii (s : string) : bool :=
  match s with
  | EmptyString => true
  | String c t => isAsciiChar c && isAscii t
  end.

(** What [toLowerCase] does to a character of ASCII text. *)
Definition asciiLowerChar (c : ascii) : ascii :=
  let n := nat_of_ascii c in
  if (65 <=? n)%nat && (n <=? 90)%nat then ascii_of_nat (n + 32) else c.

(** What [toLowerCase] does to ASCII text. *)
Fixpoint asciiLowerCase (s : string) : string :=
  match s with
  | EmptyString => EmptyString
  | String c t => String (asciiLowerChar c) (asciiLowerCase t)
  end.

(** The white space of ASCII text: tab, line feed, vertical tab, form
    feed, carriage return and space. *)
Definition isWhiteSpace (c : ascii) : bool :=
  let n := nat_of_ascii c in
  ((9 <=? n)%nat && (n <=? 13)%nat) || (n =? 32)%nat.

Fixpoint trimStart (s : string) : string :=
  match s with
  | EmptyString => EmptyString
  | String c rest => if isWhiteSpace c then trimStart rest else s
  end.

Fixpoint trimEnd (s : string) : string :=
  match s with
  | EmptyString => EmptyString
  | String c rest =>
      match trimEnd rest with
      | EmptyString => if isWhiteSpace c then EmptyString else String c EmptyString
      | kept => String c kept
      end
  end.

(** What [trim] does to ASCII text. *)
Definition asciiTrim (s : string) : string := trimEnd (trimStart s).

(** The built-in methods of a string whose result depends on the Unicode
    tables of the engine: [s.toLowerCase()] and [s.trim()]. *)
Record Engine : Type := mkEngine {
  toLowerCase : string -> string;
  trim : string -> string
}.

(** An engine that follows the standard on ASCII characters: it lowers
    and trims ASCII text as above, and it lowers the ASCII characters of
    any text in the same way, whatever stands around them.  On the other
    characters the standard lowers more letters (the Kelvin sign U+212A
    becomes k) and trims more white space (U+00A0 among others). *)
Definition Standard (E : Engine) : Prop :=
  (forall s, isAscii s = true ->
     toLowerCase E s = asciiLowerCase s /\ trim E s = asciiTrim s) /\
  (forall before part after, isAscii part = true ->
     exists before' after',
       toLowerCase E (before ++ part ++ after)
       = before' ++ asciiLowerCase part ++ after').

(** An engine that knows the ASCII letters and white space only. *)
Definition asciiEngine : Engine := mkEngine asciiLowerCase asciiTrim.

(** [hay.includes(needle)]: [needle] occurs at some offset of [hay]. *)
Fixpoint includes (hay needle : string) : bool :=
  String.prefix needle hay ||
  match hay with
  | EmptyString => false
  | String _ t => includes t needle
  end.

(** A string used as a condition ([s || d], [if (s)]): only [''] is falsy. *)
Definition truthy (s : string) : bool :=
  match s with EmptyString => false | _ => true end.

(** [o || d] for an optional string [o] ([None] is [undefined]). *)
Definition orDefault (o : option string) (d : string) : string :=
  match o with
  | Some s => if truthy s then s else d
  | None => d
  end.

(** [needle] occurs in [hay]. *)
Definition occursIn (needle hay : string) : Prop :=
  exists before after, hay = before ++ needle ++ after.

(** Two characters that are equal, or the capital and the small form of
    one of the letters A to Z (codes 65 to 90, and 32 above). *)
Definition sameLetter (c d : ascii) : Prop :=
  let m := nat_of_ascii c in
  let n := nat_of_ascii d in
  m = n \/ ((65 <= m <= 90)%nat /\ n = (m + 32)%nat)
  \/ ((65 <= n <= 90)%nat /\ m = (n + 32)%nat).

(** Two texts that differ at most in the case of their letters. *)
Fixpoint ci_equal (a b : string) : Prop :=
  match a, b with
  | EmptyString, EmptyString => True
  | String c a', String d b' => sameLetter c d /\ ci_equal a' b'
  | _, _ => False
  end.

(** [msg] contains [marker] when case is ignored: some part of [msg]
    equals [marker] up to the case of its letters. *)
Definition ci_contains (msg marker : string) : Prop :=
  exists pre mid post, msg = pre ++ mid ++ post /\ ci_equal mid marker.

End JsString.

(** ** The fallback registry ([model-fallback.ts]) *)

Module ModelFallback.
Import JsString.

Record FallbackEntry : Type := mkEntry {
  model : string;
  provider : string;
  maxRetries : nat
}.

(** [process.env]. *)
Abbreviation Env := (gmap string string).

(** The module-level variable [_fallbackChain] ([None] is [null]). *)
Abbreviation Cache := (option (list FallbackEntry)).

(** The array literal assigned to [_fallbackChain] on the first call. *)
Definition buildChain (env : Env) : list FallbackEntry :=
  let PRIMARY_MODEL := orDefault (env !! "PRIMARY_MODEL") "qwen/qwen3-coder" in
  let PRIMARY_PROVIDER := orDefault (env !! "PRIMARY_PROVIDER") "OpenRouter" in
  let FALLBACK_MODEL_1 := orDefault (env !! "FALLBACK_MODEL_1") "gemini-2.5-flash" in
  let FALLBACK_PROVIDER_1 := orDefault (env !! "FALLBACK_PROVIDER_1") "OpenRouter" in
  let FALLBACK_MODEL_2 := orDefault (env !! "FALLBACK_MODEL_2") "x-ai/grok-4-fast" in
  let FALLBACK_PROVIDER_2 := orDefault (env !! "FALLBACK_PROVIDER_2") "OpenRouter" in
  let FALLBACK_MODEL_3 :=
    orDefault (env !! "FALLBACK_MODEL_3") "qwen/qwen3-coder-480b-a35b-instruct" in
  let FALLBACK_PROVIDER_3 := orDefault (env !! "FALLBACK_PROVIDER_3") "Novita" in
  [ mkEntry PRIMARY_MODEL PRIMARY_PROVIDER 2;
    mkEntry FALLBACK_MODEL_1 FALLBACK_PROVIDER_1 2;
    mkEntry FALLBACK_MODEL_2 FALLBACK_PROVIDER_2 1;
    mkEntry FALLBACK_MODEL_3 FALLBACK_PROVIDER_3 1 ].

(** [getFallbackChain()]: the value returned and the new content of
    [_fallbackChain].  An array is truthy even when empty, so the test
    [if (_fallbackChain)] only asks whether the variable has been set. *)
Definition getFallbackChain (env : Env) (cache : Cache)
  : list FallbackEntry * Cache :=
  match cache with
  | Some chain => (chain, cache)
  | None => let chain := buildChain env in (chain, Some chain)
  end.

(** [chain.find(f => f.model === m)]. *)
Fixpoint find (chain : list FallbackEntry) (m : string) : option FallbackEntry :=
  match chain with
  | [] => None
  | f :: rest => if String.eqb (model f) m then Some f else find rest m
  end.

(** [chain.findIndex(f => f.model === m)], with [None] for [-1]. *)
Fixpoint findIndex (chain : list FallbackEntry) (m : string) : option nat :=
  match chain with
  | [] => None
  | f :: rest =>
      if String.eqb (model f) m then Some 0
      else match findIndex rest m with
           | Some i => Some (S i)
           | None => None
           end
  end.

(** A value caught by [catch (error)]: an error object whose fields may be
    absent ([None]). *)
Record ErrorObj : Type := mkError {
  message : option string;
  statusCode : option nat;
  isRetryable : option bool;
  errProvider : option string
}.

(** [new Error(msg)]. *)
Definition newError (msg : string) : ErrorObj :=
  mkError (Some msg) None None None.

(** A call either returns or throws. *)
Inductive Outcome (A : Type) : Type :=
| Returns (a : A)
| Throws (e : ErrorObj).
Arguments Returns {A} a.
Arguments Throws {A} e.

(** The argument [error: any] of [shouldRetry], by what [error?.message]
    is: [Nullish] is [null] or [undefined]; [Caught e] an error object (a
    value without a [message], a string that was thrown say, is one whose
    message is absent); [OddMessage] a value whose [message] is neither
    absent nor a string and has no [toLowerCase] of its own: a number, a
    boolean, a plain object. *)
Inductive ErrorValue : Type :=
| Nullish
| Caught (e : ErrorObj)
| OddMessage.

Definition retryableErrors : list string :=
  [ "overloaded"; "rate limit"; "timeout"; "network"; "429"; "503"; "500" ].

(** [error?.message?.toLowerCase() || ''].  The optional chaining stops at
    an absent [error] or [message] only: on a message that is no string the
    call of [toLowerCase] is a [TypeError]. *)
Definition errorMessage (E : Engine) (error : ErrorValue) : Outcome string :=
  match error with
  | Nullish => Returns ""
  | Caught e =>
      match message e with
      | Some msg => Returns (orDefault (Some (toLowerCase E msg)) "")
      | None => Returns ""
      end
  | OddMessage => Throws (newError "toLowerCase is not a function")
  end.

Definition isRetryableMessage (msg : string) : bool :=
  existsb (fun err => includes msg err) retryableErrors.

(** A transient failure in the words of the markers: the message of the
    error, in lower case, contains one of them. *)
Definition retryableError (E : Engine) (e : ErrorObj) : Prop :=
  exists msg marker,
    message e = Some msg /\ In marker retryableErrors /\
    JsString.occursIn marker (toLowerCase E msg).

(** The functions below read the chain through [getFallbackChain()]; they
    take the list that call returns. *)
Section Registry.
Variable E : Engine.
Variable chain : list FallbackEntry.

(** [getDefaultModel()]: [chain[0]] ([None] is [undefined]). *)
Definition getDefaultModel : option FallbackEntry := chain !! 0%nat.

Definition getNextFallback (currentModel : string) : option FallbackEntry :=
  match findIndex chain currentModel with
  | None => None
  | Some currentIndex =>
      if (length chain - 1 <=? currentIndex)%nat then None
      else chain !! (currentIndex + 1)%nat
  end.

Definition shouldRetry (error : ErrorValue) (currentRetry : nat)
    (m : string) : Outcome bool :=
  match find chain m with
  | None => Returns false
  | Some fallback =>
      match errorMessage E error with
      | Throws e => Throws e
      | Returns errorMessage =>
          Returns (isRetryableMessage errorMessage
                   && (currentRetry <? maxRetries fallback)%nat)
      end
  end.
End Registry.

(** What [shouldRetry] answers for an error object, for which the call
    always returns. *)
Definition retryCaught (E : Engine) (chain : list FallbackEntry)
    (e : ErrorObj) (currentRetry : nat) (m : string) : bool :=
  match shouldRetry E chain (Caught e) currentRetry m with
  | Returns retry => retry
  | Throws _ => false
  end.

(** [entry] is the first entry of [chain] whose model is [m]. *)
Definition first_match (chain : list FallbackEntry) (m : string)
    (entry : FallbackEntry) : Prop :=
  exists before after,
    chain = (before ++ entry :: after)%list /\ model entry = m /\
    Forall (fun f => model f <> m) before.

(** No entry of [chain] has model [m]. *)
Definition no_match (chain : list FallbackEntry) (m : string) : Prop :=
  Forall (fun f => model f <> m) chain.

(** The registry as seen over time: every exported function starts with a
    call of [getFallbackChain()], and [process.env] may change between two
    calls. *)
Inductive Call : Type :=
| CallGetFallbackChain
| CallGetDefaultModel
| CallGetNextFallback (currentModel : string)
| CallShouldRetry (error : ErrorValue) (currentRetry : nat) (m : string).

Inductive Answer : Type :=
| AnsChain (chain : list FallbackEntry)
| AnsEntry (e : option FallbackEntry)
| AnsBool (b : Outcome bool).

(** What a call answers on a given chain. *)
Definition answerOn (E : Engine) (chain : list FallbackEntry) (c : Call)
  : Answer :=
  match c with
  | CallGetFallbackChain => AnsChain chain
  | CallGetDefaultModel => AnsEntry (getDefaultModel chain)
  | CallGetNextFallback m => AnsEntry (getNextFallback chain m)
  | CallShouldRetry e n m => AnsBool (shouldRetry E chain e n m)
  end.

Definition step (E : Engine) (env : Env) (cache : Cache) (c : Call)
  : Answer * Cache :=
  let '(chain, cache') := getFallbackChain env cache in
  (answerOn E chain c, cache').

(** A run of the process: each call comes with the environment it sees. *)
Fixpoint run (E : Engine) (cache : Cache) (calls : list (Env * Call))
  : list Answer * Cache :=
  match calls with
  | [] => ([], cache)
  | (env, c) :: rest =>
      let '(a, cache') := step E env cache c in
      let '(answers, cache'') := run E cache' rest in
      (a :: answers, cache'')
  end.

End ModelFallback.

(** ** The non-streaming chat route ([api.chat-nonstream.ts]) *)

Module ChatNonstream.
Import JsString ModelFallback.

(** *** Data *)

Record Message : Type := mkMessage {
  msgId : string;
  role : string;
  content : string
}.

(** A token-usage object; a field that is absent (or not a number) is
    [None]. *)
Record Usage : Type := mkUsage {
  completionTokens : option nat;
  promptTokens : option nat;
  totalTokens : option nat
}.

(** The object literal [cumulativeUsage]. *)
Record CumulativeUsage : Type := mkCumulative {
  cumCompletionTokens : nat;
  cumPromptTokens : nat;
  cumTotalTokens : nat
}.

(** What [generateText] resolves to. *)
Record GenResult : Type := mkResult {
  text : string;
  reasoning : option string;
  usage : option Usage;
  toolCalls : option (list string);
  finishReason : string
}.

Abbreviation FileMap := (list (string * string)).

(** The JSON body of the request.  [designScheme], [supabase] and
    [maxLLMSteps] are handed to the builder call unchanged and are left
    out. *)
Record Body : Type := mkBody {
  messages : list Message;
  files : option FileMap;
  promptId : option string;
  contextOptimization : bool;
  chatMode : string;
  useKimiPlanning : option bool;
  requestedModel : option string;
  requestedProvider : option string
}.

(** The argument of [generateText]. *)
Record GenerateArgs : Type := mkArgs {
  gMessages : list Message;
  gToolChoice : string;
  gMaxTokens : option N;
  gFiles : option FileMap;
  gPromptId : option string;
  gContextOptimization : bool;
  gContextFiles : option FileMap;
  gChatMode : string;
  gSummary : option string;
  gMessageSliceId : nat;
  forceModel : string;
  forceProvider : string
}.

(** What [getAuthenticatedUser] resolves to. *)
Record User : Type := mkUser {
  subscriptionTier : string;
  supabaseUserId : option string
}.

(** What [canPerformAction] resolves to. *)
Record ActionCheck : Type := mkCheck {
  allowed : bool;
  reason : option string
}.

(** The argument of an [onFinish] callback. *)
Record FinishResp : Type := mkFinish { respUsage : option Usage }.

(** The three shapes of [Response] the route builds. *)
Inductive Response : Type :=
| LimitReached (status : nat) (msg : string)
| Generated (status : nat) (rContent : string) (rUsage : CumulativeUsage)
    (rContextFiles : list string) (rSummary : option string)
    (rToolCalls : list string)
| Failed (status : nat) (msg : string) (rStatusCode : nat)
    (rIsRetryable : bool) (rProvider : string).

(** The [logger] calls of the route, with the values they interpolate
    (for a length or a preview of a text, the text). *)
Inductive LogLine : Type :=
| LogChatRequest (userId : string)
| LogUserAuthenticated (userId : string) (supabaseId : option string) (tier : string)
| LogLimitReached (userId : string)
| LogUsageCheckPassed (userId : string)
| LogErrorFetchingUser (e : ErrorObj)
| LogKimiCheck (mode : string) (hasLast : bool) (use : option bool) (enabled : bool)
| LogPlanningStart
| LogStage1
| LogCleanRequest (clean : string)
| LogKimiKeys
| LogKimiText (t : string)
| LogKimiReasoning (r : option string)
| LogKimiFinishReason (f : string)
| LogKimiUsage (u : option Usage)
| LogKimiEmpty
| LogKimiComplete (plan : string)
| LogKimiPreview (plan : string)
| LogFormattedPrompt (p : string)
| LogStage2
| LogPlanningFailed (e : ErrorObj)
| LogMessageLength
| LogSending (n : nat)
| LogGeneratingSummary
| LogSummaryUsage (u : Usage)
| LogUpdatingContext
| LogSelectContextUsage (u : Usage)
| LogFilesInContext (keys : list string)
| LogGenerating
| LogAttempting (m p : string)
| LogGenerationSuccessful (m : string)
| LogRetrying (m : string) (attempt total : nat)
| LogModelFailed (m : string) (attempts : nat)
| LogExhausted
| LogSwitching (m p : string)
| LogTrackAttempt (supabaseId : option string) (tokens : nat)
| LogTracked (userId : string) (tokens : nat)
| LogTrackFailed (e : ErrorObj)
| LogGenerationError (e : ErrorObj)
| LogValidationError.

(** What a run does to the outside, in order.  A collaborator call is
    recorded with its arguments and with what it answered. *)
Inductive Event : Type :=
| EvLog (l : LogLine)
| EvRequireAuth (r : Outcome string)
| EvGetAuthenticatedUser (r : Outcome User)
| EvCanPerformAction (userId action : string) (r : Outcome ActionCheck)
| EvGenerateId (id : string)
| EvGenerateText (args : GenerateArgs) (r : Outcome GenResult)
| EvProcessToolInvocations (msgs : list Message) (r : Outcome (list Message))
| EvCreateSummary (msgs : list Message)
    (r : Outcome (option string * list FinishResp))
| EvSelectContext (msgs : list Message) (summary : option string)
    (r : Outcome (option FileMap * list FinishResp))
| EvSleep (ms : nat)
| EvIncrementUsage (supabaseId kind : string) (tokens n : nat) (r : Outcome unit).

(** *** The collaborators

    Everything [chatAction] imports and calls, as transitions of an outside
    world [W] (the providers, the database, the clock), and the engine the
    route runs on. *)
Record Collaborators (W : Type) : Type := mkCollab {
  engine : Engine;
  requireAuth : W -> Outcome string * W;
  getAuthenticatedUser : W -> Outcome User * W;
  canPerformAction : string -> string -> W -> Outcome ActionCheck * W;
  generateId : W -> string * W;
  extractPropertiesFromMessage : Message -> string;
  generateText : GenerateArgs -> W -> Outcome GenResult * W;
  processToolInvocations : list Message -> W -> Outcome (list Message) * W;
  getFilePaths : FileMap -> list string;
  createSummary :
    list Message -> W -> Outcome (option string * list FinishResp) * W;
  selectContext :
    list Message -> option string -> W ->
    Outcome (option FileMap * list FinishResp) * W;
  incrementUsage : string -> string -> nat -> nat -> W -> Outcome unit * W;
  WORK_DIR : string
}.
Arguments engine {W} _.
Arguments requireAuth {W} _ _.
Arguments getAuthenticatedUser {W} _ _.
Arguments canPerformAction {W} _ _ _ _.
Arguments generateId {W} _ _.
Arguments extractPropertiesFromMessage {W} _ _.
Arguments generateText {W} _ _ _.
Arguments processToolInvocations {W} _ _ _.
Arguments getFilePaths {W} _ _.
Arguments createSummary {W} _ _ _.
Arguments selectContext {W} _ _ _ _.
Arguments incrementUsage {W} _ _ _ _ _ _.
Arguments WORK_DIR {W} _.

(** *** Computations

    An [async] block of the route: from a world it reaches a result, a new
    world and the events it emitted.  [OutOfFuel] marks a [while (true)]
    loop cut short by the bound the model puts on it. *)
Inductive Res (A : Type) : Type :=
| Done (a : A)
| Thrown (e : ErrorObj)
| OutOfFuel.
Arguments Done {A} a.
Arguments Thrown {A} e.
Arguments OutOfFuel {A}.

Record Run (W A : Type) : Type := mkRun {
  outcome : Res A;
  final : W;
  events : list Event
}.
Arguments mkRun {W A} _ _ _.
Arguments outcome {W A} _.
Arguments final {W A} _.
Arguments events {W A} _.

Definition M (W A : Type) : Type := W -> Run W A.

Definition ret {W A} (a : A) : M W A := fun w => mkRun (Done a) w [].

Definition throw {W A} (e : ErrorObj) : M W A := fun w => mkRun (Thrown e) w [].

Definition outOfFuel {W A} : M W A := fun w => mkRun OutOfFuel w [].

Definition bind {W A B} (m : M W A) (k : A -> M W B) : M W B :=
  fun w =>
    let r := m w in
    match outcome r with
    | Done a =>
        let r' := k a (final r) in
        mkRun (outcome r') (final r') (events r ++ events r')%list
    | Thrown e => mkRun (Thrown e) (final r) (events r)
    | OutOfFuel => mkRun OutOfFuel (final r) (events r)
    end.

(** [try { m } catch (error) { h error }]. *)
Definition tryCatch {W A} (m : M W A) (h : ErrorObj -> M W A) : M W A :=
  fun w =>
    let r := m w in
    match outcome r with
    | Thrown e =>
        let r' := h e (final r) in
        mkRun (outcome r') (final r') (events r ++ events r')%list
    | _ => r
    end.

Definition emit {W} (ev : Event) : M W unit := fun w => mkRun (Done tt) w [ev].

Definition log {W} (l : LogLine) : M W unit := emit (EvLog l).

(** [await f(...)] for a collaborator [f]: the call is recorded, and a
    rejection is thrown into the caller. *)
Definition await {W A} (f : W -> Outcome A * W) (ev : Outcome A -> Event)
  : M W A :=
  fun w =>
    let '(r, w') := f w in
    match r with
    | Returns a => mkRun (Done a) w' [ev r]
    | Throws e => mkRun (Thrown e) w' [ev r]
    end.

Declare Scope js_scope.
Delimit Scope js_scope with js.
Notation "x <- m ;; k" := (bind m (fun x => k))
  (at level 20, m at level 99, k at level 200, only parsing) : js_scope.
Notation "' pat <- m ;; k" := (bind m (fun x => match x with pat => k end))
  (at level 20, pat pattern, m at level 99, k at level 200, only parsing)
  : js_scope.
Notation "m ;; k" := (bind m (fun _ => k))
  (at level 100, k at level 200, right associativity, only parsing) : js_scope.
Local Open Scope js_scope.

(** *** Small pure pieces of the route *)

(** [n || 0] for an optional count. *)
Definition orZero (o : option nat) : nat := default 0 o.

(** The three [+=] lines that follow [if (resp.usage)]. *)
Definition addUsage (c : CumulativeUsage) (u : option Usage) : CumulativeUsage :=
  match u with
  | None => c
  | Some u =>
      mkCumulative
        (cumCompletionTokens c + orZero (completionTokens u))
        (cumPromptTokens c + orZero (promptTokens u))
        (cumTotalTokens c + orZero (totalTokens u))
  end.

(** The effect of the [onFinish] callbacks of one helper call. *)
Definition addFinishes (c : CumulativeUsage) (rs : list FinishResp)
  : CumulativeUsage :=
  fold_left (fun c r => addUsage c (respUsage r)) rs c.

(** [messages.filter(m => m.role === 'user').slice(-1)[0]]. *)
Definition lastUserMessage (msgs : list Message) : option Message :=
  last (List.filter (fun m => String.eqb (role m) "user") msgs).

(** [messages.slice(0, -1)]. *)
Definition dropLast (msgs : list Message) : list Message :=
  take (List.length msgs - 1) msgs.

(** [useKimiPlanning !== false]. *)
Definition kimiEnabled (use : option bool) : bool :=
  match use with Some false => false | _ => true end.

(** [s || d] where [s] may be absent. *)
Definition truthyString (o : option string) : option string :=
  match o with
  | Some s => if truthy s then Some s else None
  | None => None
  end.

(** *** [chatAction] *)

Definition nl : string := String (ascii_of_nat 10) "".

(** The template literal [planningPrompt]. *)
Definition planningPrompt (cleanContent : string) : string :=
  "You are a creative design consultant providing inspiration and suggestions for mobile app design."
  ++ nl ++ nl ++ "User Request: " ++ cleanContent
  ++ nl ++ nl ++ "Provide creative design suggestions including:"
  ++ nl ++ nl ++ "1. **Suggested Screens** (8-12 screens that would make this app complete)"
  ++ nl ++ "2. **Color Palette Ideas** (suggest 2-3 beautiful color schemes with hex codes)"
  ++ nl ++ "3. **Typography Suggestions** (font pairings and sizes)"
  ++ nl ++ "4. **Layout Patterns** (modern mobile UI patterns that would work well)"
  ++ nl ++ "5. **Visual Style** (design philosophy - minimal, bold, playful, etc.)"
  ++ nl ++ "6. **Key Features** (unique features that would make this app stand out)"
  ++ nl ++ nl ++ "Keep it concise and inspirational - these are suggestions to enhance creativity, not rigid requirements.".

(** The template literal [formattedPrompt]. *)
Definition formattedPrompt (currentModel currentProvider designPlan : string)
  : string :=
  "[Model: " ++ currentModel ++ "]" ++ nl ++ nl
  ++ "[Provider: " ++ currentProvider ++ "]" ++ nl ++ nl ++ designPlan.

Definition kimiModel : string := "moonshotai/kimi-k2-thinking".
Definition kimiProvider : string := "OpenRouter".

(** The argument of the planning call. *)
Definition planningArgs (id cleanContent : string) (pid : option string)
  : GenerateArgs :=
  mkArgs [mkMessage id "user" (planningPrompt cleanContent)]
    "none" (Some 50000%N) (Some []) pid false None "discuss" None 0
    kimiModel kimiProvider.

(** A call of [generateText] is a builder call when it is not the planning
    call: the planning call alone turns the tools off. *)
Definition isBuilderCall (ev : Event) : bool :=
  match ev with
  | EvGenerateText args _ => String.eqb (gToolChoice args) "auto"
  | _ => false
  end.

(** The locals [userSubscriptionTier] and [userSupabaseId]. *)
Record GuardLocals : Type := mkLocals {
  userSubscriptionTier : string;
  userSupabaseId : option string
}.

(** [path.startsWith(WORK_DIR) ? path.replace(WORK_DIR, '') : path]: the
    first occurrence replaced is the prefix itself. *)
Definition stripWorkDir (workDir path : string) : string :=
  if String.prefix workDir path
  then String.substring (String.length workDir)
         (String.length path - String.length workDir) path
  else path.

(** The locals of the [try] block when the builder loop starts. *)
Record Prepared : Type := mkPrepared {
  processedMessages : list Message;
  messageSliceId : nat;
  summary : option string;
  filteredFiles : option FileMap;
  cumulativeUsage : CumulativeUsage
}.

Section Driver.
Context {W : Type} (C : Collaborators W).

(** The list [getFallbackChain()] returns in this process. *)
Variable chain : list FallbackEntry.

Definition newId : M W string :=
  fun w => let '(id, w') := generateId C w in mkRun (Done id) w' [EvGenerateId id].

(** Lines 46-75.  The [catch] sees the locals as the [try] block left
    them: untouched when [getAuthenticatedUser] rejects, assigned when a
    later statement throws. *)
Definition usageGuard (userId : string) : M W (GuardLocals * option Response) :=
  tryCatch
    (user <- await (getAuthenticatedUser C) EvGetAuthenticatedUser;;
     let locals := mkLocals (subscriptionTier user) (supabaseUserId user) in
     tryCatch
       (log (LogUserAuthenticated userId (supabaseUserId user)
               (subscriptionTier user));;
        canGenerate <- await (canPerformAction C userId "ai_generation")
                         (EvCanPerformAction userId "ai_generation");;
        if negb (allowed canGenerate) then
          log (LogLimitReached userId);;
          ret (locals,
               Some (LimitReached 429
                       (orDefault (reason canGenerate)
                          "AI generation limit reached")))
        else
          log (LogUsageCheckPassed userId);;
          ret (locals, None))
       (fun error => log (LogErrorFetchingUser error);; ret (locals, None)))
    (fun error =>
       log (LogErrorFetchingUser error);; ret (mkLocals "free" None, None)).

(** Lines 100-102.  [defaultFallback.model] is only evaluated when the
    request names no model; on an empty chain it is a [TypeError]. *)
Definition initialTarget (body : Body) : M W (string * string) :=
  let defaultFallback := getDefaultModel chain in
  currentModel <-
    match truthyString (requestedModel body), defaultFallback with
    | Some m, _ => ret m
    | None, Some d => ret (model d)
    | None, None => throw (newError "Cannot read properties of undefined")
    end;;
  currentProvider <-
    match truthyString (requestedProvider body), defaultFallback with
    | Some p, _ => ret p
    | None, Some d => ret (provider d)
    | None, None => throw (newError "Cannot read properties of undefined")
    end;;
  ret (currentModel, currentProvider).

(** Lines 112-184: the value of [enhancedMessages] after the planning
    stage. *)
Definition planningStage (body : Body) (currentModel currentProvider : string)
  : M W (list Message) :=
  let lastUser := lastUserMessage (messages body) in
  let enabled := kimiEnabled (useKimiPlanning body) in
  log (LogKimiCheck (chatMode body) (bool_decide (is_Some lastUser))
         (useKimiPlanning body) enabled);;
  match lastUser with
  | Some lastMessage =>
      if String.eqb (chatMode body) "build" && enabled then
        log LogPlanningStart;;
        tryCatch
          (log LogStage1;;
           let cleanContent := extractPropertiesFromMessage C lastMessage in
           log (LogCleanRequest cleanContent);;
           id <- newId;;
           let args := planningArgs id cleanContent (promptId body) in
           planningResult <- await (generateText C args) (EvGenerateText args);;
           log LogKimiKeys;;
           log (LogKimiText (text planningResult));;
           log (LogKimiReasoning (reasoning planningResult));;
           log (LogKimiFinishReason (finishReason planningResult));;
           log (LogKimiUsage (usage planningResult));;
           let designPlan :=
             orDefault (reasoning planningResult) (text planningResult) in
           if negb (truthy designPlan) || (String.length designPlan =? 0)%nat
           then
             log LogKimiEmpty;;
             throw (newError "Empty Kimi response")
           else
             log (LogKimiComplete designPlan);;
             log (LogKimiPreview designPlan);;
             let prompt := formattedPrompt currentModel currentProvider designPlan in
             log (LogFormattedPrompt prompt);;
             id' <- newId;;
             log LogStage2;;
             ret ((dropLast (messages body) ++ [mkMessage id' "user" prompt])%list))
          (fun error => log (LogPlanningFailed error);; ret (messages body))
      else ret (messages body)
  | None => ret (messages body)
  end.

(** The [logger.debug] inside an [onFinish] callback. *)
Fixpoint logFinishes (line : Usage -> LogLine) (rs : list FinishResp)
  : M W unit :=
  match rs with
  | [] => ret tt
  | r :: rest =>
      match respUsage r with
      | Some u => log (line u);; logFinishes line rest
      | None => logFinishes line rest
      end
  end.

(** The argument of a builder call (lines 276-292). *)
Definition builderArgs (body : Body) (msgs : list Message)
    (filteredFiles : option FileMap) (summary : option string)
    (messageSliceId : nat) (currentModel currentProvider : string)
  : GenerateArgs :=
  mkArgs msgs "auto" None (files body) (promptId body)
    (contextOptimization body) filteredFiles (chatMode body) summary
    messageSliceId currentModel currentProvider.

Section Loop.
(** What the builder call takes apart from the model and provider. *)
Variable mkBuilderArgs : string -> string -> GenerateArgs.

(** Lines 274-305: the [for] loop.  [remaining] counts the iterations
    the condition [attempt <= maxRetries] still allows.  The result is
    the pair of [result] and [lastError] when the loop is left. *)
Fixpoint attemptLoop (remaining attempt maxRetries : nat)
    (currentModel currentProvider : string) (lastError : option ErrorObj)
  : M W (option GenResult * option ErrorObj) :=
  match remaining with
  | 0 => ret (None, lastError)
  | S remaining' =>
      let args := mkBuilderArgs currentModel currentProvider in
      tryCatch
        (result <- await (generateText C args) (EvGenerateText args);;
         log (LogGenerationSuccessful currentModel);;
         ret (Some result, lastError))
        (fun error =>
           match shouldRetry (engine C) chain (Caught error) attempt
                   currentModel with
           | Throws thrown => throw thrown
           | Returns retry =>
               if retry && (attempt <? maxRetries)%nat
               then
                 log (LogRetrying currentModel (attempt + 1) (maxRetries + 1));;
                 emit (EvSleep 2000);;
                 attemptLoop remaining' (S attempt) maxRetries
                   currentModel currentProvider (Some error)
               else
                 log (LogModelFailed currentModel (attempt + 1));;
                 ret (None, Some error)
           end)
  end.

(** [fallbackConfig?.maxRetries || 2]. *)
Definition loopBound (currentModel : string) : nat :=
  match find chain currentModel with
  | Some fallbackConfig =>
      if (maxRetries fallbackConfig =? 0)%nat then 2
      else maxRetries fallbackConfig
  | None => 2
  end.

(** Lines 268-319: the [while (true)] loop, cut after [fuel] rounds. *)
Fixpoint fallbackLoop (fuel : nat) (currentModel currentProvider : string)
    (lastError : option ErrorObj) : M W GenResult :=
  match fuel with
  | 0 => outOfFuel
  | S fuel' =>
      let maxRetries := loopBound currentModel in
      log (LogAttempting currentModel currentProvider);;
      '(result, lastError') <-
        attemptLoop (S maxRetries) 0 maxRetries currentModel currentProvider
          lastError;;
      match result with
      | Some r => ret r
      | None =>
          match getNextFallback chain currentModel with
          | None =>
              log LogExhausted;;
              throw (default (newError "All models failed") lastError')
          | Some nextFallback =>
              log (LogSwitching (model nextFallback) (provider nextFallback));;
              fallbackLoop fuel' (model nextFallback) (provider nextFallback)
                lastError'
          end
      end
  end.
End Loop.

(** The statuses that allow no body: [new Response(body, {status})] with
    a body is a [TypeError] for them.  Of these, 204, 205 and 304 lie in
    200..599. *)
Definition nullBodyStatus (status : nat) : bool :=
  existsb (Nat.eqb status) [101; 103; 204; 205; 304]%nat.

(** Lines 372-409: the outer [catch].  A [Response] whose status is
    outside 200..599 cannot be constructed ([RangeError]), nor can one
    with a body and a status that allows none ([TypeError]). *)
Definition errorResponse (error : ErrorObj) : M W Response :=
  log (LogGenerationError error);;
  let message0 := orDefault (message error) "An unexpected error occurred" in
  let invalid := includes message0 "did not match" || includes message0 "pattern" in
  (if invalid then log LogValidationError else ret tt);;
  let msg :=
    if invalid
    then "AI returned invalid format. Please try again or simplify your request."
    else message0 in
  let code :=
    match statusCode error with
    | Some 0 | None => 500
    | Some n => n
    end in
  let retryable :=
    match isRetryable error with Some false => false | _ => true end in
  let prov := orDefault (errProvider error) "unknown" in
  if match message error with
     | Some m => includes m "API key"
     | None => false
     end
  then ret (Failed 401 "Invalid or missing API key" 401 false prov)
  else if negb ((200 <=? code)%nat && (code <=? 599)%nat)
  then throw (newError "RangeError")
  else if nullBodyStatus code
  then throw (newError "TypeError")
  else ret (Failed code msg code retryable prov).

(** Lines 193-253: what the [try] block has computed when it reaches the
    builder loop.  The [onFinish] callbacks of a helper are replayed after
    it has returned. *)
Definition prepare (body : Body) (enhancedMessages : list Message)
    (cumulativeUsage : CumulativeUsage) : M W Prepared :=
  log LogMessageLength;;
  log (LogSending (List.length enhancedMessages));;
  let filePaths := getFilePaths C (default [] (files body)) in
  processedMessages <-
    await (processToolInvocations C enhancedMessages)
      (EvProcessToolInvocations enhancedMessages);;
  let messageSliceId :=
    if (3 <? List.length processedMessages)%nat
    then List.length processedMessages - 3 else 0 in
  if (0 <? List.length filePaths)%nat && contextOptimization body then
    log LogGeneratingSummary;;
    '(summary, finished) <-
      await (createSummary C processedMessages)
        (EvCreateSummary processedMessages);;
    logFinishes LogSummaryUsage finished;;
    let cumulativeUsage := addFinishes cumulativeUsage finished in
    log LogUpdatingContext;;
    '(filteredFiles, finished') <-
      await (selectContext C processedMessages summary)
        (EvSelectContext processedMessages summary);;
    logFinishes LogSelectContextUsage finished';;
    let cumulativeUsage := addFinishes cumulativeUsage finished' in
    match filteredFiles with
    | Some fs => log (LogFilesInContext (fs.*1))
    | None => ret tt
    end;;
    ret (mkPrepared processedMessages messageSliceId summary filteredFiles
           cumulativeUsage)
  else
    ret (mkPrepared processedMessages messageSliceId None None cumulativeUsage).

(** The builder call of a prepared request (lines 276-292). *)
Definition preparedArgs (body : Body) (enhancedMessages : list Message)
    (p : Prepared) : string -> string -> GenerateArgs :=
  let msgs :=
    if (List.length (messages body) <? List.length enhancedMessages)%nat
    then enhancedMessages else processedMessages p in
  builderArgs body msgs (filteredFiles p) (summary p) (messageSliceId p).

(** Lines 321-371: after the loop has produced [result]. *)
Definition finish (locals : GuardLocals) (userId : string) (p : Prepared)
    (result : GenResult) : M W Response :=
  let cumulativeUsage := addUsage (cumulativeUsage p) (usage result) in
  log (LogTrackAttempt (userSupabaseId locals) (cumTotalTokens cumulativeUsage));;
  match truthyString (userSupabaseId locals) with
  | Some supabaseId =>
      tryCatch
        (await (incrementUsage C supabaseId "ai_generation"
                  (cumTotalTokens cumulativeUsage) 0)
           (EvIncrementUsage supabaseId "ai_generation"
              (cumTotalTokens cumulativeUsage) 0);;
         log (LogTracked userId (cumTotalTokens cumulativeUsage)))
        (fun error => log (LogTrackFailed error))
  | None => ret tt
  end;;
  let contextFiles :=
    match filteredFiles p with
    | Some fs => List.map (stripWorkDir (WORK_DIR C)) (fs.*1)
    | None => []
    end in
  ret (Generated 200 (text result) cumulativeUsage contextFiles (summary p)
         (default [] (toolCalls result))).

(** Lines 186-409. *)
Definition generation (fuel : nat) (body : Body) (locals : GuardLocals)
    (userId currentModel currentProvider : string)
    (enhancedMessages : list Message) : M W Response :=
  tryCatch
    (p <- prepare body enhancedMessages (mkCumulative 0 0 0);;
     log LogGenerating;;
     result <-
       fallbackLoop (preparedArgs body enhancedMessages p)
         fuel currentModel currentProvider None;;
     finish locals userId p result)
    errorResponse.

(** Lines 77-410: what follows the usage guard. *)
Definition pipeline (fuel : nat) (body : Body) (locals : GuardLocals)
    (userId : string) : M W Response :=
  '(currentModel, currentProvider) <- initialTarget body;;
  enhancedMessages <- planningStage body currentModel currentProvider;;
  generation fuel body locals userId currentModel currentProvider
    enhancedMessages.

(** [chatAction], lines 31-410.  The cookies ([apiKeys],
    [providerSettings]) are passed on untouched and are left out; the
    request is one whose body parses and holds an array [messages], and
    whose cookies parse: a request without them is rejected before the
    planning stage (lines 76-113, outside every [try]). *)
Definition chatAction (fuel : nat) (body : Body) : M W Response :=
  userId <- await (requireAuth C) EvRequireAuth;;
  log (LogChatRequest userId);;
  '(locals, early) <- usageGuard userId;;
  match early with
  | Some response => ret response
  | None => pipeline fuel body locals userId
  end.
End Driver.

End ChatNonstream.

(** ** Reading a trace *)

Module Trace.
Import JsString ModelFallback ChatNonstream.

(** A write to the usage counters. *)
Definition isIncrementUsage (ev : Event) : bool :=
  match ev with EvIncrementUsage _ _ _ _ _ => true | _ => false end.

Definition isGenerateText (ev : Event) : bool :=
  match ev with EvGenerateText _ _ => true | _ => false end.

(** A call of [generateText] that returned. *)
Definition isSuccessfulCall (ev : Event) : bool :=
  match ev with EvGenerateText _ (Returns _) => true | _ => false end.

(** A builder call that returned. *)
Definition isSuccessfulBuilderCall (ev : Event) : bool :=
  isBuilderCall ev && isSuccessfulCall ev.

(** What an attempt may do: log, call the model, wait before a retry. *)
Definition isLoopEvent (ev : Event) : bool :=
  match ev with
  | EvLog _ | EvGenerateText _ _ | EvSleep _ => true
  | _ => false
  end.

(** A trace in which no call of [generateText] returned. *)
Abbreviation quiet := (Forall (fun ev => isSuccessfulCall ev = false)).

(** A trace of log lines, calls of [generateText] and waits. *)
Abbreviation loopOnly := (Forall (fun ev => isLoopEvent ev = true)).

(** The (model, provider) pairs of the calls of [generateText], in order. *)
Fixpoint calls (evs : list Event) : list (string * string) :=
  match evs with
  | [] => []
  | EvGenerateText args _ :: rest =>
      (forceModel args, forceProvider args) :: calls rest
  | _ :: rest => calls rest
  end.

(** The error of the last call of [generateText], when it threw. *)
Fixpoint lastCallError (evs : list Event) (acc : option ErrorObj)
  : option ErrorObj :=
  match evs with
  | [] => acc
  | EvGenerateText _ (Throws e) :: rest => lastCallError rest (Some e)
  | EvGenerateText _ (Returns _) :: rest => lastCallError rest None
  | _ :: rest => lastCallError rest acc
  end.

(** The calls a chain receives when every entry is tried to the end:
    [maxRetries + 1] calls for each entry, in chain order. *)
Definition fullWalk (chain : list FallbackEntry) : list (string * string) :=
  mjoin ((fun f => replicate (S (maxRetries f)) (model f, provider f)) <$> chain).

(** Every write to the usage counters comes after a builder call that
    returned. *)
Definition writesFollowSuccess (evs : list Event) : Prop :=
  forall before ev after,
    evs = (before ++ ev :: after)%list -> isIncrementUsage ev = true ->
    exists call, In call before /\ isSuccessfulBuilderCall call = true.

Definition isGenerated (r : Res Response) : bool :=
  match r with Done (Generated _ _ _ _ _ _) => true | _ => false end.

(** A trace without a write to the usage counters. *)
Definition noWrites (evs : list Event) : Prop :=
  Forall (fun ev => isIncrementUsage ev = false) evs.

(** A computation that never writes to the usage counters. *)
Definition Silent {W A : Type} (m : M W A) : Prop :=
  forall w, noWrites (events (m w)).

(** A run that comes after the events [evs]. *)
Definition prepend {W A : Type} (evs : list Event) (r : Run W A) : Run W A :=
  mkRun (outcome r) (final r) (evs ++ events r)%list.

(** Whatever a computation returns satisfies [P]. *)
Definition Post {W A : Type} (m : M W A) (P : A -> Prop) : Prop :=
  forall w a, outcome (m w) = Done a -> P a.

(** A computation of a response whose writes follow a builder call that
    returned, and which writes only when it answers with a generation. *)
Definition Orderly {W : Type} (m : M W Response) : Prop :=
  forall w,
    writesFollowSuccess (events (m w)) /\
    (isGenerated (outcome (m w)) = true \/ noWrites (events (m w))).

End Trace.

(** ** Scripted worlds

    A world in which every collaborator follows a script; the state counts
    the builder calls made so far, so that the script can answer each of
    them differently. *)

Module Scripted.
Import JsString ModelFallback ChatNonstream.

Record Script : Type := mkScript {
  sAuth : Outcome string;
  sUser : Outcome User;
  sCheck : Outcome ActionCheck;
  sPlanning : Outcome GenResult;
  sProcess : list Message -> Outcome (list Message);
  sFilePaths : FileMap -> list string;
  sSummary : Outcome (option string * list FinishResp);
  sSelect : Outcome (option FileMap * list FinishResp);
  sBuilder : nat -> string -> string -> Outcome GenResult;
  sIncrement : Outcome unit
}.

Definition collaborators (s : Script) : Collaborators nat :=
  mkCollab nat
    asciiEngine
    (fun w => (sAuth s, w))
    (fun w => (sUser s, w))
    (fun _ _ w => (sCheck s, w))
    (fun w => ("id", w))
    content
    (fun args w =>
       if String.eqb (gToolChoice args) "auto"
       then (sBuilder s w (forceModel args) (forceProvider args), S w)
       else (sPlanning s, w))
    (fun msgs w => (sProcess s msgs, w))
    (sFilePaths s)
    (fun _ w => (sSummary s, w))
    (fun _ _ w => (sSelect s, w))
    (fun _ _ _ _ w => (sIncrement s, w))
    "/home/project".

Definition usageOf (completion prompt total : nat) : Usage :=
  mkUsage (Some completion) (Some prompt) (Some total).

Definition resultOf (t : string) (u : option Usage) : GenResult :=
  mkResult t None u None "stop".

Definition errorOf (msg : string) : ErrorObj := mkError (Some msg) None None None.

Definition userMessage (t : string) : Message := mkMessage "m1" "user" t.

(** A build request with one user message, no files and nothing
    overridden. *)
Definition buildRequest : Body :=
  mkBody [userMessage "a todo app"] None None false "build" None None None.

(** Everything succeeds; the planning call reports 10 + 5 tokens and the
    builder call 20 + 8. *)
Definition happy : Script :=
  mkScript (Returns "user_1")
    (Returns (mkUser "free" (Some "supa_1")))
    (Returns (mkCheck true None))
    (Returns (resultOf "a plan" (Some (usageOf 10 5 15))))
    Returns
    (fun fs => fs.*1)
    (Returns (None, []))
    (Returns (None, []))
    (fun _ _ _ => Returns (resultOf "<html/>" (Some (usageOf 20 8 28))))
    (Returns tt).

(** The chain of a process started with no variable set. *)
Definition defaultChain : list FallbackEntry := buildChain ∅.

(** As [happy], but every builder call is answered with a 503. *)
Definition failing : Script :=
  mkScript (sAuth happy) (sUser happy) (sCheck happy) (sPlanning happy)
    (sProcess happy) (sFilePaths happy) (sSummary happy) (sSelect happy)
    (fun _ _ _ => Throws (errorOf "503 Service Unavailable"))
    (sIncrement happy).

(** As [buildRequest], but the request names a model of its own. *)
Definition overrideRequest : Body :=
  mkBody (messages buildRequest) None None false "build" None
    (Some "my/model") None.

(** As [happy], but the planning call is refused. *)
Definition planningDown : Script :=
  mkScript (sAuth happy) (sUser happy) (sCheck happy)
    (Throws (errorOf "planner unavailable"))
    (sProcess happy) (sFilePaths happy) (sSummary happy) (sSelect happy)
    (sBuilder happy) (sIncrement happy).

(** A build request that carries a file and asks for context
    optimization. *)
Definition contextRequest : Body :=
  mkBody [userMessage "a todo app"]
    (Some [("/home/project/app.ts", "export {}")]) None true "build" None
    None None.

(** A chain of two entries, and a world in which model "A" is overloaded
    while every other model answers. *)
Definition abChain : list FallbackEntry := [mkEntry "A" "P" 2; mkEntry "B" "Q" 1].

Definition aDown : Script :=
  mkScript (sAuth happy) (sUser happy) (sCheck happy) (sPlanning happy)
    (sProcess happy) (sFilePaths happy) (sSummary happy) (sSelect happy)
    (fun _ m _ =>
       if String.eqb m "A" then Throws (errorOf "Model is Overloaded")
       else Returns (resultOf "<html/>" (Some (usageOf 20 8 28))))
    (sIncrement happy).

(** As [happy], but the user has used up the allowance. *)
Definition overLimit : Script :=
  mkScript (sAuth happy) (sUser happy)
    (Returns (mkCheck false (Some "Monthly limit reached")))
    (sPlanning happy) (sProcess happy) (sFilePaths happy) (sSummary happy)
    (sSelect happy) (sBuilder happy) (sIncrement happy).

(** As [happy], but the limit check itself fails. *)
Definition checkDown : Script :=
  mkScript (sAuth happy) (sUser happy) (Throws (errorOf "database down"))
    (sPlanning happy) (sProcess happy) (sFilePaths happy) (sSummary happy)
    (sSelect happy) (sBuilder happy) (sIncrement happy).

(** The locals of [buildRequest] when it reaches the builder loop. *)
Definition prepared : Prepared :=
  mkPrepared (messages buildRequest) 0 None None (mkCumulative 0 0 0).

End Scripted.

(** ** Counting in a trace *)

Module TraceCount.
Import JsString ModelFallback ChatNonstream Trace.

(** The back-off wait of the retry loop. *)
Definition isBackoff (ev : Event) : bool :=
  match ev with EvSleep 2000 => true | _ => false end.

Definition isSleep (ev : Event) : bool :=
  match ev with EvSleep _ => true | _ => false end.

(** The log line that opens a round of the [while] loop. *)
Definition isAttempting (ev : Event) : bool :=
  match ev with EvLog (LogAttempting _ _) => true | _ => false end.

(** Which event may come directly after which in the trace of the loop:
    a wait lasts 2000 ms and comes after the line that announces a retry,
    and only then; that line comes after a call that threw, and only then;
    after a wait comes a call, and a call comes after a wait or after the
    line that opens a round. *)
Definition mayFollow (a b : Event) : bool :=
  match a, b with
  | EvLog (LogRetrying _ _ _), EvSleep ms => (ms =? 2000)%nat
  | _, EvSleep _ => false
  | EvLog (LogRetrying _ _ _), _ => false
  | EvSleep _, EvGenerateText _ _ => true
  | EvSleep _, _ => false
  | EvLog (LogAttempting _ _), EvGenerateText _ _ => true
  | _, EvGenerateText _ _ => false
  | EvGenerateText _ (Throws _), EvLog (LogRetrying _ _ _) => true
  | _, EvLog (LogRetrying _ _ _) => false
  | _, _ => true
  end.

(** The last event of a trace that comes after [prev] and in which every
    event may follow the one before it. *)
Fixpoint pacedTo (prev : Event) (evs : list Event) : option Event :=
  match evs with
  | [] => Some prev
  | ev :: rest => if mayFollow prev ev then pacedTo ev rest else None
  end.

(** An event after which the loop is neither waiting nor about to wait. *)
Definition settled (ev : Event) : bool :=
  match ev with
  | EvSleep _ | EvLog (LogRetrying _ _ _) | EvGenerateText _ _ => false
  | _ => true
  end.

(** The line that closes the attempts on a model. *)
Definition closes (ev : Event) : bool :=
  match ev with
  | EvLog (LogGenerationSuccessful _) | EvLog (LogModelFailed _ _) => true
  | _ => false
  end.

(** How many events of a trace satisfy [p]. *)
Definition count (p : Event -> bool) (evs : list Event) : nat :=
  List.length (List.filter p evs).

(** The writes to the usage counters, in order. *)
Definition writes (evs : list Event) : list Event :=
  List.filter isIncrementUsage evs.

(** A status in the range the [Response] constructor accepts. *)
Definition validStatus (n : nat) : bool := (200 <=? n)%nat && (n <=? 599)%nat.

(** The status code the outer [catch] reads off an error:
    [error.statusCode || 500]. *)
Definition statusOf (e : ErrorObj) : nat :=
  match statusCode e with
  | Some 0 | None => 500
  | Some n => n
  end.

(** [error.message?.includes('API key')]. *)
Definition mentionsApiKey (e : ErrorObj) : bool :=
  match message e with
  | Some m => includes m "API key"
  | None => false
  end.

(** A computation of a response that writes to the usage counters at most
    once, and then the total it answers with. *)
Definition Accounted {W : Type} (m : M W Response) : Prop :=
  forall w,
    writes (events (m w)) = [] \/
    exists id r content u files summ tools,
      writes (events (m w))
      = [EvIncrementUsage id "ai_generation" (cumTotalTokens u) 0 r] /\
      outcome (m w) = Done (Generated 200 content u files summ tools).

(** A computation that does not depend on the bound put on the [while]
    loop. *)
Definition Fuelless {W A : Type} (m : M W A) : Prop :=
  forall w, outcome (m w) <> OutOfFuel.

(** The retries the registry grants a model: those of its entry, none for
    a model the chain does not list. *)
Definition retriesOf (chain : list FallbackEntry) (m : string) : nat :=
  match find chain m with
  | Some fallback => maxRetries fallback
  | None => 0
  end.

(** The targets of a walk that calls every entry once. *)
Definition singleWalk (chain : list FallbackEntry) : list (string * string) :=
  (fun f => (model f, provider f)) <$> chain.

(** A computation none of whose events satisfies [p]. *)
Definition Never {W A : Type} (p : Event -> bool) (m : M W A) : Prop :=
  forall w, Forall (fun ev => p ev = false) (events (m w)).

(** A trace whose calls of [generateText] all carry an argument in [P]. *)
Definition callsIn (P : GenerateArgs -> Prop) (evs : list Event) : Prop :=
  Forall (fun ev =>
            match ev with EvGenerateText args _ => P args | _ => True end) evs.

(** An answer whose HTTP status is the one its shape and its body call
    for. *)
Definition coherent (resp : Response) : Prop :=
  match resp with
  | LimitReached st _ => st = 429
  | Generated st _ _ _ _ _ => st = 200
  | Failed st _ code _ _ => st = code /\ validStatus st = true
  end.

(** A call of [generateText] with the tools turned off: the planning
    call. *)
Definition isPlanningCall (ev : Event) : bool :=
  isGenerateText ev && negb (isBuilderCall ev).

(** A call as the planning stage makes it: tools off, for the planning
    model on its provider, with [maxTokens: 50000]. *)
Definition isKimiCall (ev : Event) : bool :=
  match ev with
  | EvGenerateText args _ =>
      String.eqb (gToolChoice args) "none"
      && String.eqb (forceModel args) kimiModel
      && String.eqb (forceProvider args) kimiProvider
      && match gMaxTokens args with
         | Some n => N.eqb n 50000
         | None => false
         end
  | _ => false
  end.

(** A computation with at most [n] events that satisfy [p]. *)
Definition AtMost {W A : Type} (p : Event -> bool) (n : nat) (m : M W A)
  : Prop :=
  forall w, count p (events (m w)) <= n.

End TraceCount.

(** ** More scripted worlds *)

Module Scripted2.
Import JsString ModelFallback ChatNonstream Scripted.

(** The chain of a process whose second fallback repeats the primary
    model. *)
Definition repeatingChain : list FallbackEntry :=
  buildChain {[ "FALLBACK_MODEL_2" := "qwen/qwen3-coder" ]}.

(** As [happy], but every builder call is refused for good. *)
Definition refusing : Script :=
  mkScript (sAuth happy) (sUser happy) (sCheck happy) (sPlanning happy)
    (sProcess happy) (sFilePaths happy) (sSummary happy) (sSelect happy)
    (fun _ _ _ => Throws (errorOf "Missing API key for OpenRouter provider"))
    (sIncrement happy).


(** As [happy], but the helpers return a summary and a selection of
    files. *)
Definition summarising : Script :=
  mkScript (sAuth happy) (sUser happy) (sCheck happy) (sPlanning happy)
    (sProcess happy) (sFilePaths happy)
    (Returns (Some "the chat so far", []))
    (Returns (Some [("/home/project/app.ts", "export {}")], []))
    (sBuilder happy) (sIncrement happy).

End Scripted2.

(** ** The cookie header ([parseCookies] of [api.chat-nonstream.ts]) *)

Module Cookies.
Import JsString ModelFallback ChatNonstream.

(** [s.split(sep)] for a separator of one character: the pieces between
    the occurrences of [sep], of which there is always at least one. *)
Fixpoint split (sep : ascii) (s : string) : list string :=
  match s with
  | EmptyString => [EmptyString]
  | String c rest =>
      if Ascii.eqb c sep then EmptyString :: split sep rest
      else
        match split sep rest with
        | piece :: pieces => String c piece :: pieces
        | [] => [String c EmptyString]
        end
  end.

(** [pieces.join(sep)]. *)
Fixpoint join (sep : string) (pieces : list string) : string :=
  match pieces with
  | [] => ""
  | [piece] => piece
  | piece :: rest => piece ++ sep ++ join sep rest
  end.

(** [s] has an occurrence of the character [c]. *)
Fixpoint hasChar (c : ascii) (s : string) : bool :=
  match s with
  | EmptyString => false
  | String c' rest => Ascii.eqb c' c || hasChar c rest
  end.

(** The object [cookies]. *)
Abbreviation Jar := (gmap string string).

(** [cookies[key] = value] on an object literal: the key ['__proto__']
    names the prototype, and a string assigned to it is dropped. *)
Definition setProperty (cookies : Jar) (key value : string) : Jar :=
  if String.eqb key "__proto__" then cookies else <[key := value]> cookies.

Section ParseCookies.
(** The engine, for [trim]. *)
Variable E : Engine.

(** [decodeURIComponent], which throws a [URIError] on a malformed
    escape. *)
Variable decodeURIComponent : string -> Outcome string.

(** The callback of [items.forEach].  [rest] is an array and so always
    truthy: the test comes down to [name] being non-empty. *)
Definition eachItem (cookies : Jar) (item : string) : Outcome Jar :=
  match split "=" item with
  | name :: rest =>
      if truthy name then
        match decodeURIComponent (trim E name) with
        | Throws e => Throws e
        | Returns decodedName =>
            match decodeURIComponent (trim E (join "=" rest)) with
            | Throws e => Throws e
            | Returns decodedValue =>
                Returns (setProperty cookies decodedName decodedValue)
            end
        end
      else Returns cookies
  | [] => Returns cookies
  end.

Fixpoint forEach (items : list string) (cookies : Jar) : Outcome Jar :=
  match items with
  | [] => Returns cookies
  | item :: rest =>
      match eachItem cookies item with
      | Throws e => Throws e
      | Returns cookies' => forEach rest cookies'
      end
  end.

(** Lines 14-29. *)
Definition parseCookies (cookieHeader : string) : Outcome Jar :=
  forEach (List.map (trim E) (split ";" cookieHeader)) ∅.

End ParseCookies.

(** A [decodeURIComponent] for text without escapes. *)
Definition plain (s : string) : Outcome string :=
  if hasChar "%" s then Throws (newError "URI malformed") else Returns s.

End Cookies.

(** ** One call of the model ([generate-text.ts]) *)

Module GenerateText.
Import JsString ModelFallback ChatNonstream Cookies.

(** An entry of a model list. *)
Record ModelInfo : Type := mkModelInfo {
  mName : string;
  mProvider : string;
  maxTokenAllowed : Z;
  maxCompletionTokens : option Z
}.

(** An entry of [PROVIDER_LIST]. *)
Record ProviderInfo : Type := mkProviderInfo {
  pName : string;
  staticModels : option (list ModelInfo)
}.

(** What [extractPropertiesFromMessage] returns. *)
Record Properties : Type := mkProperties {
  xModel : string;
  xProvider : string;
  xContent : string
}.

(** A value of [options]: a string, a number, or any other value, which
    is only passed on and is kept by a name. *)
Inductive Setting : Type :=
| SString (s : string)
| SNumber (n : Z)
| SObject (name : string).

(** The argument of [generateText].  [files] is kept as the paths with
    their [isLocked] flag; [env], [apiKeys], [providerSettings] and
    [designScheme] only reach the collaborators and are left out, and so
    are the [parts] of a message. *)
Record Props : Type := mkProps {
  pMessages : list Message;
  pOptions : option (gmap string Setting);
  pFiles : option (list (string * bool));
  pPromptId : option string;
  pContextOptimization : bool;
  pContextFiles : option FileMap;
  pSummary : option string;
  pMessageSliceId : option nat;
  pChatMode : option string;
  pForceModel : option string;
  pForceProvider : option string
}.

(** A value of the object handed to the SDK: a setting, or one of the
    three other values [generateText] puts in. *)
Inductive Value (Instance : Type) : Type :=
| VOption (v : Setting)
| VModel (instance : Instance)
| VSystem (prompt : string)
| VMessages (msgs : list Message).
Arguments VOption {Instance} v.
Arguments VModel {Instance} instance.
Arguments VSystem {Instance} prompt.
Arguments VMessages {Instance} msgs.

(** The keys [generateText] removes from the options of a reasoning
    model. *)
Definition samplingKeys : list string :=
  [ "temperature"; "topP"; "presencePenalty"; "frequencyPenalty"; "logprobs";
    "topLogprobs"; "logitBias" ].

(** [messages.slice(-n)] for [n > 0]. *)
Definition lastN {A : Type} (n : nat) (l : list A) : list A :=
  drop (List.length l - n) l.

Section GenerateText.
(** The constants and functions the module imports; the model instance
    is an object of the SDK. *)
Context {Instance : Type}.
Variable DEFAULT_MODEL : string.
Variable DEFAULT_PROVIDER : ProviderInfo.
Variable PROVIDER_LIST : list ProviderInfo.
Variable MAX_TOKENS : Z.
Variable PROVIDER_COMPLETION_LIMITS : string -> option Z.
Variable isReasoningModel : string -> bool.
Variable extractPropertiesFromMessage : Message -> Properties.
Variable sanitizeText : string -> string.
Variable getStaticModelListFromProvider : ProviderInfo -> Outcome (list ModelInfo).
Variable getModelListFromProvider : ProviderInfo -> Outcome (list ModelInfo).
Variable getPropmtFromLibrary : string -> Outcome (option string).
Variable getSystemPrompt : string.
Variable discussPrompt : string.
Variable createFilesContext : FileMap -> string.
Variable getModelInstance : ProviderInfo -> string -> Outcome Instance.
Variable _generateText : gmap string (Value Instance) -> Outcome GenResult.

(** Lines 29-41.  A limit of the model counts when it is positive, one of
    the table when it is not 0. *)
Definition getCompletionTokenLimit (modelDetails : ModelInfo) : Z :=
  let otherwise :=
    match PROVIDER_COMPLETION_LIMITS (mProvider modelDetails) with
    | Some providerDefault =>
        if (providerDefault =? 0)%Z then Z.min MAX_TOKENS 16384
        else providerDefault
    | None => Z.min MAX_TOKENS 16384
    end in
  match maxCompletionTokens modelDetails with
  | Some own => if (0 <? own)%Z then own else otherwise
  | None => otherwise
  end.

(** Lines 84-92: [currentModel] and [currentProvider] once the messages
    have been mapped. *)
Definition target (props : Props) : string * string :=
  fold_left
    (fun current message =>
       if String.eqb (role message) "user" then
         let x := extractPropertiesFromMessage message in
         (match truthyString (pForceModel props) with
          | Some _ => current.1
          | None => xModel x
          end,
          match truthyString (pForceProvider props) with
          | Some _ => current.2
          | None => xProvider x
          end)
       else current)
    (pMessages props)
    (default DEFAULT_MODEL (truthyString (pForceModel props)),
     default (pName DEFAULT_PROVIDER) (truthyString (pForceProvider props))).

(** Lines 86-105: [processedMessages] after the [map]. *)
Definition sanitized (props : Props) : list Message :=
  List.map
    (fun message =>
       if String.eqb (role message) "user" then
         mkMessage (msgId message) (role message)
           (sanitizeText (xContent (extractPropertiesFromMessage message)))
       else if String.eqb (role message) "assistant" then
         mkMessage (msgId message) (role message)
           (sanitizeText (content message))
       else message)
    (pMessages props).

(** Lines 107-133: the provider and the model of the call. *)
Definition resolveProvider (currentProvider : string) : ProviderInfo :=
  default DEFAULT_PROVIDER
    (List.find (fun p => String.eqb (pName p) currentProvider) PROVIDER_LIST).

Definition named (currentModel : string) (m : ModelInfo) : bool :=
  String.eqb (mName m) currentModel.

Definition resolveModel (provider : ProviderInfo) (currentModel : string)
  : Outcome ModelInfo :=
  match getStaticModelListFromProvider provider with
  | Throws e => Throws e
  | Returns static =>
      match List.find (named currentModel) static with
      | Some modelDetails => Returns modelDetails
      | None =>
          match getModelListFromProvider provider with
          | Throws e => Throws e
          | Returns dynamic =>
              let modelsList :=
                (default [] (staticModels provider) ++ dynamic)%list in
              match modelsList with
              | [] =>
                  Throws (newError ("No models found for provider "
                                    ++ pName provider))
              | first :: _ =>
                  Returns (default first
                             (List.find (named currentModel) modelsList))
              end
          end
      end
  end.

(** The condition of line 155. *)
Definition inContext (props : Props) : bool :=
  bool_decide (pChatMode props = Some "build")
  && bool_decide (is_Some (pContextFiles props))
  && pContextOptimization props.

(** Lines 155-173, for the messages. *)
Definition window (props : Props) (processedMessages : list Message)
  : list Message :=
  if inContext props then
    match truthyString (pSummary props) with
    | Some _ =>
        match pMessageSliceId props with
        | Some (S n) => drop (S n) processedMessages
        | _ =>
            match last processedMessages with
            | Some lastMessage => [lastMessage]
            | None => removelast processedMessages
            end
        end
    | None => processedMessages
    end
  else processedMessages.

(** Lines 175-183: the paths of the locked files. *)
Definition lockedFilePaths (props : Props) : list string :=
  (List.filter snd (default [] (pFiles props))).*1.

(** Lines 142-190, for the prompt. *)
Definition systemPromptText (libraryPrompt : string) (props : Props) : string :=
  let systemPrompt := libraryPrompt in
  let systemPrompt :=
    if inContext props then
      let codeContext := createFilesContext (default [] (pContextFiles props)) in
      let systemPrompt :=
        systemPrompt ++ nl ++ nl
        ++ "    Below is the artifact containing the context loaded into context buffer for you to have knowledge of and might need changes to fullfill current user request."
        ++ nl ++ "    CONTEXT BUFFER:" ++ nl ++ "    ---" ++ nl ++ "    "
        ++ codeContext ++ nl ++ "    ---" ++ nl ++ "    " in
      match truthyString (pSummary props) with
      | Some summary =>
          systemPrompt ++ nl ++ "      below is the chat history till now"
          ++ nl ++ "      CHAT SUMMARY:" ++ nl ++ "      ---" ++ nl ++ "      "
          ++ summary ++ nl ++ "      ---" ++ nl ++ "      "
      | None => systemPrompt
      end
    else systemPrompt in
  match lockedFilePaths props with
  | [] => systemPrompt
  | locked =>
      systemPrompt ++ nl ++ nl
      ++ "    IMPORTANT: The following files are locked and MUST NOT be modified in any way. Do not suggest or make any changes to these files. You can proceed with the request but DO NOT make any changes to these files specifically:"
      ++ nl ++ "    " ++ join nl (List.map (fun filePath => "- " ++ filePath) locked)
      ++ nl ++ "    ---" ++ nl ++ "    "
  end.

(** Lines 199-217. *)
Definition tokenParams (isReasoning : bool) (safeMaxTokens : Z)
  : gmap string (Value Instance) :=
  if isReasoning
  then {[ "maxCompletionTokens" := VOption (SNumber safeMaxTokens) ]}
  else {[ "maxTokens" := VOption (SNumber safeMaxTokens) ]}.

Definition filteredOptions (isReasoning : bool)
    (options : option (gmap string Setting)) : gmap string Setting :=
  match options with
  | Some options =>
      if isReasoning
      then filter (fun entry => entry.1 ∉ samplingKeys) options
      else options
  | None => ∅
  end.

(** Lines 219-231.  An object literal is filled from left to right, a
    later key replacing an earlier one. *)
Definition generateParams (instance : Instance) (system : string)
    (isReasoning : bool) (safeMaxTokens : Z) (msgs : list Message)
    (options : option (gmap string Setting))
  : gmap string (Value Instance) :=
  let literal : gmap string (Value Instance) :=
    <["messages" := VMessages msgs]>
      (tokenParams isReasoning safeMaxTokens
       ∪ <["system" := VSystem system]> {[ "model" := VModel instance ]}) in
  let withOptions := (VOption <$> filteredOptions isReasoning options) ∪ literal in
  if isReasoning
  then <["temperature" := VOption (SNumber 1)]> withOptions
  else withOptions.

(** Lines 84-231: the object [_generateText] is called with. *)
Definition prepareCall (props : Props) : Outcome (gmap string (Value Instance)) :=
  let processedMessages := sanitized props in
  let provider := resolveProvider (target props).2 in
  match resolveModel provider (target props).1 with
  | Throws e => Throws e
  | Returns modelDetails =>
      let safeMaxTokens := getCompletionTokenLimit modelDetails in
      match getPropmtFromLibrary (orDefault (pPromptId props) "default") with
      | Throws e => Throws e
      | Returns libraryPrompt =>
          let systemPrompt :=
            systemPromptText (default getSystemPrompt libraryPrompt) props in
          let processedMessages := window props processedMessages in
          let isReasoning := isReasoningModel (mName modelDetails) in
          match getModelInstance provider (mName modelDetails) with
          | Throws e => Throws e
          | Returns instance =>
              Returns
                (generateParams instance
                   (if bool_decide (pChatMode props = Some "build")
                    then systemPrompt else discussPrompt)
                   isReasoning safeMaxTokens processedMessages
                   (pOptions props))
          end
      end
  end.

(** Lines 51-234. *)
Definition generateText (props : Props) : Outcome GenResult :=
  match prepareCall props with
  | Throws e => Throws e
  | Returns generateParams => _generateText generateParams
  end.

End GenerateText.

(** The planning call of the route (lines 131-146 of
    [api.chat-nonstream.ts]) as [generateText] receives it. *)
Definition planningProps (args : GenerateArgs) : Props :=
  mkProps (gMessages args)
    (Some (<["toolChoice" := SString (gToolChoice args)]>
             (match gMaxTokens args with
              | Some n => {[ "maxTokens" := SNumber (Z.of_N n) ]}
              | None => ∅
              end)))
    (Some []) (gPromptId args) (gContextOptimization args) (gContextFiles args)
    (gSummary args) None (Some (gChatMode args)) (Some (forceModel args))
    (Some (forceProvider args)).

(** A builder call of the route (lines 276-292) as [generateText] receives
    it, given the lock flags of the files and the options the route builds
    ([supabaseConnection], [toolChoice], [tools], [maxSteps]). *)
Definition builderProps (args : GenerateArgs)
    (locks : option (list (string * bool)))
    (options : gmap string Setting) : Props :=
  mkProps (gMessages args) (Some options) locks (gPromptId args)
    (gContextOptimization args) (gContextFiles args) (gSummary args)
    (Some (gMessageSliceId args)) (Some (gChatMode args))
    (Some (forceModel args)) (Some (forceProvider args)).

(** A registry with one provider, whose static list names the planning
    model with a limit of its own and a second model without one; no
    model is a reasoning model, and nothing throws. *)
Definition openRouter : ProviderInfo :=
  mkProviderInfo "OpenRouter"
    (Some [ mkModelInfo "moonshotai/kimi-k2-thinking" "OpenRouter" 262144
              (Some 16000%Z);
            mkModelInfo "qwen/qwen3-coder" "OpenRouter" 262144 None ]).

Definition exampleCall (props : Props)
  : Outcome (gmap string (Value string)) :=
  prepareCall "claude-3-5-sonnet-latest" openRouter [openRouter] 8000%Z
    (fun _ => None) (fun _ => false)
    (fun message => mkProperties "tagged-model" "tagged-provider" (content message))
    (fun t => t)
    (fun p => Returns (default [] (staticModels p)))
    (fun _ => Returns [])
    (fun _ => Returns None) "the system prompt" "the discuss prompt"
    (fun _ => "")
    (fun p m => Returns (pName p ++ "/" ++ m))
    props.

End GenerateText.

(** ** The provider preferences of OpenRouter ([openrouter-config.ts]) *)

Module OpenRouterConfig.
Import JsString ModelFallback Cookies.

(** [OpenRouterProviderConfig]; [mkConfig None None] is [{}]. *)
Record OpenRouterProviderConfig : Type := mkConfig {
  only : option (list string);
  order : option (list string)
}.

(** [model && model.includes(word)]. *)
Definition mentions (model : option string) (word : string) : bool :=
  match model with
  | Some m => truthy m && includes m word
  | None => false
  end.

(** [getOpenRouterProviderConfig]; the [console.log] lines are left out.
    [serverEnv] is [None] when the argument is missing. *)
Definition getOpenRouterProviderConfig (E : Engine) (model : option string)
    (serverEnv : option Env) : OpenRouterProviderConfig :=
  if mentions model "kimi" then mkConfig None None
  else if mentions model "qwen" then
    let qwenProviders :=
      match serverEnv ≫= (.!! "OPENROUTER_QWEN_PROVIDERS") with
      | Some listed =>
          List.map (fun p => toLowerCase E (trim E p)) (split "," listed)
      | None => ["chutes"]
      end in
    let qwenUseOnly :=
      negb (bool_decide
              (serverEnv ≫= (.!! "OPENROUTER_QWEN_USE_ONLY") = Some "false")) in
    if qwenUseOnly then mkConfig (Some qwenProviders) None
    else mkConfig None (Some qwenProviders)
  else mkConfig None None.





End OpenRouterConfig.

(** ** Creating a screen ([api.screens.create.ts]) *)

Module ScreensCreate.
Import JsString ModelFallback ChatNonstream.

(** The row [db.getUserByClerkId] returns. *)
Record DbUser : Type := mkDbUser {
  uId : string;
  aiGenerationsCount : Z;
  uSubscriptionTier : option string
}.

(** The calls of [db], with their arguments. *)
Inductive DbCall (Input : Type) : Type :=
| GetUserByClerkId (clerkUserId : string)
| GetUserLimits (userId : string)
| CreateScreen (input : Input)
| IncrementUsage (userId kind : string).
Arguments GetUserByClerkId {Input} clerkUserId.
Arguments GetUserLimits {Input} userId.
Arguments CreateScreen {Input} input.
Arguments IncrementUsage {Input} userId kind.

(** The entry of [tierUpgrades] for a tier, which is a name of a
    subscription tier and not of a property every object has. *)
Definition tierUpgrades (tier : string) : option (string * string * Z) :=
  if String.eqb tier "free" then Some ("Indie Accelerator", "$5/mo", 100%Z)
  else if String.eqb tier "pro" then Some ("Team Rocket", "$15/mo", 1000%Z)
  else if String.eqb tier "enterprise" then Some ("Studio Dominator", "$30/mo", 2000%Z)
  else None.

(** The answers of the route; the two messages of the 403 are kept as the
    values they interpolate. *)
Inductive ScreenResponse (Screen : Type) : Type :=
| Unauthorized
| UserNotFound
| ScreenLimitReached (maxAiGenerations : Z) (upgrade : option (string * string * Z))
| ScreenCreated (screen : Screen) (screensCreated : Z)
| FailedToCreate.
Arguments Unauthorized {Screen}.
Arguments UserNotFound {Screen}.
Arguments ScreenLimitReached {Screen} maxAiGenerations upgrade.
Arguments ScreenCreated {Screen} screen screensCreated.
Arguments FailedToCreate {Screen}.

Definition status {Screen : Type} (r : ScreenResponse Screen) : nat :=
  match r with
  | Unauthorized => 401
  | UserNotFound => 404
  | ScreenLimitReached _ _ => 403
  | ScreenCreated _ _ => 200
  | FailedToCreate => 500
  end.

Section Action.
(** The body of the request as far as [db.createScreen] receives it, and
    the row it returns. *)
Context {Input Screen : Type}.
(** What the awaited calls resolve to; a body that is no object makes the
    destructuring throw and counts as a [json()] that throws. *)
Variable getAuth : Outcome (option string).
Variable requestJson : Outcome Input.
Variable getUserByClerkId : string -> Outcome (option DbUser).
Variable getUserLimits : string -> Outcome Z.
Variable createScreen : Input -> Outcome Screen.
Variable incrementUsage : string -> string -> Outcome unit.

(** [action]: the answer and the calls of [db] made on the way. *)
Definition action : ScreenResponse Screen * list (DbCall Input) :=
  match getAuth with
  | Throws _ => (FailedToCreate, [])
  | Returns clerkUserId =>
      match truthyString clerkUserId with
      | None => (Unauthorized, [])
      | Some clerkUserId =>
          match requestJson with
          | Throws _ => (FailedToCreate, [])
          | Returns input =>
              let called := [GetUserByClerkId clerkUserId] in
              match getUserByClerkId clerkUserId with
              | Throws _ => (FailedToCreate, called)
              | Returns None => (UserNotFound, called)
              | Returns (Some user) =>
                  let called := (called ++ [GetUserLimits (uId user)])%list in
                  match getUserLimits (uId user) with
                  | Throws _ => (FailedToCreate, called)
                  | Returns maxAiGenerations =>
                      if (maxAiGenerations <=? aiGenerationsCount user)%Z then
                        let tier := orDefault (uSubscriptionTier user) "free" in
                        (ScreenLimitReached maxAiGenerations (tierUpgrades tier),
                         called)
                      else
                        let called := (called ++ [CreateScreen input])%list in
                        match createScreen input with
                        | Throws _ => (FailedToCreate, called)
                        | Returns screen =>
                            let called :=
                              (called
                               ++ [IncrementUsage (uId user) "screen_created"])%list in
                            match incrementUsage (uId user) "screen_created" with
                            | Throws _ => (FailedToCreate, called)
                            | Returns _ =>
                                (ScreenCreated screen
                                   (aiGenerationsCount user + 1), called)
                            end
                        end
                  end
              end
          end
      end
  end.

End Action.

End ScreensCreate.

(** ** The limits of a subscription ([stripe.server.ts],
    [usage-guard.server.ts]) *)

Module Billing.
Import JsString ModelFallback ChatNonstream.

(** The [limits] of a tier; [price_per_screen] is left out. *)
Record Limits : Type := mkLimits {
  projects : Z;
  screens : Z;
  storage_gb : Z
}.

(** [BillingService.getTierLimits]: the limits of the tier, and those of
    [free] for any other name. *)
Definition getTierLimits (tier : string) : Limits :=
  if String.eqb tier "free" then mkLimits 5 10 1
  else if String.eqb tier "pro" then mkLimits 20 100 10
  else if String.eqb tier "enterprise" then mkLimits 100 1000 100
  else if String.eqb tier "enterprise_plus" then mkLimits 200 2000 500
  else mkLimits 5 10 1.

Record BillingUser : Type := mkBillingUser {
  buId : string;
  subscription_tier : option string
}.

(** The limit types counted in whole numbers; ['storage'], which is
    counted in fractions of a GB, is left out. *)
Inductive LimitType : Type := Projects | Screens.

(** What [checkUsageLimit] returns. *)
Record LimitCheck : Type := mkLimitCheck {
  exceeded : bool;
  current : Z;
  max : Z;
  unlimited : bool
}.

(** The two texts of [error]; the second is kept as the numbers it
    interpolates. *)
Inductive GuardError : Type :=
| UnlimitedProjectsAvailable
| ProjectLimitReached (current max : Z).

(** What [canCreateProject] returns. *)
Record GuardCheck : Type := mkGuardCheck {
  gAllowed : bool;
  gError : option GuardError;
  gCurrent : Z;
  gMax : Z;
  gUnlimited : bool
}.

(** How [enforceProjectLimit] ends: it returns the check, throws the 403
    response, or rejects with an error of a collaborator. *)
Inductive Enforcement : Type :=
| Passed (check : GuardCheck)
| Refused (status : nat) (error : option GuardError) (limitType : string)
    (current max : Z)
| Crashed (e : ErrorObj).

Section BillingService.
(** [db.getUserByClerkId] ([None] is [null]), [db.getUserProjects] with
    its limit and offset ([Some n] is an array of [n] projects, [None] any
    other value) and [db.getUserScreenCount]. *)
Variable getUserByClerkId : string -> Outcome (option BillingUser).
Variable getUserProjects : string -> Z -> Z -> Outcome (option nat).
Variable getUserScreenCount : string -> Outcome Z.

(** [checkUsageLimit] for ['projects'] and ['screens']. *)
Definition checkUsageLimit (clerkUserId : string) (limitType : LimitType)
  : Outcome LimitCheck :=
  match getUserByClerkId clerkUserId with
  | Throws e => Throws e
  | Returns None => Throws (newError "Cannot read properties of null")
  | Returns (Some user) =>
      let tier := orDefault (subscription_tier user) "free" in
      let limits := getTierLimits tier in
      match limitType with
      | Projects =>
          match getUserProjects (buId user) 1000 0 with
          | Throws e => Throws e
          | Returns projectCount =>
              let current :=
                match projectCount with
                | Some n => Z.of_nat n
                | None => 0%Z
                end in
              let max := projects limits in
              Returns (mkLimitCheck
                         (negb (max =? -1)%Z && (max <=? current)%Z)
                         current max (max =? -1)%Z)
          end
      | Screens =>
          match getUserScreenCount (buId user) with
          | Throws e => Throws e
          | Returns current =>
              let max := screens limits in
              Returns (mkLimitCheck
                         (negb (max =? -1)%Z && (max <=? current)%Z)
                         current max (max =? -1)%Z)
          end
      end
  end.

(** [canPerformAction] for ['create_project'] and ['create_screen']: the
    check with [allowed] put in front. *)
Definition canPerformAction (clerkUserId : string) (limitType : LimitType)
  : Outcome (bool * LimitCheck) :=
  match checkUsageLimit clerkUserId limitType with
  | Throws e => Throws e
  | Returns limitCheck => Returns (negb (exceeded limitCheck), limitCheck)
  end.

(** [UsageGuard.canCreateProject]. *)
Definition canCreateProject (clerkUserId : string) : Outcome GuardCheck :=
  match canPerformAction clerkUserId Projects with
  | Throws e => Throws e
  | Returns (allowed, check) =>
      if negb allowed then
        Returns (mkGuardCheck false
                   (Some (if unlimited check then UnlimitedProjectsAvailable
                          else ProjectLimitReached (current check) (max check)))
                   (current check) (max check) (unlimited check))
      else
        Returns (mkGuardCheck true None (current check) (max check)
                   (unlimited check))
  end.

(** [UsageGuard.enforceProjectLimit]. *)
Definition enforceProjectLimit (clerkUserId : string) : Enforcement :=
  match canCreateProject clerkUserId with
  | Throws e => Crashed e
  | Returns check =>
      if negb (gAllowed check)
      then Refused 403 (gError check) "projects" (gCurrent check) (gMax check)
      else Passed check
  end.

End BillingService.

End Billing.

(** ** Which prompts are enhanced ([promptEnhancer.ts]) *)

Module PromptEnhancer.
Import JsString.

Definition designKeywords : list string :=
  [ "create"; "design"; "build"; "make"; "generate"; "mockup"; "screen";
    "page"; "interface"; "checkout"; "menu"; "landing"; "dashboard";
    "profile" ].

(** [shouldEnhancePrompt]. *)
Definition shouldEnhancePrompt (E : Engine) (prompt : string) : bool :=
  let lowerPrompt := toLowerCase E prompt in
  existsb (fun keyword => includes lowerPrompt keyword) designKeywords.

End PromptEnhancer.

(** * Properties *)

Import JsString ModelFallback ChatNonstream Trace Scripted.

(** ** The model on small inputs *)

Example includes_status :
  includes (toLowerCase asciiEngine "HTTP 503: Overloaded") "overloaded"
  = true.
Proof. vm_compute. reflexivity. Qed.

Example shouldRetry_first_retry :
  shouldRetry asciiEngine defaultChain
    (Caught (errorOf "Rate limit exceeded")) 1 "gemini-2.5-flash"
  = Returns true.
Proof. vm_compute. reflexivity. Qed.

Example shouldRetry_out_of_retries :
  shouldRetry asciiEngine defaultChain
    (Caught (errorOf "Rate limit exceeded")) 2 "gemini-2.5-flash"
  = Returns false.
Proof. vm_compute. reflexivity. Qed.

Example shouldRetry_validation_error :
  shouldRetry asciiEngine defaultChain
    (Caught (errorOf "response did not match schema")) 0 "gemini-2.5-flash"
  = Returns false.
Proof. vm_compute. reflexivity. Qed.

Example getNextFallback_of_primary :
  getNextFallback defaultChain "qwen/qwen3-coder"
  = Some (mkEntry "gemini-2.5-flash" "OpenRouter" 2).
Proof. vm_compute. reflexivity. Qed.

Example getNextFallback_of_last :
  getNextFallback defaultChain "qwen/qwen3-coder-480b-a35b-instruct" = None.
Proof. vm_compute. reflexivity. Qed.

(** Model "A" fails three times, the walk switches to "B", which answers at
    its first call. *)
Example walk_switches_to_B :
  let r := fallbackLoop (collaborators aDown) abChain
             (preparedArgs buildRequest (messages buildRequest) prepared)
             2 "A" "P" None 0 in
  calls (events r) = [("A", "P"); ("A", "P"); ("A", "P"); ("B", "Q")] /\
  outcome r = Done (resultOf "<html/>" (Some (usageOf 20 8 28))) /\
  List.filter (fun ev => match ev with EvSleep _ => true | _ => false end)
    (events r) = [EvSleep 2000; EvSleep 2000].
Proof. vm_compute. auto. Qed.

Example limit_reached_response :
  outcome (chatAction (collaborators overLimit) defaultChain 4 buildRequest 0)
  = Done (LimitReached 429 "Monthly limit reached").
Proof. vm_compute. reflexivity. Qed.

Example failed_check_lets_through :
  outcome (chatAction (collaborators checkDown) defaultChain 4 buildRequest 0)
  = outcome (chatAction (collaborators happy) defaultChain 4 buildRequest 0).
Proof. vm_compute. reflexivity. Qed.

Example exhausted_chain_response :
  outcome (chatAction (collaborators failing) defaultChain 4 buildRequest 0)
  = Done (Failed 500 "503 Service Unavailable" 500 true "unknown").
Proof. vm_compute. reflexivity. Qed.

(** ** Strings *)

Section StringFacts.

Lemma append_nil (b : string) : "" ++ b = b.
Proof. reflexivity. Qed.

Lemma append_cons (c : ascii) (a b : string) :
  String c a ++ b = String c (a ++ b).
Proof. reflexivity. Qed.

Lemma prefix_app (a b : string) : String.prefix a (a ++ b) = true.
Proof.
  induction a as [|c a IH]; rewrite ?append_nil, ?append_cons; simpl.
  - now destruct b.
  - destruct (ascii_dec c c); [exact IH | congruence].
Qed.

Lemma prefix_split (a s : string) :
  String.prefix a s = true -> exists post, s = a ++ post.
Proof.
  revert s. induction a as [|c a IH]; intros s H.
  - exists s. reflexivity.
  - destruct s as [|d s]; simpl in H; [discriminate|].
    destruct (ascii_dec c d) as [->|]; [|discriminate].
    destruct (IH s H) as [post ->]. now exists post.
Qed.

(** [includes] finds exactly the substrings. *)
Lemma includes_spec (hay needle : string) :
  includes hay needle = true <->
  exists pre post, hay = pre ++ needle ++ post.
Proof.
  split.
  - induction hay as [|c hay IH]; cbn [includes]; intros H.
    + apply orb_true_iff in H as [H|H]; [|discriminate].
      apply prefix_split in H as [post H]. now exists "", post.
    + apply orb_true_iff in H as [H|H].
      * apply prefix_split in H as [post H]. exists "", post. exact H.
      * destruct (IH H) as (pre & post & ->).
        now exists (String c pre), post.
  - intros (pre & post & ->).
    induction pre as [|c pre IH].
    + rewrite append_nil. generalize (prefix_app needle post).
      destruct (needle ++ post); cbn [includes]; intros ->; reflexivity.
    + rewrite append_cons. cbn [includes]. rewrite IH. apply orb_true_r.
Qed.

Lemma occursIn_includes (needle hay : string) :
  occursIn needle hay <-> includes hay needle = true.
Proof. symmetry. apply includes_spec. Qed.

Lemma asciiLowerCase_app (a b : string) :
  asciiLowerCase (a ++ b) = asciiLowerCase a ++ asciiLowerCase b.
Proof.
  induction a as [|c a IH]; rewrite ?append_nil, ?append_cons; simpl;
    [reflexivity | now rewrite IH, append_cons].
Qed.

(** A split of the lowered string comes from a split of the string. *)
Lemma asciiLowerCase_split (s a b : string) :
  asciiLowerCase s = a ++ b ->
  exists s1 s2,
    s = s1 ++ s2 /\ asciiLowerCase s1 = a /\ asciiLowerCase s2 = b.
Proof.
  revert s. induction a as [|c a IH]; intros s H.
  - exists "", s. auto.
  - destruct s as [|d s]; simpl in H; [discriminate|].
    injection H as Hc Hs.
    destruct (IH s Hs) as (s1 & s2 & -> & H1 & H2).
    exists (String d s1), s2. simpl. rewrite Hc, H1. auto.
Qed.

Lemma nat_of_ascii_inj (c d : ascii) :
  nat_of_ascii c = nat_of_ascii d -> c = d.
Proof.
  intros H. rewrite <- (ascii_nat_embedding c), <- (ascii_nat_embedding d).
  now rewrite H.
Qed.

Lemma nat_of_asciiLowerChar (c : ascii) :
  nat_of_ascii (asciiLowerChar c)
  = if (65 <=? nat_of_ascii c)%nat && (nat_of_ascii c <=? 90)%nat
    then (nat_of_ascii c + 32)%nat else nat_of_ascii c.
Proof.
  unfold asciiLowerChar.
  destruct ((65 <=? nat_of_ascii c)%nat && (nat_of_ascii c <=? 90)%nat)
    eqn:Hup; [|reflexivity].
  apply andb_true_iff in Hup as [_ Hle]. apply Nat.leb_le in Hle.
  apply nat_ascii_embedding. lia.
Qed.

(** Lowering identifies exactly the two forms of a letter. *)
Lemma asciiLowerChar_same (c d : ascii) :
  asciiLowerChar c = asciiLowerChar d <-> sameLetter c d.
Proof.
  unfold sameLetter. cbv zeta. split.
  - intros H. apply (f_equal nat_of_ascii) in H.
    rewrite !nat_of_asciiLowerChar in H.
    destruct (Nat.leb_spec 65 (nat_of_ascii c)),
      (Nat.leb_spec (nat_of_ascii c) 90),
      (Nat.leb_spec 65 (nat_of_ascii d)),
      (Nat.leb_spec (nat_of_ascii d) 90); cbn [andb] in H; lia.
  - intros H. apply nat_of_ascii_inj. rewrite !nat_of_asciiLowerChar.
    destruct (Nat.leb_spec 65 (nat_of_ascii c)),
      (Nat.leb_spec (nat_of_ascii c) 90),
      (Nat.leb_spec 65 (nat_of_ascii d)),
      (Nat.leb_spec (nat_of_ascii d) 90); cbn [andb]; lia.
Qed.

Lemma ci_equal_lower (a b : string) :
  ci_equal a b <-> asciiLowerCase a = asciiLowerCase b.
Proof.
  revert b. induction a as [|c a IH]; intros [|d b]; cbn [ci_equal asciiLowerCase];
    try (split; [intros [] | discriminate]); [tauto|].
  rewrite IH, <- asciiLowerChar_same. split.
  - now intros [-> ->].
  - intros H. now injection H.
Qed.

(** Containment in the lowered text is containment up to case, for a
    marker written in lower case. *)
Lemma includes_lower_ci (msg marker : string) :
  asciiLowerCase marker = marker ->
  occursIn marker (asciiLowerCase msg) <-> ci_contains msg marker.
Proof.
  intros Hm. unfold occursIn, ci_contains. split.
  - intros (pre & post & H).
    apply asciiLowerCase_split in H as (s1 & s2 & -> & H1 & H2).
    apply asciiLowerCase_split in H2 as (mid & s3 & -> & H2 & H3).
    exists s1, mid, s3. split; [reflexivity|].
    apply ci_equal_lower. now rewrite Hm.
  - intros (pre & mid & post & -> & H). apply ci_equal_lower in H.
    exists (asciiLowerCase pre), (asciiLowerCase post).
    rewrite !asciiLowerCase_app, H, Hm. reflexivity.
Qed.

(** On ASCII text a standard engine lowers as [asciiLowerCase] does. *)
Lemma standard_lower (E : Engine) (msg marker : string) :
  Standard E -> isAscii msg = true -> asciiLowerCase marker = marker ->
  occursIn marker (toLowerCase E msg) <-> ci_contains msg marker.
Proof.
  intros [HE _] Hascii Hm. rewrite (proj1 (HE msg Hascii)).
  now apply includes_lower_ci.
Qed.

(** A text that is, up to case, a text of ASCII characters is one
    itself. *)
Lemma ci_equal_ascii (a b : string) :
  ci_equal a b -> isAscii b = true -> isAscii a = true.
Proof.
  revert b. induction a as [|c a IH]; intros [|d b]; cbn [ci_equal isAscii];
    try tauto.
  intros [Hcd Hab] [Hd Hb]%andb_prop. rewrite (IH b Hab Hb), andb_true_r.
  unfold isAsciiChar in *. apply Nat.ltb_lt in Hd. apply Nat.ltb_lt.
  unfold sameLetter in Hcd. cbv zeta in Hcd. lia.
Qed.

(** On any text a standard engine finds what is there up to case. *)
Lemma standard_finds (E : Engine) (msg marker : string) :
  Standard E -> isAscii marker = true -> asciiLowerCase marker = marker ->
  ci_contains msg marker -> occursIn marker (toLowerCase E msg).
Proof.
  intros [_ HE] Hascii Hm (pre & mid & post & -> & Hmid).
  destruct (HE pre mid post (ci_equal_ascii _ _ Hmid Hascii))
    as (before & after & ->).
  apply ci_equal_lower in Hmid. rewrite Hmid, Hm. now exists before, after.
Qed.


End StringFacts.

(** ** The registry *)

Local Open Scope list_scope.

Section RegistryFacts.
Implicit Types (chain : list FallbackEntry) (m : string).

Lemma find_Some chain m entry :
  find chain m = Some entry <-> first_match chain m entry.
Proof.
  unfold first_match. split.
  - induction chain as [|f rest IH]; simpl; [discriminate|].
    destruct (String.eqb_spec (model f) m) as [Heq|Hne].
    + intros [= ->]. exists [], rest. auto.
    + intros H. destruct (IH H) as (before & after & -> & Hm & Hall).
      exists (f :: before), after. auto.
  - intros (before & after & -> & Hm & Hall).
    induction Hall as [|f before Hf _ IH]; simpl.
    + now rewrite (proj2 (String.eqb_eq _ _) Hm).
    + now rewrite (proj2 (String.eqb_neq _ _) Hf).
Qed.

Lemma find_None chain m : find chain m = None <-> no_match chain m.
Proof.
  unfold no_match. induction chain as [|f rest IH]; simpl.
  - split; [constructor | reflexivity].
  - destruct (String.eqb_spec (model f) m) as [Heq|Hne].
    + split; [discriminate | intros H; inversion H; contradiction].
    + rewrite IH. split; [now constructor | now inversion 1].
Qed.

Lemma findIndex_Some chain m i :
  findIndex chain m = Some i <->
  exists before entry after,
    chain = before ++ entry :: after /\ List.length before = i /\
    model entry = m /\ Forall (fun f => model f <> m) before.
Proof.
  split.
  - revert i. induction chain as [|f rest IH]; simpl; intros i; [discriminate|].
    destruct (String.eqb_spec (model f) m) as [Heq|Hne].
    + intros [= <-]. exists [], f, rest. auto.
    + destruct (findIndex rest m) as [j|]; [|discriminate].
      intros [= <-].
      destruct (IH j eq_refl) as (before & entry & after & -> & Hl & Hm & Hall).
      exists (f :: before), entry, after. simpl. auto.
  - intros (before & entry & after & -> & <- & Hm & Hall).
    induction Hall as [|f before Hf _ IH]; simpl.
    + now rewrite (proj2 (String.eqb_eq _ _) Hm).
    + rewrite (proj2 (String.eqb_neq _ _) Hf). now rewrite IH.
Qed.

Lemma findIndex_None chain m : findIndex chain m = None <-> no_match chain m.
Proof.
  unfold no_match. induction chain as [|f rest IH]; simpl.
  - split; [constructor | reflexivity].
  - destruct (String.eqb_spec (model f) m) as [Heq|Hne].
    + split; [discriminate | intros H; inversion H; contradiction].
    + destruct (findIndex rest m); split; try discriminate; try reflexivity.
      * intros H. inversion H as [|? ? _ Hrest]. apply IH in Hrest. discriminate.
      * intros _. constructor; [assumption | now apply IH].
Qed.

(** The entry after the first match, or nothing when it is the last. *)
Lemma getNextFallback_at chain m before entry after :
  chain = before ++ entry :: after ->
  model entry = m ->
  Forall (fun f => model f <> m) before ->
  getNextFallback chain m = head after.
Proof.
  intros -> Hm Hall. unfold getNextFallback.
  rewrite (proj2 (findIndex_Some _ _ (List.length before)))
    by (exists before, entry, after; auto).
  rewrite length_app. simpl.
  destruct after as [|next after]; simpl.
  - rewrite (proj2 (Nat.leb_le _ _)) by lia. reflexivity.
  - rewrite (proj2 (Nat.leb_gt _ _)) by lia.
    rewrite lookup_app_r by lia.
    replace (List.length before + 1 - List.length before) with 1 by lia.
    reflexivity.
Qed.

Lemma marker_lower marker :
  In marker retryableErrors ->
  asciiLowerCase marker = marker /\ includes "" marker = false.
Proof.
  unfold retryableErrors. simpl.
  intros H; repeat destruct H as [<-|H]; try contradiction; split; reflexivity.
Qed.

Lemma marker_ascii marker :
  In marker retryableErrors -> isAscii marker = true.
Proof.
  unfold retryableErrors. simpl.
  intros H; repeat destruct H as [<-|H]; try contradiction; reflexivity.
Qed.

Lemma orDefault_self (s : string) : orDefault (Some s) "" = s.
Proof. now destruct s. Qed.

(** The classification of the lowered message, in the words of the
    markers. *)
Lemma isRetryable_spec (lowered : string) :
  isRetryableMessage lowered = true <->
  exists marker, In marker retryableErrors /\ occursIn marker lowered.
Proof.
  unfold isRetryableMessage. rewrite existsb_exists.
  split; intros (marker & Hin & H); exists marker; split; try assumption;
    now apply occursIn_includes.
Qed.

(** What [error?.message?.toLowerCase() || ''] is for an error object. *)
Lemma errorMessage_caught (E : Engine) (e : ErrorObj) :
  errorMessage E (Caught e)
  = Returns match message e with
            | Some msg => toLowerCase E msg
            | None => ""
            end.
Proof.
  cbn [errorMessage]. destruct (message e); [|reflexivity].
  now rewrite orDefault_self.
Qed.

Lemma isRetryable_caught (E : Engine) (e : ErrorObj) :
  isRetryableMessage
    match message e with Some msg => toLowerCase E msg | None => "" end
  = true <-> retryableError E e.
Proof.
  rewrite isRetryable_spec. unfold retryableError. split.
  - intros (marker & Hin & Hocc). destruct (message e) as [msg|].
    + now exists msg, marker.
    + apply occursIn_includes in Hocc.
      now rewrite (proj2 (marker_lower marker Hin)) in Hocc.
  - intros (msg & marker & -> & Hin & Hocc). now exists marker.
Qed.

(** For an error object [shouldRetry] returns. *)
Lemma shouldRetry_caught (E : Engine) chain (e : ErrorObj) (n : nat) m :
  shouldRetry E chain (Caught e) n m = Returns (retryCaught E chain e n m).
Proof.
  unfold retryCaught, shouldRetry. destruct (find chain m); [|reflexivity].
  now rewrite errorMessage_caught.
Qed.

Lemma retryCaught_true (E : Engine) chain (e : ErrorObj) (n : nat) m :
  retryCaught E chain e n m = true <->
  shouldRetry E chain (Caught e) n m = Returns true.
Proof.
  rewrite shouldRetry_caught. split; [now intros -> | now intros [= ->]].
Qed.

Lemma shouldRetry_retryable (E : Engine) chain (e : ErrorObj) (n : nat) m
    fallback :
  find chain m = Some fallback -> retryableError E e ->
  shouldRetry E chain (Caught e) n m
  = Returns (n <? maxRetries fallback)%nat.
Proof.
  intros Hfind Hretry. unfold shouldRetry.
  rewrite Hfind, errorMessage_caught.
  now rewrite (proj2 (isRetryable_caught E e) Hretry).
Qed.

Lemma shouldRetry_lasting (E : Engine) chain (e : ErrorObj) (n : nat) m :
  ~ retryableError E e ->
  shouldRetry E chain (Caught e) n m = Returns false.
Proof.
  intros Hno. unfold shouldRetry. destruct (find chain m); [|reflexivity].
  rewrite errorMessage_caught.
  destruct (isRetryableMessage _) eqn:His; [|reflexivity].
  now apply isRetryable_caught in His.
Qed.

Lemma shouldRetry_unlisted (E : Engine) chain (error : ErrorValue)
    (n : nat) m :
  no_match chain m -> shouldRetry E chain error n m = Returns false.
Proof.
  intros Hno. unfold shouldRetry.
  now rewrite (proj2 (find_None chain m) Hno).
Qed.

End RegistryFacts.

(** C3, as the code has it.  For an [error] whose message is absent or a
    string, [shouldRetry(error, currentRetry, model)] returns, and it
    returns true exactly when the model has a chain entry (the first one
    with that model), the message of the error, put in lower case, contains
    one of the seven markers, and [currentRetry] is below that entry's
    [maxRetries]; so it returns false as soon as [currentRetry] reaches
    [maxRetries], whatever the error.  For an [error] whose message is of
    another type the call throws when the model has a chain entry, whatever
    the retry count, and returns false when it has none.  On a standard
    engine a message that contains a marker up to the case of the letters
    passes the test, and a message of ASCII text passes it only then. *)
Theorem shouldRetry_iff (E : Engine) (chain : list FallbackEntry)
    (error : ErrorValue) (currentRetry : nat) (m : string) :
  let markers :=
    ["overloaded"; "rate limit"; "timeout"; "network"; "429"; "503"; "500"] in
  (error <> OddMessage ->
   (shouldRetry E chain error currentRetry m = Returns true <->
    exists entry,
      first_match chain m entry /\
      (exists e msg marker before after,
         error = Caught e /\ message e = Some msg /\ In marker markers /\
         toLowerCase E msg = (before ++ marker ++ after)%string) /\
      currentRetry < maxRetries entry)
   /\
   (exists answer, shouldRetry E chain error currentRetry m = Returns answer)
   /\
   (forall entry,
      first_match chain m entry -> maxRetries entry <= currentRetry ->
      shouldRetry E chain error currentRetry m = Returns false))
  /\
  (error = OddMessage ->
   (forall entry,
      first_match chain m entry ->
      exists thrown, shouldRetry E chain error currentRetry m = Throws thrown)
   /\
   (no_match chain m ->
    shouldRetry E chain error currentRetry m = Returns false))
  /\
  (Standard E ->
   forall msg marker,
     In marker markers ->
     (ci_contains msg marker ->
      exists before after,
        toLowerCase E msg = (before ++ marker ++ after)%string)
     /\
     (isAscii msg = true ->
      (exists before after,
         toLowerCase E msg = (before ++ marker ++ after)%string) ->
      ci_contains msg marker)).
Proof.
  cbv zeta. split; [|split].
  - intros Hodd. split; [|split].
    + unfold shouldRetry. destruct (find chain m) as [fallback|] eqn:Hfind.
      * apply find_Some in Hfind as Hfirst.
        destruct error as [|e|]; [| |congruence].
        -- cbn [errorMessage]. split; [discriminate|].
           intros (entry & _ & (e & msg & marker & _ & _ & H & _) & _).
           discriminate.
        -- rewrite errorMessage_caught. split.
           ++ intros H. injection H as H.
              apply andb_true_iff in H as [Hmsg Hlt].
              apply isRetryable_caught in Hmsg
                as (msg & marker & Hmsg & Hin & before & after & Hocc).
              apply Nat.ltb_lt in Hlt. exists fallback.
              split; [assumption|]. split; [|assumption].
              now exists e, msg, marker, before, after.
           ++ intros (entry & Hentry
                      & (e' & msg & marker & before & after
                         & He & Hmsg & Hin & Hocc) & Hlt).
              injection He as <-.
              apply find_Some in Hentry. rewrite Hfind in Hentry.
              injection Hentry as <-. f_equal.
              apply andb_true_iff. split; [|now apply Nat.ltb_lt].
              apply isRetryable_caught. exists msg, marker.
              split; [assumption|]. split; [assumption|].
              now exists before, after.
      * split; [discriminate|].
        intros (entry & Hentry & _). apply find_Some in Hentry. congruence.
    + destruct error as [|e|]; [| |congruence].
      * unfold shouldRetry. destruct (find chain m); cbn [errorMessage]; eauto.
      * rewrite shouldRetry_caught. eauto.
    + intros entry Hentry Hge. unfold shouldRetry.
      apply find_Some in Hentry. rewrite Hentry.
      destruct error as [|e|]; [| |congruence].
      * reflexivity.
      * rewrite errorMessage_caught. f_equal.
        apply andb_false_iff. right. apply Nat.ltb_ge. exact Hge.
  - intros ->. split.
    + intros entry Hentry. apply find_Some in Hentry.
      unfold shouldRetry. rewrite Hentry. cbn [errorMessage]. eauto.
    + apply shouldRetry_unlisted.
  - intros HE msg marker Hin. split.
    + apply (standard_finds E msg marker HE (marker_ascii marker Hin)).
      apply (marker_lower marker Hin).
    + intros Hascii. apply (standard_lower E msg marker HE Hascii).
      apply (marker_lower marker Hin).
Qed.

(** C3, as stated, fails for an error whose message is no string, here on
    the chain of a process started with no variable set: both retries of
    the primary model are used up, yet the call does not return false, it
    throws. *)
Lemma shouldRetry_throws_on_odd_message :
  find defaultChain "qwen/qwen3-coder"
  = Some (mkEntry "qwen/qwen3-coder" "OpenRouter" 2) /\
  shouldRetry asciiEngine defaultChain OddMessage 2 "qwen/qwen3-coder"
  = Throws (newError "toLowerCase is not a function") /\
  shouldRetry asciiEngine defaultChain OddMessage 2 "qwen/qwen3-coder"
  <> Returns false.
Proof. vm_compute. repeat split; discriminate. Qed.

(** C6, as the code has it.  [getNextFallback(currentModel)] returns the
    entry that follows the first entry whose model is [currentModel], and
    [null] exactly when no entry has that model or that first entry is the
    last one of the chain. *)
Theorem getNextFallback_spec (chain : list FallbackEntry) (currentModel : string) :
  (forall next,
     getNextFallback chain currentModel = Some next <->
     exists before entry after,
       chain = before ++ entry :: next :: after /\
       model entry = currentModel /\
       Forall (fun f => model f <> currentModel) before)
  /\
  (getNextFallback chain currentModel = None <->
   no_match chain currentModel \/
   exists before entry,
     chain = before ++ [entry] /\ model entry = currentModel /\
     Forall (fun f => model f <> currentModel) before).
Proof.
  pose proof (getNextFallback_at chain currentModel) as Hidx.
  split.
  - intros next. split.
    + intros H.
      destruct (findIndex chain currentModel) as [i|] eqn:Hi.
      * apply findIndex_Some in Hi as (before & entry & after & Hc & _ & Hm & Hall).
        rewrite (Hidx before entry after Hc Hm Hall) in H.
        destruct after as [|n after]; simpl in H; [discriminate|].
        injection H as ->. exists before, entry, after. auto.
      * unfold getNextFallback in H. rewrite Hi in H. discriminate.
    + intros (before & entry & after & Hc & Hm & Hall).
      now rewrite (Hidx before entry (next :: after)).
  - split.
    + intros H.
      destruct (findIndex chain currentModel) as [i|] eqn:Hi.
      * right.
        apply findIndex_Some in Hi as (before & entry & after & Hc & _ & Hm & Hall).
        rewrite (Hidx before entry after Hc Hm Hall) in H.
        destruct after; [|discriminate].
        exists before, entry. auto.
      * left. now apply findIndex_None.
    + intros [Hno | (before & entry & Hc & Hm & Hall)].
      * unfold getNextFallback.
        now rewrite (proj2 (findIndex_None _ _) Hno).
      * now rewrite (Hidx before entry []).
Qed.

(** C6, as stated, fails when the model of the last entry also occurs
    earlier: with [FALLBACK_MODEL_3] set to the default primary model, that
    model is the last entry's, yet the entry after its first occurrence is
    returned. *)
Lemma getNextFallback_last_model_not_null :
  let chain := buildChain {[ "FALLBACK_MODEL_3" := "qwen/qwen3-coder" ]} in
  model <$> last chain = Some "qwen/qwen3-coder" /\
  getNextFallback chain "qwen/qwen3-coder"
  = Some (mkEntry "gemini-2.5-flash" "OpenRouter" 2) /\
  getNextFallback chain "qwen/qwen3-coder" <> None.
Proof. vm_compute. repeat split; discriminate. Qed.

(** Once the variable is set, a run answers every call on the cached list
    and leaves the variable alone, whatever the environments are. *)
Lemma run_cached (E : Engine) (chain : list FallbackEntry)
    (calls : list (Env * Call)) :
  run E (Some chain) calls = (answerOn E chain <$> calls.*2, Some chain).
Proof.
  induction calls as [|[env c] calls IH]; simpl; [reflexivity|].
  unfold step. simpl. now rewrite IH.
Qed.

(** [o || d] keeps a string that is set and not empty. *)
Lemma orDefault_setting (o : option string) (d : string) :
  orDefault o d
  = match o with
    | Some (String c rest) => String c rest
    | _ => d
    end.
Proof. now destruct o as [[|c rest]|]. Qed.

(** C7.  The first call of [getFallbackChain] builds the list from the
    environment it sees and stores it: four entries in this order, with 2,
    2, 1 and 1 retries, whose model and provider are the values of
    [PRIMARY_MODEL] and [PRIMARY_PROVIDER], then of [FALLBACK_MODEL_n] and
    [FALLBACK_PROVIDER_n] for n = 1, 2, 3, each replaced by its default
    when the variable is unset or empty.  A call that finds the variable
    set returns the stored list and does not look at the environment; so
    in any run of a process every call of the registry, whatever the
    environment has become, is answered on the list built by the first
    call, which stays stored as it is, and [getDefaultModel] answers with
    entry 0 of that list. *)
Theorem getFallbackChain_memoized (E : Engine) (env0 : Env) (c0 : Call)
    (calls : list (Env * Call)) :
  let setting (name fallback : string) : string :=
    match env0 !! name with
    | Some (String c rest) => String c rest
    | _ => fallback
    end in
  let entry0 :=
    mkEntry (setting "PRIMARY_MODEL" "qwen/qwen3-coder")
      (setting "PRIMARY_PROVIDER" "OpenRouter") 2 in
  let built :=
    [ entry0;
      mkEntry (setting "FALLBACK_MODEL_1" "gemini-2.5-flash")
        (setting "FALLBACK_PROVIDER_1" "OpenRouter") 2;
      mkEntry (setting "FALLBACK_MODEL_2" "x-ai/grok-4-fast")
        (setting "FALLBACK_PROVIDER_2" "OpenRouter") 1;
      mkEntry (setting "FALLBACK_MODEL_3" "qwen/qwen3-coder-480b-a35b-instruct")
        (setting "FALLBACK_PROVIDER_3" "Novita") 1 ] in
  getFallbackChain env0 None = (built, Some built)
  /\ (forall env chain, getFallbackChain env (Some chain) = (chain, Some chain))
  /\ run E None ((env0, c0) :: calls)
     = (answerOn E built <$> (c0 :: calls.*2), Some built)
  /\ (forall before call after,
        calls = before ++ call :: after ->
        exists answers,
          run E None ((env0, c0) :: before) = (answers, Some built) /\
          step E call.1 (Some built) call.2
          = (answerOn E built call.2, Some built))
  /\ answerOn E built CallGetFallbackChain = AnsChain built
  /\ answerOn E built CallGetDefaultModel = AnsEntry (Some entry0)
  /\ buildChain env0 = built
  /\ buildChain ∅
     = [ mkEntry "qwen/qwen3-coder" "OpenRouter" 2;
         mkEntry "gemini-2.5-flash" "OpenRouter" 2;
         mkEntry "x-ai/grok-4-fast" "OpenRouter" 1;
         mkEntry "qwen/qwen3-coder-480b-a35b-instruct" "Novita" 1 ].
Proof.
  cbv beta zeta.
  assert (Hbuilt : buildChain env0 = _)
    by (unfold buildChain; rewrite !orDefault_setting; reflexivity).
  rewrite <- Hbuilt.
  assert (Hrun : forall calls,
             run E None ((env0, c0) :: calls)
             = (answerOn E (buildChain env0) <$> (c0 :: calls.*2),
                Some (buildChain env0))).
  { intros l. cbn [run]. unfold step. cbn [getFallbackChain].
    now rewrite run_cached. }
  repeat split; try reflexivity.
  - apply Hrun.
  - intros before call after _. eexists. split; [apply Hrun | reflexivity].
  - now rewrite Hbuilt.
Qed.

(** ** Running a computation step by step *)

Section Steps.
Context {W : Type}.

Lemma bind_events {A B} (m : M W A) (k : A -> M W B) w :
  events (bind m k w)
  = events (m w) ++
    match outcome (m w) with
    | Done a => events (k a (final (m w)))
    | _ => []
    end.
Proof.
  unfold bind. destruct (outcome (m w)); cbn [events];
    now rewrite ?app_nil_r.
Qed.

Lemma bind_outcome {A B} (m : M W A) (k : A -> M W B) w :
  outcome (bind m k w)
  = match outcome (m w) with
    | Done a => outcome (k a (final (m w)))
    | Thrown e => Thrown e
    | OutOfFuel => OutOfFuel
    end.
Proof. unfold bind. now destruct (outcome (m w)). Qed.

Lemma tryCatch_events {A} (m : M W A) (h : ErrorObj -> M W A) w :
  events (tryCatch m h w)
  = events (m w) ++
    match outcome (m w) with
    | Thrown e => events (h e (final (m w)))
    | _ => []
    end.
Proof.
  unfold tryCatch. destruct (outcome (m w)); cbn [events];
    now rewrite ?app_nil_r.
Qed.

Lemma tryCatch_outcome {A} (m : M W A) (h : ErrorObj -> M W A) w :
  outcome (tryCatch m h w)
  = match outcome (m w) with
    | Thrown e => outcome (h e (final (m w)))
    | o => o
    end.
Proof. unfold tryCatch. now destruct (outcome (m w)) eqn:H. Qed.

Lemma bind_eq {A B} (m : M W A) (k : A -> M W B) w :
  bind m k w
  = match outcome (m w) with
    | Done a => prepend (events (m w)) (k a (final (m w)))
    | Thrown e => mkRun (Thrown e) (final (m w)) (events (m w))
    | OutOfFuel => mkRun OutOfFuel (final (m w)) (events (m w))
    end.
Proof. unfold bind, prepend. now destruct (outcome (m w)). Qed.

Lemma tryCatch_eq {A} (m : M W A) (h : ErrorObj -> M W A) w :
  tryCatch m h w
  = match outcome (m w) with
    | Thrown e => prepend (events (m w)) (h e (final (m w)))
    | _ => m w
    end.
Proof. unfold tryCatch, prepend. now destruct (outcome (m w)). Qed.

Lemma bind_log {B} l (k : unit -> M W B) w :
  bind (log l) k w = prepend [EvLog l] (k tt w).
Proof. reflexivity. Qed.

Lemma bind_await_returns {A B} (f : W -> Outcome A * W) ev (k : A -> M W B)
    w a w' :
  f w = (Returns a, w') ->
  bind (await f ev) k w = prepend [ev (Returns a)] (k a w').
Proof. intros H. unfold bind, await, prepend. now rewrite H. Qed.

Lemma bind_await_throws {A B} (f : W -> Outcome A * W) ev (k : A -> M W B)
    w e w' :
  f w = (Throws e, w') ->
  bind (await f ev) k w = mkRun (Thrown e) w' [ev (Throws e)].
Proof. intros H. unfold bind, await. now rewrite H. Qed.

Lemma prepend_run {A} (evs evs' : list Event) (o : Res A) (w : W) :
  prepend evs (mkRun o w evs') = mkRun o w (evs ++ evs').
Proof. reflexivity. Qed.

Lemma prepend_prepend {A} (evs evs' : list Event) (r : Run W A) :
  prepend evs (prepend evs' r) = prepend (evs ++ evs') r.
Proof. unfold prepend. cbn. now rewrite app_assoc. Qed.

End Steps.

(** ** The retry and fallback loop *)

Section LoopFacts.
Context {W : Type} (C : Collaborators W) (chain : list FallbackEntry).
Variable mk : string -> string -> GenerateArgs.

(** One round of the [for] loop whose call returns. *)
Lemma attemptLoop_returns n a mr cm cp le w res w' :
  generateText C (mk cm cp) w = (Returns res, w') ->
  attemptLoop C chain mk (S n) a mr cm cp le w
  = mkRun (Done (Some res, le)) w'
      [EvGenerateText (mk cm cp) (Returns res);
       EvLog (LogGenerationSuccessful cm)].
Proof.
  intros H. cbn [attemptLoop]. unfold tryCatch, bind, await, log, emit, ret.
  rewrite H. reflexivity.
Qed.

(** One round whose call throws: retry after the pause, or give up. *)
Lemma attemptLoop_throws n a mr cm cp le w e w' :
  generateText C (mk cm cp) w = (Throws e, w') ->
  attemptLoop C chain mk (S n) a mr cm cp le w
  = if retryCaught (engine C) chain e a cm && (a <? mr)%nat then
      let r := attemptLoop C chain mk n (S a) mr cm cp (Some e) w' in
      mkRun (outcome r) (final r)
        ([EvGenerateText (mk cm cp) (Throws e);
          EvLog (LogRetrying cm (a + 1) (mr + 1)); EvSleep 2000] ++ events r)
    else
      mkRun (Done (None, Some e)) w'
        [EvGenerateText (mk cm cp) (Throws e);
         EvLog (LogModelFailed cm (a + 1))].
Proof.
  intros H. cbn [attemptLoop]. unfold tryCatch, bind, await, log, emit, ret.
  rewrite H. cbn [outcome final events]. rewrite shouldRetry_caught.
  destruct (retryCaught (engine C) chain e a cm && (a <? mr)%nat);
    cbn [outcome final events app].
  - destruct (attemptLoop C chain mk n (S a) mr cm cp (Some e) w')
      as [[?|?|] ? ?]; reflexivity.
  - reflexivity.
Qed.

(** One round of the [while] loop. *)
Lemma fallbackLoop_step fuel cm cp le w :
  fallbackLoop C chain mk (S fuel) cm cp le w
  = let a := attemptLoop C chain mk (S (loopBound chain cm)) 0
               (loopBound chain cm) cm cp le w in
    let pre := EvLog (LogAttempting cm cp) :: events a in
    match outcome a with
    | Done (Some res, _) => mkRun (Done res) (final a) pre
    | Done (None, le') =>
        match getNextFallback chain cm with
        | None =>
            mkRun (Thrown (default (newError "All models failed") le'))
              (final a) (pre ++ [EvLog LogExhausted])
        | Some next =>
            let r := fallbackLoop C chain mk fuel (model next) (provider next)
                       le' (final a) in
            mkRun (outcome r) (final r)
              (pre ++ EvLog (LogSwitching (model next) (provider next))
                   :: events r)
        end
    | Thrown e => mkRun (Thrown e) (final a) pre
    | OutOfFuel => mkRun OutOfFuel (final a) pre
    end.
Proof.
  cbn [fallbackLoop]. unfold bind, log, emit, ret, throw.
  cbn [outcome final events app].
  destruct (attemptLoop C chain mk (S (loopBound chain cm)) 0
              (loopBound chain cm) cm cp le w) as [[[[res|] le']|e|] wa evs];
    cbn [outcome final events app]; try reflexivity.
  - now rewrite app_nil_r.
  - destruct (getNextFallback chain cm) as [next|];
      cbn [outcome final events app].
    + destruct (fallbackLoop C chain mk fuel (model next) (provider next) le' wa)
        as [[?|?|] ? ?]; cbn [outcome final events app];
        rewrite <- ?app_assoc; reflexivity.
    + rewrite <- ?app_assoc. reflexivity.
Qed.

End LoopFacts.

(** ** Traces *)

Section TraceFacts.

Lemma calls_app (a b : list Event) : calls (a ++ b) = calls a ++ calls b.
Proof.
  induction a as [|ev a IH]; [reflexivity|].
  destruct ev; simpl; rewrite IH; reflexivity.
Qed.

Lemma lastCallError_app (a b : list Event) (acc : option ErrorObj) :
  lastCallError (a ++ b) acc = lastCallError b (lastCallError a acc).
Proof.
  revert acc. induction a as [|ev a IH]; intros acc; [reflexivity|].
  destruct ev as [| | | | |args [res|e]| | | | |]; simpl; apply IH.
Qed.

(** In a chain of distinct models, no entry before a given one has its
    model. *)
Lemma distinct_before (before : list FallbackEntry) (entry : FallbackEntry)
  (rest : list FallbackEntry) :
  NoDup (model <$> (before ++ entry :: rest)) ->
  Forall (fun f => model f <> model entry) before.
Proof.
  rewrite fmap_app, fmap_cons. intros Hnodup.
  apply NoDup_app in Hnodup as (_ & Hdisj & _).
  apply Forall_forall. intros f Hf Heq.
  apply (Hdisj (model f)).
  - apply list_elem_of_fmap. exists f. auto.
  - rewrite Heq. left.
Qed.

Lemma fullWalk_nil : fullWalk [] = [].
Proof. reflexivity. Qed.

Lemma fullWalk_cons (f : FallbackEntry) (rest : list FallbackEntry) :
  fullWalk (f :: rest)
  = replicate (S (maxRetries f)) (model f, provider f) ++ fullWalk rest.
Proof. reflexivity. Qed.

End TraceFacts.

Section Exhaustion.
Context {W : Type} (C : Collaborators W) (chain : list FallbackEntry).
Variable mk : string -> string -> GenerateArgs.

(** The builder call names the model and the provider it is given. *)
Hypothesis mk_target :
  forall cm cp, forceModel (mk cm cp) = cm /\ forceProvider (mk cm cp) = cp.

(** Every builder call throws a retryable error. *)
Hypothesis always_fails :
  forall cm cp w, exists e w',
      generateText C (mk cm cp) w = (Throws e, w') /\ retryableError (engine C) e.

(** With [d] retries left for the entry, the [for] loop makes [d + 1]
    calls and leaves with the error of the last one. *)
Lemma attempts_all_fail entry cm cp bound :
  find chain cm = Some entry -> maxRetries entry <= bound ->
  forall d a n le w acc,
    a + d = maxRetries entry -> d < n ->
    let r := attemptLoop C chain mk n a bound cm cp le w in
    exists e,
      outcome r = Done (None, Some e) /\
      calls (events r) = replicate (S d) (cm, cp) /\
      lastCallError (events r) acc = Some e.
Proof.
  intros Hfind Hbound. induction d as [|d IH]; intros a n le w acc Ha Hn;
    (destruct n as [|n]; [lia|]);
    destruct (always_fails cm cp w) as (e & w' & Hcall & Hretry);
    destruct (mk_target cm cp) as [Hm Hp];
    cbv zeta; rewrite (attemptLoop_throws C chain mk _ _ _ _ _ _ _ _ _ Hcall);
    unfold retryCaught;
    rewrite (shouldRetry_retryable _ _ _ _ _ _ Hfind Hretry).
  - rewrite (proj2 (Nat.ltb_ge _ _)) by lia. cbn [andb].
    exists e. cbn. rewrite Hm, Hp. auto.
  - rewrite !(proj2 (Nat.ltb_lt _ _)) by lia. cbn [andb].
    destruct (IH (S a) n (Some e) w' (Some e)) as (e' & Ho & Hc & Hl);
      [lia | lia |].
    exists e'. cbn [outcome events]. rewrite Ho. split; [reflexivity|].
    cbn. rewrite Hm, Hp, Hc. cbn in Hl. rewrite Hl. auto.
Qed.

(** What the registry answers for an entry of a chain of distinct
    models. *)
Lemma distinct_entry before entry rest :
  NoDup (model <$> chain) ->
  chain = before ++ entry :: rest ->
  find chain (model entry) = Some entry /\
  getNextFallback chain (model entry) = head rest /\
  maxRetries entry <= loopBound chain (model entry).
Proof.
  intros Hnodup Hchain.
  assert (Hbefore : Forall (fun f => model f <> model entry) before)
    by (rewrite Hchain in Hnodup; eapply distinct_before; exact Hnodup).
  assert (Hfind : find chain (model entry) = Some entry)
    by (apply find_Some; exists before, rest; auto).
  repeat split; [exact Hfind | | ].
  - now apply (getNextFallback_at chain (model entry) before entry rest).
  - unfold loopBound. rewrite Hfind.
    destruct (Nat.eqb_spec (maxRetries entry) 0); lia.
Qed.

(** From an entry on, the walk tries every remaining entry to the end and
    throws the error of the last call. *)
Lemma walk_all_fail :
  NoDup (model <$> chain) ->
  forall rest before entry,
    chain = before ++ entry :: rest ->
    forall fuel cp le w acc,
      List.length rest < fuel ->
      let r := fallbackLoop C chain mk fuel (model entry) cp le w in
      exists e,
        outcome r = Thrown e /\
        calls (events r)
        = replicate (S (maxRetries entry)) (model entry, cp) ++ fullWalk rest /\
        lastCallError (events r) acc = Some e.
Proof.
  intros Hnodup. induction rest as [|next rest IH];
    intros before entry Hchain fuel cp le w acc Hfuel;
    (destruct fuel as [|fuel]; [simpl in Hfuel; lia|]);
    destruct (distinct_entry before entry _ Hnodup Hchain)
      as (Hfind & Hnext & Hbound);
    destruct (attempts_all_fail entry (model entry) cp _ Hfind Hbound
                (maxRetries entry) 0 (S (loopBound chain (model entry)))
                le w acc eq_refl ltac:(lia))
      as (e & Ho & Hc & Hl);
    cbv zeta; rewrite fallbackLoop_step; cbv zeta; rewrite Ho, Hnext;
    cbn [head].
  - exists e. cbn [outcome events default]. split; [reflexivity|].
    rewrite calls_app, lastCallError_app.
    cbn [calls lastCallError]. rewrite Hc, Hl.
    rewrite fullWalk_nil, !app_nil_r. auto.
  - destruct (IH (before ++ [entry]) next
                ltac:(now rewrite <- app_assoc) fuel (provider next) (Some e)
                (final (attemptLoop C chain mk (S (loopBound chain (model entry)))
                          0 (loopBound chain (model entry)) (model entry) cp
                          le w)) (Some e) ltac:(simpl in Hfuel; lia))
      as (e' & Ho' & Hc' & Hl').
    exists e'. cbn [outcome events]. split; [exact Ho'|].
    rewrite calls_app, lastCallError_app.
    cbn [calls lastCallError]. rewrite Hc, Hl, Hc', Hl'.
    rewrite fullWalk_cons. auto.
Qed.

End Exhaustion.

(** C2.  On a chain of distinct models entered at entry 0, when every
    builder call throws a retryable error, the loop calls each entry
    [maxRetries + 1] times, in chain order, and then throws the error of the
    last call; [length chain] rounds of the [while] loop are enough. *)
Theorem exhaustion_walks_whole_chain {W : Type} (C : Collaborators W)
    (chain : list FallbackEntry) (body : Body) (enhancedMessages : list Message)
    (p : Prepared) (first : FallbackEntry) (rest : list FallbackEntry) :
  chain = first :: rest ->
  NoDup (model <$> chain) ->
  (forall cm cp w, exists e w',
      generateText C (preparedArgs body enhancedMessages p cm cp) w
      = (Throws e, w') /\ retryableError (engine C) e) ->
  forall fuel lastError w,
    List.length chain <= fuel ->
    let r := fallbackLoop C chain (preparedArgs body enhancedMessages p) fuel
               (model first) (provider first) lastError w in
    exists e,
      outcome r = Thrown e /\
      lastCallError (events r) None = Some e /\
      calls (events r) = fullWalk chain.
Proof.
  intros Hchain Hnodup Hfail fuel lastError w Hfuel.
  destruct (walk_all_fail C chain (preparedArgs body enhancedMessages p)
              ltac:(intros; split; reflexivity) Hfail Hnodup rest [] first
              Hchain fuel (provider first) lastError w None
              ltac:(rewrite Hchain in Hfuel; simpl in Hfuel; lia))
    as (e & Ho & Hc & Hl).
  exists e. cbv zeta. rewrite Ho, Hl, Hc, Hchain, fullWalk_cons. auto.
Qed.

(** The default chain, answered with 503s only: seven calls and the 503 at
    the end. *)
Lemma exhaustion_walks_whole_chain_witness :
  exists e,
    outcome (fallbackLoop (collaborators failing) defaultChain
               (preparedArgs buildRequest (messages buildRequest) prepared) 4
               "qwen/qwen3-coder" "OpenRouter" None 0) = Thrown e /\
    lastCallError
      (events (fallbackLoop (collaborators failing) defaultChain
                 (preparedArgs buildRequest (messages buildRequest) prepared) 4
                 "qwen/qwen3-coder" "OpenRouter" None 0)) None = Some e /\
    calls
      (events (fallbackLoop (collaborators failing) defaultChain
                 (preparedArgs buildRequest (messages buildRequest) prepared) 4
                 "qwen/qwen3-coder" "OpenRouter" None 0))
    = fullWalk defaultChain.
Proof.
  apply (exhaustion_walks_whole_chain (collaborators failing) defaultChain
           buildRequest (messages buildRequest) prepared
           (mkEntry "qwen/qwen3-coder" "OpenRouter" 2)
           [ mkEntry "gemini-2.5-flash" "OpenRouter" 2;
             mkEntry "x-ai/grok-4-fast" "OpenRouter" 1;
             mkEntry "qwen/qwen3-coder-480b-a35b-instruct" "Novita" 1 ]).
  - reflexivity.
  - apply (bool_decide_unpack _). vm_compute. exact I.
  - intros cm cp w. exists (errorOf "503 Service Unavailable"), (S w).
    split; [reflexivity|].
    exists "503 Service Unavailable", "503". split; [reflexivity|].
    split; [vm_compute; tauto|].
    exists "", " service unavailable". reflexivity.
  - vm_compute. lia.
Defined.

(** ** The shape of a walk *)

Section WalkShape.
Context {W : Type} (C : Collaborators W) (chain : list FallbackEntry).
Variable mk : string -> string -> GenerateArgs.

(** The [for] loop only logs, calls and waits; it leaves with a result
    exactly when its last call returned, and no earlier call did. *)
Lemma attemptLoop_shape n a mr cm cp le w :
  let r := attemptLoop C chain mk n a mr cm cp le w in
  loopOnly (events r) /\
  match outcome r with
  | Done (Some res, _) =>
      exists evs,
        events r = evs ++ [EvGenerateText (mk cm cp) (Returns res);
                           EvLog (LogGenerationSuccessful cm)] /\
        quiet evs
  | Done (None, _) => quiet (events r)
  | _ => False
  end.
Proof.
  revert a le w. induction n as [|n IH]; intros a le w; cbv zeta.
  - cbn. split; constructor.
  - destruct (generateText C (mk cm cp) w) as [[res|e] w'] eqn:Hcall.
    + rewrite (attemptLoop_returns C chain mk _ _ _ _ _ _ _ _ _ Hcall).
      cbn [outcome events]. split.
      * repeat constructor.
      * exists []. split; [reflexivity | constructor].
    + rewrite (attemptLoop_throws C chain mk _ _ _ _ _ _ _ _ _ Hcall).
      destruct (retryCaught (engine C) chain e a cm && (a <? mr)%nat).
      * specialize (IH (S a) (Some e) w'). cbv zeta in IH.
        destruct IH as [Hloop Hout]. cbn [outcome events]. split.
        { apply Forall_app. split; [repeat constructor | exact Hloop]. }
        destruct (outcome (attemptLoop C chain mk n (S a) mr cm cp (Some e) w'))
          as [[[res|] le']| |]; try contradiction.
        { destruct Hout as (evs & -> & Hq).
          eexists (_ :: _ :: _ :: evs). split; [reflexivity|].
          repeat constructor. exact Hq. }
        { apply Forall_app. split; [repeat constructor | exact Hout]. }
      * cbn [outcome events]. split; repeat constructor.
Qed.

(** The same for the [while] loop: a walk that returns ends with the one
    call that returned; a walk that throws has seen no call return. *)
Lemma fallbackLoop_shape fuel cm cp le w :
  let r := fallbackLoop C chain mk fuel cm cp le w in
  loopOnly (events r) /\
  match outcome r with
  | Done res =>
      exists evs cm' cp',
        events r = evs ++ [EvGenerateText (mk cm' cp') (Returns res);
                           EvLog (LogGenerationSuccessful cm')] /\
        quiet evs
  | _ => quiet (events r)
  end.
Proof.
  revert cm cp le w. induction fuel as [|fuel IH]; intros cm cp le w; cbv zeta.
  - cbn. split; constructor.
  - rewrite fallbackLoop_step. cbv zeta.
    pose proof (attemptLoop_shape (S (loopBound chain cm)) 0 (loopBound chain cm)
                  cm cp le w) as [Hloop Hout]. cbv zeta in Hloop, Hout.
    destruct (attemptLoop C chain mk (S (loopBound chain cm)) 0
                (loopBound chain cm) cm cp le w) as [[[[res|] le']| |] wa evs];
      cbn [outcome final events] in *; try contradiction.
    + split; [constructor; [reflexivity | exact Hloop]|].
      destruct Hout as (evs' & -> & Hq).
      exists (EvLog (LogAttempting cm cp) :: evs'), cm, cp.
      split; [reflexivity | constructor; [reflexivity | exact Hq]].
    + destruct (getNextFallback chain cm) as [next|]; cbn [outcome final events].
      * specialize (IH (model next) (provider next) le' wa). cbv zeta in IH.
        destruct IH as [Hloop' Hout']. split.
        { constructor; [reflexivity|]. apply Forall_app. split; [exact Hloop|].
          constructor; [reflexivity | exact Hloop']. }
        destruct (outcome (fallbackLoop C chain mk fuel (model next)
                             (provider next) le' wa)) as [res| |].
        { destruct Hout' as (evs' & cm' & cp' & -> & Hq).
          exists (EvLog (LogAttempting cm cp) :: evs
                    ++ EvLog (LogSwitching (model next) (provider next)) :: evs'),
            cm', cp'.
          split; [cbn; now rewrite <- app_assoc|].
          constructor; [reflexivity|]. apply Forall_app. split; [exact Hout|].
          constructor; [reflexivity | exact Hq]. }
        { constructor; [reflexivity|]. apply Forall_app. split; [exact Hout|].
          constructor; [reflexivity | exact Hout']. }
        { constructor; [reflexivity|]. apply Forall_app. split; [exact Hout|].
          constructor; [reflexivity | exact Hout']. }
      * split.
        { constructor; [reflexivity|]. apply Forall_app. split; [exact Hloop|].
          repeat constructor. }
        { constructor; [reflexivity|]. apply Forall_app. split; [exact Hout|].
          repeat constructor. }
Qed.

(** In a trace that ends with its only returned call and one log line, a
    returned call can only be that one. *)
Lemma returned_call_is_last (evs pre post : list Event) (c c' l : Event) :
  quiet evs -> isSuccessfulCall l = false -> isSuccessfulCall c' = true ->
  evs ++ [c; l] = pre ++ c' :: post ->
  c' = c /\ post = [l].
Proof.
  intros Hq Hl Hc'. revert pre. induction Hq as [|ev evs Hev _ IH]; intros pre H.
  - destruct pre as [|x [|y pre]]; simpl in H.
    + injection H as <- <-. auto.
    + injection H as _ <- _. congruence.
    + injection H as _ _ H. destruct pre; discriminate.
  - destruct pre as [|x pre]; simpl in H.
    + injection H as <- _. congruence.
    + injection H as _ H. exact (IH pre H).
Qed.

(** A call that returned is the last call of the walk, and its result is
    the result of the walk. *)
Lemma returned_call_ends_walk fuel cm cp le w pre args res post :
  events (fallbackLoop C chain mk fuel cm cp le w)
  = pre ++ EvGenerateText args (Returns res) :: post ->
  outcome (fallbackLoop C chain mk fuel cm cp le w) = Done res /\
  calls post = [].
Proof.
  intros H.
  pose proof (fallbackLoop_shape fuel cm cp le w) as [_ Hout]. cbv zeta in Hout.
  destruct (outcome (fallbackLoop C chain mk fuel cm cp le w)) as [res'| |].
  - destruct Hout as (evs & cm' & cp' & Hev & Hq). rewrite Hev in H.
    apply returned_call_is_last in H as [Hc ->]; try reflexivity; try assumption.
    injection Hc as _ ->. auto.
  - rewrite H in Hout. apply Forall_app in Hout as [_ Hout].
    inversion Hout; discriminate.
  - rewrite H in Hout. apply Forall_app in Hout as [_ Hout].
    inversion Hout; discriminate.
Qed.

End WalkShape.

(** C5.  When the walk stands at an entry of the chain and the builder call
    for it returns at the first attempt, the walk ends there with that
    result after this one call; and in any walk a call that returns is the
    last call made, so no later entry is ever called. *)
Theorem first_attempt_success_stops {W : Type} (C : Collaborators W)
    (chain : list FallbackEntry) (body : Body) (enhancedMessages : list Message)
    (p : Prepared) (k : nat) (entry : FallbackEntry) (cp : string)
    (lastError : option ErrorObj) (fuel : nat) (w w' : W) (res : GenResult) :
  chain !! k = Some entry ->
  generateText C (preparedArgs body enhancedMessages p (model entry) cp) w
  = (Returns res, w') ->
  let walk := fallbackLoop C chain (preparedArgs body enhancedMessages p) in
  let r := walk (S fuel) (model entry) cp lastError w in
  (outcome r = Done res /\ final r = w' /\
   events r
   = [ EvLog (LogAttempting (model entry) cp);
       EvGenerateText (preparedArgs body enhancedMessages p (model entry) cp)
         (Returns res);
       EvLog (LogGenerationSuccessful (model entry)) ] /\
   calls (events r) = [(model entry, cp)])
  /\
  (forall fuel0 cm0 cp0 le0 w0 pre args res0 post,
     events (walk fuel0 cm0 cp0 le0 w0)
     = pre ++ EvGenerateText args (Returns res0) :: post ->
     outcome (walk fuel0 cm0 cp0 le0 w0) = Done res0 /\ calls post = []).
Proof.
  intros _ Hcall. cbv zeta. split.
  - rewrite fallbackLoop_step. cbv zeta.
    rewrite (attemptLoop_returns C chain _ _ _ _ _ _ _ _ _ _ Hcall).
    cbn. auto.
  - intros. now apply (returned_call_ends_walk C chain _ fuel0 cm0 cp0 le0 w0 pre args).
Qed.

(** The default chain at its third entry, in a world where the builder
    answers. *)
Lemma first_attempt_success_stops_witness :
  calls (events (fallbackLoop (collaborators happy) defaultChain
                   (preparedArgs buildRequest (messages buildRequest) prepared)
                   1 "x-ai/grok-4-fast" "OpenRouter" None 0))
  = [("x-ai/grok-4-fast", "OpenRouter")].
Proof.
  apply (first_attempt_success_stops (collaborators happy) defaultChain
           buildRequest (messages buildRequest) prepared 2
           (mkEntry "x-ai/grok-4-fast" "OpenRouter" 1) "OpenRouter" None 0 0 1
           (resultOf "<html/>" (Some (usageOf 20 8 28))));
    reflexivity.
Defined.

(** ** Writes to the usage counters *)

Section Writes.
Context {W : Type}.

Lemma Silent_ret {A} (a : A) : Silent (W:=W) (ret a).
Proof. intros w. constructor. Qed.

Lemma Silent_throw {A} e : Silent (W:=W) (A:=A) (throw e).
Proof. intros w. constructor. Qed.

Lemma Silent_outOfFuel {A} : Silent (W:=W) (A:=A) outOfFuel.
Proof. intros w. constructor. Qed.

Lemma Silent_log l : Silent (W:=W) (log l).
Proof. intros w. repeat constructor. Qed.

Lemma Silent_emit ev : isIncrementUsage ev = false -> Silent (W:=W) (emit ev).
Proof. intros H w. repeat constructor. exact H. Qed.

Lemma Silent_await {A} (f : W -> Outcome A * W) (ev : Outcome A -> Event) :
  (forall r, isIncrementUsage (ev r) = false) -> Silent (await f ev).
Proof.
  intros H w. unfold await. destruct (f w) as [[a|e] w'];
    repeat constructor; apply H.
Qed.

Lemma Silent_bind {A B} (m : M W A) (k : A -> M W B) :
  Silent m -> (forall a, Silent (k a)) -> Silent (bind m k).
Proof.
  intros Hm Hk w. unfold noWrites. rewrite bind_events. apply Forall_app.
  split; [apply Hm|]. destruct (outcome (m w)); [apply Hk | constructor..].
Qed.

Lemma Silent_tryCatch {A} (m : M W A) (h : ErrorObj -> M W A) :
  Silent m -> (forall e, Silent (h e)) -> Silent (tryCatch m h).
Proof.
  intros Hm Hh w. unfold noWrites. rewrite tryCatch_events. apply Forall_app.
  split; [apply Hm|]. destruct (outcome (m w)); [constructor | apply Hh | constructor].
Qed.

End Writes.

Create HintDb silent.

#[global] Hint Resolve Silent_ret Silent_throw Silent_outOfFuel Silent_log : silent.

(** Splits a goal [Silent m] along the structure of [m]; the leaves are
    closed with the hints of [silent]. *)
Ltac silent :=
  repeat first
    [ solve [auto 1 with silent nocore]
    | apply Silent_emit; reflexivity
    | apply Silent_await; intros ?; reflexivity
    | apply Silent_bind; [|intros ?]
    | apply Silent_tryCatch; [|intros ?]
    | progress cbv beta zeta
    | match goal with
      | |- Silent (match ?x with _ => _ end) => destruct x
      | |- Silent (if ?c then _ else _) => destruct c
      end ].

Section SilentStages.
Context {W : Type} (C : Collaborators W) (chain : list FallbackEntry).

Lemma Silent_newId : Silent (newId C).
Proof.
  intros w. unfold newId. destruct (generateId C w). repeat constructor.
Qed.
#[local] Hint Resolve Silent_newId : silent.

Lemma Silent_usageGuard userId : Silent (usageGuard C userId).
Proof. unfold usageGuard. silent. Qed.

Lemma Silent_initialTarget body : Silent (W:=W) (initialTarget chain body).
Proof. unfold initialTarget. silent. Qed.

Lemma Silent_planningStage body cm cp : Silent (planningStage C body cm cp).
Proof. unfold planningStage. silent. Qed.

Lemma Silent_logFinishes line rs : Silent (W:=W) (logFinishes line rs).
Proof.
  induction rs as [|r rs IH]; cbn [logFinishes]; silent; exact IH.
Qed.
#[local] Hint Resolve Silent_logFinishes : silent.

Lemma Silent_prepare body msgs cu : Silent (prepare C body msgs cu).
Proof. unfold prepare. silent. Qed.

Lemma Silent_errorResponse e : Silent (W:=W) (errorResponse e).
Proof. unfold errorResponse. silent. Qed.

Lemma Silent_fallbackLoop mk fuel cm cp le :
  Silent (fallbackLoop C chain mk fuel cm cp le).
Proof.
  intros w. destruct (fallbackLoop_shape C chain mk fuel cm cp le w) as [H _].
  cbv zeta in H. eapply Forall_impl; [exact H|].
  intros [] Hev; simpl in *; congruence.
Qed.

End SilentStages.

Section OrderlyStages.
Context {W : Type} (C : Collaborators W) (chain : list FallbackEntry).

(** A write found in [a ++ b] lies in [b] when [a] has none. *)
Lemma write_after_prefix (a b before after : list Event) (ev : Event) :
  noWrites a -> a ++ b = before ++ ev :: after -> isIncrementUsage ev = true ->
  exists l, before = a ++ l /\ b = l ++ ev :: after.
Proof.
  intros Ha. revert before. induction Ha as [|x a Hx _ IH]; intros before H Hev.
  - exists before. auto.
  - destruct before as [|y before]; simpl in H; injection H as -> H.
    + congruence.
    + destruct (IH before H Hev) as (l & -> & ->). exists l. auto.
Qed.

Lemma noWrites_follow (evs : list Event) :
  noWrites evs -> writesFollowSuccess evs.
Proof.
  intros Hn before ev after -> Hev.
  apply Forall_app in Hn as [_ Hn]. inversion Hn; congruence.
Qed.

Lemma follow_prepend (a b : list Event) :
  noWrites a -> writesFollowSuccess b -> writesFollowSuccess (a ++ b).
Proof.
  intros Ha Hb before ev after H Hev.
  destruct (write_after_prefix a b before after ev Ha H Hev) as (l & -> & Hl).
  destruct (Hb l ev after Hl Hev) as (call & Hin & Hcall).
  exists call. split; [apply in_or_app; now right | exact Hcall].
Qed.

Lemma follow_after_success (a b : list Event) (call : Event) :
  noWrites a -> In call a -> isSuccessfulBuilderCall call = true ->
  writesFollowSuccess (a ++ b).
Proof.
  intros Ha Hin Hcall before ev after H Hev.
  destruct (write_after_prefix a b before after ev Ha H Hev) as (l & -> & _).
  exists call. split; [apply in_or_app; now left | exact Hcall].
Qed.

Lemma Orderly_silent (m : M W Response) : Silent m -> Orderly m.
Proof. intros H w. split; [apply noWrites_follow, H | right; apply H]. Qed.

Lemma Orderly_bind {A} (m : M W A) (k : A -> M W Response) :
  Silent m -> (forall a, Orderly (k a)) -> Orderly (bind m k).
Proof.
  intros Hm Hk w. rewrite bind_events, bind_outcome.
  destruct (outcome (m w)) as [a| |].
  - destruct (Hk a (final (m w))) as [Hf Hg]. split.
    + apply follow_prepend; [apply Hm | exact Hf].
    + destruct Hg as [Hg|Hg]; [now left | right].
      apply Forall_app. split; [apply Hm | exact Hg].
  - rewrite app_nil_r. split; [apply noWrites_follow, Hm | right; apply Hm].
  - rewrite app_nil_r. split; [apply noWrites_follow, Hm | right; apply Hm].
Qed.

Lemma Orderly_tryCatch (m : M W Response) (h : ErrorObj -> M W Response) :
  Orderly m -> (forall e, Silent (h e)) -> Orderly (tryCatch m h).
Proof.
  intros Hm Hh w. rewrite tryCatch_events, tryCatch_outcome.
  destruct (Hm w) as [Hf Hg].
  destruct (outcome (m w)) as [a|e|]; rewrite ?app_nil_r; try (split; assumption).
  destruct Hg as [Hg|Hg]; [discriminate|].
  assert (noWrites (events (m w) ++ events (h e (final (m w)))))
    by (apply Forall_app; split; [exact Hg | apply Hh]).
  split; [now apply noWrites_follow | now right].
Qed.

(** Once the loop has a result, the route answers with a generation. *)
Lemma finish_generated locals userId p result (w : W) :
  isGenerated (outcome (finish C locals userId p result w)) = true.
Proof.
  unfold finish. rewrite !bind_outcome. cbn [log emit outcome final].
  destruct (truthyString (userSupabaseId locals)) as [supabaseId|];
    [|reflexivity].
  rewrite tryCatch_outcome, bind_outcome. unfold await.
  destruct (incrementUsage C _ _ _ _ _) as [[[]|e] w']; reflexivity.
Qed.

(** The loop followed by [finish]: a write can only come from [finish],
    which runs after the call that returned. *)
Lemma Orderly_loop_finish mk fuel cm cp locals userId p :
  (forall cm cp, gToolChoice (mk cm cp) = "auto") ->
  Orderly (bind (fallbackLoop C chain mk fuel cm cp None)
             (finish C locals userId p)).
Proof.
  intros Hauto w. rewrite bind_events, bind_outcome.
  pose proof (Silent_fallbackLoop C chain mk fuel cm cp None w) as Hsilent.
  destruct (fallbackLoop_shape C chain mk fuel cm cp None w) as [_ Hshape].
  cbv zeta in Hshape.
  destruct (outcome (fallbackLoop C chain mk fuel cm cp None w)) as [res|e|].
  - destruct Hshape as (evs & cm' & cp' & Hev & _). split.
    + apply (follow_after_success _ _
               (EvGenerateText (mk cm' cp') (Returns res))); [exact Hsilent | |].
      * rewrite Hev. apply in_or_app. right. now left.
      * unfold isSuccessfulBuilderCall. cbn. now rewrite Hauto.
    + left. apply finish_generated.
  - rewrite app_nil_r. split; [now apply noWrites_follow | now right].
  - rewrite app_nil_r. split; [now apply noWrites_follow | now right].
Qed.

Lemma Orderly_generation fuel body locals userId cm cp msgs :
  Orderly (generation C chain fuel body locals userId cm cp msgs).
Proof.
  unfold generation. apply Orderly_tryCatch; [|apply Silent_errorResponse].
  apply Orderly_bind; [apply Silent_prepare | intros p].
  apply Orderly_bind; [apply Silent_log | intros _].
  apply Orderly_loop_finish. reflexivity.
Qed.

Lemma Orderly_chatAction fuel body : Orderly (chatAction C chain fuel body).
Proof.
  unfold chatAction.
  apply Orderly_bind; [silent | intros userId].
  apply Orderly_bind; [silent | intros _].
  apply Orderly_bind; [apply Silent_usageGuard | intros [locals [response|]]].
  - apply Orderly_silent. silent.
  - unfold pipeline.
    apply Orderly_bind; [apply Silent_initialTarget | intros [cm cp]].
    apply Orderly_bind; [apply Silent_planningStage | intros msgs].
    apply Orderly_generation.
Qed.

End OrderlyStages.

(** C8.  In every run of [chatAction], a write to the usage counters
    ([db.incrementUsage]) comes after a builder call that returned; a run
    that does not answer with a generation (a refused, failed or exhausted
    request) writes nothing; and the retry and fallback loop itself only
    logs, calls the model and waits before a retry. *)
Theorem usage_written_only_after_success {W : Type} (C : Collaborators W)
    (chain : list FallbackEntry) (fuel : nat) (body : Body) (w : W) :
  let r := chatAction C chain fuel body w in
  writesFollowSuccess (events r)
  /\ (isGenerated (outcome r) = false -> noWrites (events r))
  /\ (forall mk fuel' cm cp lastError w',
        Forall (fun ev => isLoopEvent ev = true)
          (events (fallbackLoop C chain mk fuel' cm cp lastError w'))).
Proof.
  cbv zeta. destruct (Orderly_chatAction C chain fuel body w) as [Hf Hg].
  repeat split.
  - exact Hf.
  - intros Hng. destruct Hg as [Hg|Hg]; [congruence | exact Hg].
  - intros. apply (fallbackLoop_shape C chain mk fuel' cm cp lastError w').
Qed.

(** ** The usage guard *)

Section Guard.
Context {W : Type} (C : Collaborators W) (chain : list FallbackEntry).

(** The run of the guard, by what the two collaborators answer. *)
Lemma usageGuard_run userId w :
  usageGuard C userId w
  = match getAuthenticatedUser C w with
    | (Throws e, w1) =>
        mkRun (Done (mkLocals "free" None, None)) w1
          [ EvGetAuthenticatedUser (Throws e); EvLog (LogErrorFetchingUser e) ]
    | (Returns user, w1) =>
        let locals := mkLocals (subscriptionTier user) (supabaseUserId user) in
        let seen :=
          [ EvGetAuthenticatedUser (Returns user);
            EvLog (LogUserAuthenticated userId (supabaseUserId user)
                     (subscriptionTier user)) ] in
        match canPerformAction C userId "ai_generation" w1 with
        | (Throws e, w2) =>
            mkRun (Done (locals, None)) w2
              (seen ++ [ EvCanPerformAction userId "ai_generation" (Throws e);
                         EvLog (LogErrorFetchingUser e) ])
        | (Returns check, w2) =>
            if allowed check then
              mkRun (Done (locals, None)) w2
                (seen ++ [ EvCanPerformAction userId "ai_generation"
                             (Returns check);
                           EvLog (LogUsageCheckPassed userId) ])
            else
              mkRun
                (Done (locals,
                       Some (LimitReached 429
                               (orDefault (reason check)
                                  "AI generation limit reached"))))
                w2
                (seen ++ [ EvCanPerformAction userId "ai_generation"
                             (Returns check);
                           EvLog (LogLimitReached userId) ])
        end
    end.
Proof.
  unfold usageGuard. rewrite tryCatch_eq.
  destruct (getAuthenticatedUser C w) as [[user|e] w1] eqn:Huser.
  - rewrite (bind_await_returns _ _ _ _ _ _ Huser). cbv zeta.
    rewrite tryCatch_eq, bind_log.
    destruct (canPerformAction C userId "ai_generation" w1) as [[check|e] w2]
      eqn:Hcheck.
    + rewrite (bind_await_returns _ _ _ _ _ _ Hcheck).
      destruct (allowed check); cbn [negb]; rewrite bind_log; reflexivity.
    + rewrite (bind_await_throws _ _ _ _ _ _ Hcheck). reflexivity.
  - rewrite (bind_await_throws _ _ _ _ _ _ Huser). reflexivity.
Qed.

(** [chatAction] after the authentication: the answer of the guard, or the
    pipeline run with the locals the guard has left. *)
Lemma chatAction_run fuel body w0 userId w locals early :
  requireAuth C w0 = (Returns userId, w) ->
  outcome (usageGuard C userId w) = Done (locals, early) ->
  let g := usageGuard C userId w in
  let seen := [ EvRequireAuth (Returns userId); EvLog (LogChatRequest userId) ] in
  chatAction C chain fuel body w0
  = match early with
    | Some response => mkRun (Done response) (final g) (seen ++ events g)
    | None =>
        let r := pipeline C chain fuel body locals userId (final g) in
        mkRun (outcome r) (final r) (seen ++ events g ++ events r)
    end.
Proof.
  intros Hauth Hg. cbv zeta. unfold chatAction.
  rewrite (bind_await_returns _ _ _ _ _ _ Hauth), bind_log, bind_eq, Hg.
  destruct early as [response|]; unfold prepend;
    cbn [ret outcome final events app].
  - now rewrite app_nil_r.
  - reflexivity.
Qed.

End Guard.

(** C10.  The usage guard never throws.  It answers with the 429
    limit-reached response exactly when [getAuthenticatedUser] and
    [canPerformAction] both return and the check says the action is not
    allowed.  When either of them throws, the error is logged and the guard
    lets the request through; [chatAction] then runs the same pipeline as
    after a check that passed, on the locals the [try] block has left
    ([userSupabaseId] still [null] when the user could not be fetched). *)
Theorem usage_guard_fails_open {W : Type} (C : Collaborators W)
    (chain : list FallbackEntry) (fuel : nat) (body : Body)
    (userId : string) (w : W) :
  let g := usageGuard C userId w in
  exists locals early,
    outcome g = Done (locals, early)
    /\ (early = None \/ exists msg, early = Some (LimitReached 429 msg))
    /\ (early <> None <->
        exists user w1 check w2,
          getAuthenticatedUser C w = (Returns user, w1) /\
          canPerformAction C userId "ai_generation" w1 = (Returns check, w2) /\
          allowed check = false)
    /\ (forall e w1,
          getAuthenticatedUser C w = (Throws e, w1) ->
          early = None /\ locals = mkLocals "free" None /\ final g = w1 /\
          events g = [ EvGetAuthenticatedUser (Throws e);
                       EvLog (LogErrorFetchingUser e) ])
    /\ (forall user w1 e w2,
          getAuthenticatedUser C w = (Returns user, w1) ->
          canPerformAction C userId "ai_generation" w1 = (Throws e, w2) ->
          early = None /\
          locals = mkLocals (subscriptionTier user) (supabaseUserId user) /\
          final g = w2 /\
          last (events g) = Some (EvLog (LogErrorFetchingUser e)))
    /\ (forall w0,
          requireAuth C w0 = (Returns userId, w) ->
          let r := chatAction C chain fuel body w0 in
          let seen :=
            [ EvRequireAuth (Returns userId); EvLog (LogChatRequest userId) ] in
          match early with
          | Some response =>
              outcome r = Done response /\ events r = seen ++ events g
          | None =>
              let rest := pipeline C chain fuel body locals userId (final g) in
              outcome r = outcome rest /\ final r = final rest /\
              events r = seen ++ events g ++ events rest
          end).
Proof.
  cbv zeta.
  assert (Hrun : forall locals early w0,
             outcome (usageGuard C userId w) = Done (locals, early) ->
             requireAuth C w0 = (Returns userId, w) ->
             match early with
             | Some response =>
                 outcome (chatAction C chain fuel body w0) = Done response /\
                 events (chatAction C chain fuel body w0)
                 = [ EvRequireAuth (Returns userId);
                     EvLog (LogChatRequest userId) ]
                   ++ events (usageGuard C userId w)
             | None =>
                 outcome (chatAction C chain fuel body w0)
                 = outcome (pipeline C chain fuel body locals userId
                              (final (usageGuard C userId w))) /\
                 final (chatAction C chain fuel body w0)
                 = final (pipeline C chain fuel body locals userId
                            (final (usageGuard C userId w))) /\
                 events (chatAction C chain fuel body w0)
                 = [ EvRequireAuth (Returns userId);
                     EvLog (LogChatRequest userId) ]
                   ++ events (usageGuard C userId w)
                   ++ events (pipeline C chain fuel body locals userId
                                (final (usageGuard C userId w)))
             end).
  { intros locals early w0 Hg Hauth.
    rewrite (chatAction_run C chain fuel body w0 userId w locals early Hauth Hg).
    destruct early; cbn [outcome final events]; auto. }
  revert Hrun. rewrite usageGuard_run.
  destruct (getAuthenticatedUser C w) as [[user|e] w1] eqn:Huser.
  - cbv zeta.
    destruct (canPerformAction C userId "ai_generation" w1) as [[check|e] w2]
      eqn:Hcheck; [destruct (allowed check) eqn:Hallowed|]; intros Hrun;
      eexists _, _; (split; [reflexivity|]).
    + split; [now left|]. split; [|split; [|split]].
      * split; [congruence|]. intros (u & w1' & c & w2' & [= <- <-] & Hc & Ha).
        rewrite Hcheck in Hc. injection Hc as <- <-. congruence.
      * intros e' w1' Hu. discriminate.
      * intros u w1' e' w2' [= <- <-] Hc. rewrite Hcheck in Hc. discriminate.
      * intros w0 Hauth. exact (Hrun _ _ w0 eq_refl Hauth).
    + split; [right; eauto|]. split; [|split; [|split]].
      * split; [|congruence]. intros _. now exists user, w1, check, w2.
      * intros e' w1' Hu. discriminate.
      * intros u w1' e' w2' [= <- <-] Hc. rewrite Hcheck in Hc. discriminate.
      * intros w0 Hauth. exact (Hrun _ _ w0 eq_refl Hauth).
    + split; [now left|]. split; [|split; [|split]].
      * split; [congruence|]. intros (u & w1' & c & w2' & [= <- <-] & Hc & Ha).
        rewrite Hcheck in Hc. discriminate.
      * intros e' w1' Hu. discriminate.
      * intros u w1' e' w2' [= <- <-] Hc. rewrite Hcheck in Hc.
        injection Hc as <- <-. auto.
      * intros w0 Hauth. exact (Hrun _ _ w0 eq_refl Hauth).
  - intros Hrun. eexists _, _. split; [reflexivity|].
    split; [now left|]. split; [|split; [|split]].
    + split; [congruence|]. intros (u & w1' & c & w2' & Hu & _). discriminate.
    + intros e' w1' [= <- <-]. auto.
    + intros u w1' e' w2' Hu. discriminate.
    + intros w0 Hauth. exact (Hrun _ _ w0 eq_refl Hauth).
Qed.

(** ** The planning stage *)

Section Planning.
Context {W : Type} (C : Collaborators W) (chain : list FallbackEntry).

Lemma Post_ret {A} (a : A) (P : A -> Prop) : P a -> Post (W:=W) (ret a) P.
Proof. intros H w a' [= <-]. exact H. Qed.

Lemma Post_throw {A} e (P : A -> Prop) : Post (W:=W) (throw e) P.
Proof. intros w a [=]. Qed.

Lemma Post_bind {A B} (m : M W A) (k : A -> M W B) (P : B -> Prop) :
  (forall a, Post (k a) P) -> Post (bind m k) P.
Proof.
  intros Hk w b. rewrite bind_outcome.
  destruct (outcome (m w)) as [a| |]; [apply Hk | discriminate..].
Qed.

(** What [prepare] returns carries the list [processToolInvocations]
    answered, and the call opens its trace after the two log lines. *)
Lemma prepare_inv body msgs cu w p :
  outcome (prepare C body msgs cu w) = Done p ->
  exists w1 rest,
    processToolInvocations C msgs w = (Returns (processedMessages p), w1) /\
    events (prepare C body msgs cu w)
    = EvLog LogMessageLength :: EvLog (LogSending (List.length msgs))
      :: EvProcessToolInvocations msgs (Returns (processedMessages p)) :: rest.
Proof.
  unfold prepare. rewrite !bind_log.
  destruct (processToolInvocations C msgs w) as [[pm|e] w1] eqn:Hcall.
  - rewrite (bind_await_returns _ _ _ _ _ _ Hcall).
    cbn [prepend outcome final events app]. intros H.
    assert (Hpm : processedMessages p = pm).
    { match type of H with
      | outcome (?m w1) = _ =>
          assert (HP : Post m (fun p => processedMessages p = pm))
      end.
      - destruct (_ && _);
          repeat first
            [ apply Post_bind; intros ?
            | match goal with x : _ * _ |- _ => destruct x end ];
          now apply Post_ret.
      - exact (HP w1 p H). }
    rewrite Hpm. eauto.
  - rewrite (bind_await_throws _ _ _ _ _ _ Hcall).
    cbn [prepend outcome]. discriminate.
Qed.

(** The walk opens with a call for the pair it is started on. *)
Lemma fallbackLoop_first_call mk fuel cm cp le w :
  exists out post,
    events (fallbackLoop C chain mk (S fuel) cm cp le w)
    = EvLog (LogAttempting cm cp) :: EvGenerateText (mk cm cp) out :: post.
Proof.
  rewrite fallbackLoop_step. cbv zeta.
  destruct (generateText C (mk cm cp) w) as [[res|e] w'] eqn:Hcall.
  - rewrite (attemptLoop_returns C chain mk _ _ _ _ _ _ _ _ _ Hcall).
    cbn. eauto.
  - rewrite (attemptLoop_throws C chain mk _ _ _ _ _ _ _ _ _ Hcall).
    destruct (retryCaught (engine C) chain e 0 cm && _);
      cbv zeta; cbn [outcome final events app].
    + destruct (outcome (attemptLoop _ _ _ _ _ _ _ _ _ _))
        as [[[res|] le']| |]; cbn [events];
        try destruct (getNextFallback chain cm); cbn [events app]; eauto.
    + destruct (getNextFallback chain cm); cbn [events app]; eauto.
Qed.

(** When [prepare] returns, the builder is called. *)
Lemma generation_calls_builder fuel body locals userId cm cp msgs w p :
  outcome (prepare C body msgs (mkCumulative 0 0 0) w) = Done p ->
  exists out post,
    events (generation C chain (S fuel) body locals userId cm cp msgs w)
    = events (prepare C body msgs (mkCumulative 0 0 0) w)
      ++ EvLog LogGenerating :: EvLog (LogAttempting cm cp)
      :: EvGenerateText (preparedArgs body msgs p cm cp) out :: post.
Proof.
  intros Hp. unfold generation.
  destruct (fallbackLoop_first_call (preparedArgs body msgs p) fuel cm cp None
              (final (prepare C body msgs (mkCumulative 0 0 0) w)))
    as (out & post & Hev).
  rewrite tryCatch_events, bind_events, Hp. cbv beta iota.
  rewrite bind_log. cbn [prepend events]. rewrite bind_events, Hev.
  rewrite <- !app_assoc. cbn [app]. eauto.
Qed.

(** The target of the request is computed without a collaborator. *)
Lemma initialTarget_run body (w : W) :
  final (initialTarget chain body w) = w /\
  events (initialTarget chain body w) = [].
Proof.
  unfold initialTarget, bind, ret, throw.
  destruct (truthyString (requestedModel body)),
    (truthyString (requestedProvider body)), (getDefaultModel chain);
    cbn; auto.
Qed.

(** A request that names neither a model nor a provider starts at entry 0
    of the chain. *)
Lemma initialTarget_default body first rest (w : W) :
  chain = first :: rest ->
  requestedModel body = None -> requestedProvider body = None ->
  outcome (initialTarget chain body w) = Done (model first, provider first).
Proof.
  intros -> Hm Hp. unfold initialTarget. now rewrite Hm, Hp.
Qed.

End Planning.

Section PlanningFailure.
Context {W : Type} (C : Collaborators W) (chain : list FallbackEntry).

Lemma bind_newId {B} (k : string -> M W B) w id w1 :
  generateId C w = (id, w1) ->
  bind (newId C) k w = prepend [EvGenerateId id] (k id w1).
Proof. intros H. unfold bind, newId, prepend. now rewrite H. Qed.

(** A planning call that throws, or that returns neither reasoning nor
    text, leaves [enhancedMessages] at the list of the request. *)
Lemma planningStage_failed body cm cp lastMessage w id w1 planned w2 :
  chatMode body = "build" ->
  kimiEnabled (useKimiPlanning body) = true ->
  lastUserMessage (messages body) = Some lastMessage ->
  generateId C w = (id, w1) ->
  generateText C
    (planningArgs id (extractPropertiesFromMessage C lastMessage)
       (promptId body)) w1 = (planned, w2) ->
  match planned with
  | Throws _ => True
  | Returns res => orDefault (reasoning res) (text res) = ""
  end ->
  outcome (planningStage C body cm cp w) = Done (messages body) /\
  final (planningStage C body cm cp w) = w2.
Proof.
  intros Hmode Hen Hlast Hid Hplan Hfail.
  unfold planningStage. cbv zeta.
  rewrite bind_log, Hlast, Hmode, Hen, String.eqb_refl. cbn [andb].
  rewrite bind_log.
  match goal with
  | |- context [tryCatch ?m ?h w] =>
      assert (Hinner : exists e evs, m w = mkRun (Thrown e) w2 evs)
  end.
  { rewrite !bind_log, (bind_newId _ _ _ _ Hid).
    destruct planned as [res|e].
    - rewrite (bind_await_returns _ _ _ _ _ _ Hplan), !bind_log, Hfail.
      cbn [truthy negb orb]. rewrite bind_log.
      unfold throw, prepend. cbn [outcome final events]. eauto.
    - rewrite (bind_await_throws _ _ _ _ _ _ Hplan).
      unfold prepend. cbn [outcome final events]. eauto. }
  destruct Hinner as (e & evs & Hinner).
  rewrite tryCatch_eq, Hinner. cbn [outcome final events].
  rewrite bind_log. unfold prepend, ret. cbn [outcome final events]. auto.
Qed.

(** The pipeline is the planning stage followed by the generation. *)
Lemma pipeline_run fuel body locals userId cm cp msgs w :
  outcome (initialTarget chain body w) = Done (cm, cp) ->
  outcome (planningStage C body cm cp w) = Done msgs ->
  let g := generation C chain fuel body locals userId cm cp msgs
             (final (planningStage C body cm cp w)) in
  outcome (pipeline C chain fuel body locals userId w) = outcome g /\
  events (pipeline C chain fuel body locals userId w)
  = events (planningStage C body cm cp w) ++ events g.
Proof.
  intros Htarget Hplan. cbv zeta. unfold pipeline.
  destruct (initialTarget_run chain body w) as [Hw Hev].
  rewrite bind_outcome, bind_events, Htarget, Hev, Hw. cbv beta iota.
  rewrite bind_outcome, bind_events, Hplan. auto.
Qed.

End PlanningFailure.

(** C4.  In build mode with planning enabled, a planning
    call that throws (or returns an empty plan, which the stage turns into a
    throw) is caught: the stage hands on the messages of the request
    unchanged, and the pipeline goes on with the generation.  Whenever the
    preparation of that generation returns, the builder is called, and the
    messages it receives are those [processToolInvocations] returned for the
    messages of the request. *)
Theorem planning_failure_degrades {W : Type} (C : Collaborators W)
    (chain : list FallbackEntry) (fuel : nat) (body : Body)
    (locals : GuardLocals) (userId : string) (lastMessage : Message)
    (cm cp : string) (w w1 w2 : W) (id : string) (planned : Outcome GenResult) :
  chatMode body = "build" ->
  kimiEnabled (useKimiPlanning body) = true ->
  lastUserMessage (messages body) = Some lastMessage ->
  generateId C w = (id, w1) ->
  generateText C
    (planningArgs id (extractPropertiesFromMessage C lastMessage)
       (promptId body)) w1 = (planned, w2) ->
  match planned with
  | Throws _ => True
  | Returns res => orDefault (reasoning res) (text res) = ""
  end ->
  let stage := planningStage C body cm cp w in
  let gen := generation C chain (S fuel) body locals userId cm cp
               (messages body) w2 in
  let prep := prepare C body (messages body) (mkCumulative 0 0 0) w2 in
  outcome stage = Done (messages body) /\ final stage = w2
  /\ (outcome (initialTarget chain body w) = Done (cm, cp) ->
      outcome (pipeline C chain (S fuel) body locals userId w) = outcome gen /\
      events (pipeline C chain (S fuel) body locals userId w)
      = events stage ++ events gen)
  /\ (forall p,
        outcome prep = Done p ->
        exists w3 out post,
          processToolInvocations C (messages body) w2
          = (Returns (processedMessages p), w3) /\
          gMessages (preparedArgs body (messages body) p cm cp)
          = processedMessages p /\
          events gen
          = events prep ++ EvLog LogGenerating :: EvLog (LogAttempting cm cp)
            :: EvGenerateText (preparedArgs body (messages body) p cm cp) out
            :: post).
Proof.
  intros Hmode Hen Hlast Hid Hplan Hfail. cbv zeta.
  destruct (planningStage_failed C body cm cp lastMessage w id w1 planned w2
              Hmode Hen Hlast Hid Hplan Hfail) as [Hout Hfinal].
  split; [exact Hout|]. split; [exact Hfinal|]. split.
  - intros Htarget. rewrite <- Hfinal.
    exact (pipeline_run C chain (S fuel) body locals userId cm cp
             (messages body) w Htarget Hout).
  - intros p Hp.
    destruct (prepare_inv C body (messages body) _ w2 p Hp)
      as (w3 & rest & Hcall & _).
    destruct (generation_calls_builder C chain fuel body locals userId cm cp
                (messages body) w2 p Hp) as (out & post & Hev).
    exists w3, out, post. split; [exact Hcall|]. split; [|exact Hev].
    unfold preparedArgs. now rewrite Nat.ltb_irrefl.
Qed.

(** A refused planning call on the plain build request. *)
Lemma planning_failure_degrades_witness :
  outcome (planningStage (collaborators planningDown) buildRequest
             "qwen/qwen3-coder" "OpenRouter" 0)
  = Done (messages buildRequest).
Proof.
  apply (planning_failure_degrades (collaborators planningDown) defaultChain 0
           buildRequest (mkLocals "free" None) "user_1"
           (userMessage "a todo app") "qwen/qwen3-coder" "OpenRouter" 0 0 0 "id"
           (Throws (errorOf "planner unavailable")));
    reflexivity || exact I.
Defined.

(** ** Usage accounting *)

(** The usage an answered request reports is what [prepare] has
    accumulated from the [onFinish] callbacks of the two helpers plus the
    usage of the builder result: [cumulativeUsage] is declared after the
    planning stage, and the usage of the planning result is only logged. *)
Lemma finish_usage {W : Type} (C : Collaborators W) locals userId p result
    (w : W) :
  exists files tools,
    outcome (finish C locals userId p result w)
    = Done (Generated 200 (text result)
              (addUsage (cumulativeUsage p) (usage result)) files (summary p)
              tools).
Proof.
  unfold finish. rewrite bind_log. cbn [prepend outcome].
  rewrite bind_outcome.
  destruct (truthyString (userSupabaseId locals)) as [supabaseId|].
  - rewrite tryCatch_outcome, bind_outcome. unfold await.
    destruct (incrementUsage C _ _ _ _ _) as [[[]|e] w']; cbn; eauto.
  - cbn. eauto.
Qed.

(** C1, on the code.  With a planning call that reports
    [{completion:10, prompt:5, total:15}] and a builder call that reports
    [{completion:20, prompt:8, total:28}], the answer carries
    [{completion:20, prompt:8, total:28}], and 28 is the count written to
    the usage counters: the 10 + 5 tokens of the planning call are not in
    the sum. *)
Theorem planning_usage_not_counted :
  let r := chatAction (collaborators happy) defaultChain 4 buildRequest 0 in
  In (EvGenerateText (planningArgs "id" "a todo app" None)
        (Returns (resultOf "a plan" (Some (usageOf 10 5 15))))) (events r) /\
  List.filter isBuilderCall (events r)
  = [ EvGenerateText
        (builderArgs buildRequest
           [mkMessage "id" "user"
              (formattedPrompt "qwen/qwen3-coder" "OpenRouter" "a plan")]
           None None 0 "qwen/qwen3-coder" "OpenRouter")
        (Returns (resultOf "<html/>" (Some (usageOf 20 8 28)))) ] /\
  outcome r
  = Done (Generated 200 "<html/>" (mkCumulative 20 8 28) [] None []) /\
  In (EvIncrementUsage "supa_1" "ai_generation" 28 0 (Returns tt)) (events r) /\
  mkCumulative 20 8 28 <> mkCumulative 30 13 43.
Proof.
  vm_compute. repeat split; try discriminate;
    repeat (first [now left | right]).
Qed.

Import TraceCount.
Local Open Scope list_scope.

(** ** Termination of the walk *)

Section Termination.
Context {W : Type} (C : Collaborators W) (chain : list FallbackEntry).
Variable mk : string -> string -> GenerateArgs.

(** The [for] loop always leaves with a pair: it neither throws nor runs
    out of rounds. *)
Lemma attemptLoop_done n a mr cm cp le w :
  exists result le',
    outcome (attemptLoop C chain mk n a mr cm cp le w) = Done (result, le').
Proof.
  pose proof (attemptLoop_shape C chain mk n a mr cm cp le w) as [_ H].
  cbv zeta in H.
  destruct (outcome (attemptLoop C chain mk n a mr cm cp le w))
    as [[result le']| |]; [eauto | contradiction..].
Qed.

(** From an entry of a chain of distinct models, the walk is over after as
    many rounds as there are entries from that one on. *)
Lemma walk_ends_within :
  NoDup (model <$> chain) ->
  forall rest before entry,
    chain = before ++ entry :: rest ->
    forall fuel cp le w,
      List.length rest < fuel ->
      outcome (fallbackLoop C chain mk fuel (model entry) cp le w) <> OutOfFuel.
Proof.
  intros Hnodup. induction rest as [|next rest IH];
    intros before entry Hchain fuel cp le w Hfuel;
    (destruct fuel as [|fuel]; [simpl in Hfuel; lia|]);
    destruct (distinct_entry chain before entry _ Hnodup Hchain)
      as (_ & Hnext & _);
    rewrite fallbackLoop_step; cbv zeta;
    destruct (attemptLoop_done (S (loopBound chain (model entry))) 0
                (loopBound chain (model entry)) (model entry) cp le w)
      as (result & le' & ->);
    destruct result as [res|]; try discriminate;
    rewrite Hnext; cbn [head outcome]; try discriminate.
  apply (IH (before ++ [entry]) next); [now rewrite <- app_assoc|].
  simpl in Hfuel. lia.
Qed.

End Termination.

(** On a chain of distinct models the [while (true)] loop ends, whatever
    the providers answer and wherever the walk starts: more rounds than the
    chain has entries are never needed. *)
Theorem walk_terminates {W : Type} (C : Collaborators W)
    (chain : list FallbackEntry) (mk : string -> string -> GenerateArgs)
    (fuel : nat) (cm cp : string) (lastError : option ErrorObj) (w : W) :
  NoDup (model <$> chain) ->
  List.length chain < fuel ->
  outcome (fallbackLoop C chain mk fuel cm cp lastError w) <> OutOfFuel.
Proof.
  intros Hnodup Hfuel. destruct (find chain cm) as [entry|] eqn:Hfind.
  - apply find_Some in Hfind as (before & rest & Hchain & <- & _).
    apply (walk_ends_within C chain mk Hnodup rest before entry Hchain).
    rewrite Hchain, length_app in Hfuel. simpl in Hfuel. lia.
  - destruct fuel as [|fuel]; [lia|].
    rewrite fallbackLoop_step. cbv zeta.
    destruct (attemptLoop_done C chain mk (S (loopBound chain cm)) 0
                (loopBound chain cm) cm cp lastError w)
      as (result & le' & ->).
    apply find_None, findIndex_None in Hfind.
    unfold getNextFallback. rewrite Hfind.
    destruct result; discriminate.
Qed.

Lemma walk_terminates_witness :
  outcome (fallbackLoop (collaborators failing) defaultChain
             (preparedArgs buildRequest (messages buildRequest) prepared) 5
             "gemini-2.5-flash" "OpenRouter" None 0) <> OutOfFuel.
Proof.
  apply walk_terminates.
  - apply (bool_decide_unpack _). vm_compute. exact I.
  - vm_compute. lia.
Defined.

Import Scripted2.

(** ** A walk that never ends *)

Section Divergence.
Context {W : Type} (C : Collaborators W) (chain : list FallbackEntry).
Variable mk : string -> string -> GenerateArgs.

Hypothesis always_throws :
  forall cm cp w, exists e w', generateText C (mk cm cp) w = (Throws e, w').

(** When every call throws, the [for] loop leaves without a result. *)
Lemma attemptLoop_no_result n a mr cm cp le w :
  exists le',
    outcome (attemptLoop C chain mk n a mr cm cp le w) = Done (None, le').
Proof.
  revert a le w. induction n as [|n IH]; intros a le w.
  - exists le. reflexivity.
  - destruct (always_throws cm cp w) as (e & w' & Hcall).
    rewrite (attemptLoop_throws C chain mk _ _ _ _ _ _ _ _ _ Hcall).
    destruct (retryCaught (engine C) chain e a cm && (a <? mr)%nat).
    + cbv zeta. cbn [outcome]. apply IH.
    + eauto.
Qed.

End Divergence.

(** When the models reachable from the current one always have a next
    fallback (which a repeated model name in the chain brings about) and
    every builder call throws, the [while (true)] loop never ends: no number
    of rounds is enough. *)
Theorem walk_never_ends {W : Type} (C : Collaborators W)
    (chain : list FallbackEntry) (mk : string -> string -> GenerateArgs)
    (reachable : string -> Prop) :
  (forall m, reachable m ->
     exists next, getNextFallback chain m = Some next /\ reachable (model next)) ->
  (forall cm cp w, exists e w', generateText C (mk cm cp) w = (Throws e, w')) ->
  forall fuel cm cp lastError w,
    reachable cm ->
    outcome (fallbackLoop C chain mk fuel cm cp lastError w) = OutOfFuel.
Proof.
  intros Hclosed Hthrows. induction fuel as [|fuel IH];
    intros cm cp lastError w Hcm; [reflexivity|].
  rewrite fallbackLoop_step. cbv zeta.
  destruct (attemptLoop_no_result C chain mk Hthrows (S (loopBound chain cm)) 0
              (loopBound chain cm) cm cp lastError w) as (le' & ->).
  destruct (Hclosed cm Hcm) as (next & -> & Hnext).
  cbn [outcome]. now apply IH.
Qed.

(** With [FALLBACK_MODEL_2] set to the primary model, the walk goes back
    and forth between the first two entries. *)
Lemma walk_never_ends_witness :
  outcome (fallbackLoop (collaborators failing) repeatingChain
             (preparedArgs buildRequest (messages buildRequest) prepared) 50
             "qwen/qwen3-coder" "OpenRouter" None 0) = OutOfFuel.
Proof.
  apply (walk_never_ends (collaborators failing) repeatingChain _
           (fun m => m = "qwen/qwen3-coder" \/ m = "gemini-2.5-flash")).
  - intros m [-> | ->]; eexists; (split; [vm_compute; reflexivity|]);
      vm_compute; auto.
  - intros cm cp w. eexists _, _. reflexivity.
  - now left.
Defined.

(** ** Waiting *)

Section Waiting.
Context {W : Type} (C : Collaborators W) (chain : list FallbackEntry).
Variable mk : string -> string -> GenerateArgs.

Lemma count_app p (a b : list Event) : count p (a ++ b) = count p a + count p b.
Proof. unfold count. now rewrite List.filter_app, length_app. Qed.

Lemma count_cons p ev (evs : list Event) :
  count p (ev :: evs) = (if p ev then 1 else 0) + count p evs.
Proof. unfold count. simpl. now destruct (p ev). Qed.

(** In one round the loop waits once less than it calls, and always for
    two seconds. *)
Lemma attemptLoop_waits n a mr cm cp le w :
  a <= mr -> mr < n + a ->
  let evs := events (attemptLoop C chain mk n a mr cm cp le w) in
  count isGenerateText evs = S (count isSleep evs) /\
  count isSleep evs = count isBackoff evs /\
  count isAttempting evs = 0.
Proof.
  revert a le w. induction n as [|n IH]; intros a le w Ha Hn; [lia|].
  cbv zeta.
  destruct (generateText C (mk cm cp) w) as [[res|e] w'] eqn:Hcall.
  - rewrite (attemptLoop_returns C chain mk _ _ _ _ _ _ _ _ _ Hcall).
    cbn [events]. auto.
  - rewrite (attemptLoop_throws C chain mk _ _ _ _ _ _ _ _ _ Hcall).
    destruct (retryCaught (engine C) chain e a cm) eqn:Hs; cbn [andb];
      [destruct (Nat.ltb_spec a mr) as [Hlt|Hge]|]; cbv zeta; cbn [events];
      try (cbn; auto; fail).
    destruct (IH (S a) (Some e) w') as (H1 & H2 & H3); [lia | lia |].
    rewrite !count_app, H1, H2, H3. cbn. auto.
Qed.

Lemma pacedTo_app prev (a b : list Event) :
  pacedTo prev (a ++ b) = pacedTo prev a ≫= fun last => pacedTo last b.
Proof.
  revert prev. induction a as [|ev a IH]; intros prev; [reflexivity|].
  cbn [app pacedTo]. destruct (mayFollow prev ev); [apply IH | reflexivity].
Qed.

(** In a paced trace every event may follow the one before it. *)
Lemma pacedTo_before prev evs last before b after :
  pacedTo prev evs = Some last ->
  evs = before ++ b :: after ->
  exists a,
    (before = [] /\ a = prev \/ exists before', before = before' ++ [a]) /\
    mayFollow a b = true.
Proof.
  revert prev evs. induction before as [|x before IH]; intros prev evs H ->.
  - cbn [app pacedTo] in H. exists prev. split; [now left|].
    now destruct (mayFollow prev b).
  - cbn [app pacedTo] in H. destruct (mayFollow prev x); [|discriminate].
    destruct (IH x _ H eq_refl) as (a & [[-> ->]|[before' ->]] & Hab).
    + exists x. split; [right; now exists [] | exact Hab].
    + exists a. split; [right; now exists (x :: before') | exact Hab].
Qed.

Lemma pacedTo_after prev evs last before a after :
  pacedTo prev evs = Some last ->
  evs = before ++ a :: after ->
  after = [] /\ last = a \/
  exists b after', after = b :: after' /\ mayFollow a b = true.
Proof.
  intros H ->. rewrite pacedTo_app in H.
  destruct (pacedTo prev before) as [x|]; [|discriminate].
  cbn [mbind option_bind pacedTo] in H.
  destruct (mayFollow x a); [|discriminate].
  destruct after as [|b after]; cbn [pacedTo] in H.
  - left. now injection H as <-.
  - right. exists b, after. split; [reflexivity|].
    now destruct (mayFollow a b).
Qed.

(** The attempts on one model: calls and waits in turn, closed by the
    line of the success or of the failure. *)
Lemma attemptLoop_paced n a mr cm cp le w prev :
  a <= mr -> mr < n + a ->
  (exists ms, prev = EvSleep ms) \/
  (exists m p, prev = EvLog (LogAttempting m p)) ->
  exists last,
    pacedTo prev (events (attemptLoop C chain mk n a mr cm cp le w))
    = Some last /\
    closes last = true /\
    exists res le',
      outcome (attemptLoop C chain mk n a mr cm cp le w) = Done (res, le').
Proof.
  revert a le w prev. induction n as [|n IH]; intros a le w prev Ha Hn Hprev;
    [lia|].
  assert (Hcall' : forall out,
             mayFollow prev (EvGenerateText (mk cm cp) out) = true)
    by (intros out; destruct Hprev as [[ms ->]|(m & p & ->)]; reflexivity).
  destruct (generateText C (mk cm cp) w) as [[res|e] w'] eqn:Hcall.
  - rewrite (attemptLoop_returns C chain mk _ _ _ _ _ _ _ _ _ Hcall).
    cbn [events pacedTo outcome]. rewrite Hcall'. cbn.
    repeat first [reflexivity | eexists | split].
  - rewrite (attemptLoop_throws C chain mk _ _ _ _ _ _ _ _ _ Hcall).
    destruct (retryCaught (engine C) chain e a cm) eqn:Hs; cbn [andb];
      [destruct (Nat.ltb_spec a mr) as [Hlt|Hge]|]; cbv zeta;
      cbn [events outcome app pacedTo]; rewrite Hcall';
      try (cbn; repeat first [reflexivity | eexists | split]; fail).
    cbn [mayFollow Nat.eqb]. apply IH; [lia | lia | left; eauto].
Qed.

(** The walk: rounds that open with their line and end settled. *)
Lemma fallbackLoop_paced fuel cm cp le w prev :
  settled prev = true ->
  exists last,
    pacedTo prev (events (fallbackLoop C chain mk fuel cm cp le w)) = Some last
    /\ settled last = true.
Proof.
  revert cm cp le w prev. induction fuel as [|fuel IH];
    intros cm cp le w prev Hprev; [now exists prev|].
  rewrite fallbackLoop_step. cbv zeta.
  destruct (attemptLoop_paced (S (loopBound chain cm)) 0 (loopBound chain cm)
              cm cp le w (EvLog (LogAttempting cm cp)))
    as (last & Hpaced & Hcloses & res & le' & Hout);
    [lia | lia | right; eauto |].
  assert (Hopen : mayFollow prev (EvLog (LogAttempting cm cp)) = true)
    by (destruct prev as [[]| | | | | | | | | |]; try discriminate;
        reflexivity).
  assert (Hnext : forall l,
             mayFollow last (EvLog l) = negb match l with
                                              | LogRetrying _ _ _ => true
                                              | _ => false
                                              end)
    by (intros l; destruct last as [[]| | | | | | | | | |]; try discriminate;
        now destruct l).
  assert (Hsettled : settled last = true)
    by (destruct last as [[]| | | | | | | | | |]; try discriminate;
        reflexivity).
  rewrite Hout. destruct res as [result|].
  - exists last. cbn [events pacedTo]. rewrite Hopen. now split.
  - destruct (getNextFallback chain cm) as [next|]; cbn [events pacedTo app];
      rewrite Hopen.
    + rewrite pacedTo_app, Hpaced. cbn [mbind option_bind pacedTo].
      rewrite Hnext. cbn [negb]. now apply IH.
    + rewrite pacedTo_app, Hpaced. cbn [mbind option_bind pacedTo].
      rewrite Hnext. cbn [negb]. now exists (EvLog LogExhausted).
Qed.

Lemma mayFollow_sleep a ms :
  mayFollow a (EvSleep ms) = true ->
  ms = 2000 /\ exists m n t, a = EvLog (LogRetrying m n t).
Proof.
  intros H. destruct a as [[]| | | | |? []| | | | |]; cbn [mayFollow] in H;
    try discriminate H.
  apply Nat.eqb_eq in H. eauto 6.
Qed.

Lemma mayFollow_retrying a m n t :
  mayFollow a (EvLog (LogRetrying m n t)) = true ->
  exists args e, a = EvGenerateText args (Throws e).
Proof.
  intros H. destruct a as [[]| | | | |args [res|e]| | | | |];
    cbn [mayFollow] in H; try discriminate H.
  eauto.
Qed.

Lemma mayFollow_call a args out :
  mayFollow a (EvGenerateText args out) = true ->
  (exists ms, a = EvSleep ms) \/ exists m p, a = EvLog (LogAttempting m p).
Proof.
  intros H. destruct a as [[]| | | | |? []| | | | |]; cbn [mayFollow] in H;
    try discriminate H; eauto.
Qed.

Lemma mayFollow_after_sleep ms b :
  mayFollow (EvSleep ms) b = true -> exists args out, b = EvGenerateText args out.
Proof.
  intros H. destruct b as [[]| | | | |? []| | | | |]; cbn [mayFollow] in H;
    try discriminate H; eauto.
Qed.

Lemma snoc_cons (before : list Event) a b after :
  (before ++ [a]) ++ b :: after = before ++ a :: b :: after.
Proof. now rewrite <- app_assoc. Qed.

End Waiting.

(** The counts of a walk: the calls of [generateText] are as many as the
    waits plus the rounds, and every wait is the 2000 ms wait. *)
Lemma walk_counts {W : Type} (C : Collaborators W)
    (chain : list FallbackEntry) (mk : string -> string -> GenerateArgs)
    (fuel : nat) (cm cp : string) (lastError : option ErrorObj) (w : W) :
  let evs := events (fallbackLoop C chain mk fuel cm cp lastError w) in
  count isGenerateText evs = count isSleep evs + count isAttempting evs /\
  count isSleep evs = count isBackoff evs.
Proof.
  revert cm cp lastError w. induction fuel as [|fuel IH];
    intros cm cp lastError w; cbv zeta; [split; reflexivity|].
  rewrite fallbackLoop_step. cbv zeta.
  destruct (attemptLoop_waits C chain mk (S (loopBound chain cm)) 0
              (loopBound chain cm) cm cp lastError w) as (H1 & H2 & H3);
    [lia | lia |]. cbv zeta in H1, H2, H3.
  destruct (attemptLoop C chain mk (S (loopBound chain cm)) 0
              (loopBound chain cm) cm cp lastError w)
    as [[[[res|] le']|e|] wa evs]; cbn [outcome final events] in *;
    repeat (rewrite count_app || rewrite count_cons);
    rewrite ?H1, ?H2, ?H3;
    cbn [isGenerateText isSleep isAttempting isBackoff];
    try (split; lia).
  destruct (getNextFallback chain cm) as [next|]; cbn [events].
  - specialize (IH (model next) (provider next) le' wa). cbv zeta in IH.
    destruct IH as [I1 I2].
    repeat (rewrite count_app || rewrite count_cons).
    rewrite H1, H2, H3, I1, I2.
    cbn [isGenerateText isSleep isAttempting isBackoff]. split; lia.
  - repeat (rewrite count_app || rewrite count_cons).
    rewrite H1, H2, H3. cbn. split; lia.
Qed.

(** The walk waits two seconds before every retry on the same model and at
    no other time.  Wherever a wait stands in the trace of the loop, it
    lasts 2000 ms, it comes directly after a call of [generateText] that
    threw and the line that announces the retry, and it is directly
    followed by the next call: the loop does not wait after the last
    attempt on a model, before it switches model or before it gives up.
    Every call of [generateText] comes directly after such a wait or after
    the line that opens the round of a model.  So the calls are as many as
    the waits plus the rounds. *)
Theorem waits_only_before_retries {W : Type} (C : Collaborators W)
    (chain : list FallbackEntry) (mk : string -> string -> GenerateArgs)
    (fuel : nat) (cm cp : string) (lastError : option ErrorObj) (w : W) :
  let evs := events (fallbackLoop C chain mk fuel cm cp lastError w) in
  (forall before ms after,
     evs = before ++ EvSleep ms :: after ->
     ms = 2000 /\
     (exists before' args e m attempt total,
        before
        = before' ++ [ EvGenerateText args (Throws e);
                       EvLog (LogRetrying m attempt total) ]) /\
     (exists args out after', after = EvGenerateText args out :: after'))
  /\
  (forall before args out after,
     evs = before ++ EvGenerateText args out :: after ->
     exists before',
       before = before' ++ [EvSleep 2000] \/
       exists m p, before = before' ++ [EvLog (LogAttempting m p)])
  /\
  count isGenerateText evs = count isSleep evs + count isAttempting evs
  /\
  count isSleep evs = count isBackoff evs.
Proof.
  cbv zeta.
  destruct (fallbackLoop_paced C chain mk fuel cm cp lastError w
              (EvLog LogGenerating) eq_refl) as (last & Hpaced & Hlast).
  assert (Hwait : forall before ms after,
             events (fallbackLoop C chain mk fuel cm cp lastError w)
             = before ++ EvSleep ms :: after ->
             ms = 2000 /\
             exists before' m attempt total,
               before = before' ++ [EvLog (LogRetrying m attempt total)]).
  { intros before ms after Hsplit.
    destruct (pacedTo_before _ _ _ _ _ _ Hpaced Hsplit) as (a & Ha & Hfollow).
    apply mayFollow_sleep in Hfollow as (-> & m & n & t & ->).
    split; [reflexivity|].
    destruct Ha as [[_ [=]]|[before' ->]]. eauto. }
  split; [|split; [|apply walk_counts]].
  - intros before ms after Hsplit.
    destruct (Hwait before ms after Hsplit)
      as (-> & before' & m & attempt & total & ->).
    split; [reflexivity|]. split.
    + rewrite snoc_cons in Hsplit.
      destruct (pacedTo_before _ _ _ _ _ _ Hpaced Hsplit) as (a & Ha & Hfollow).
      apply mayFollow_retrying in Hfollow as (args & e & ->).
      destruct Ha as [[_ [=]]|[before'' ->]].
      exists before'', args, e, m, attempt, total.
      now rewrite <- app_assoc.
    + destruct (pacedTo_after _ _ _ _ _ _ Hpaced Hsplit)
        as [[_ ->]|(b & after' & -> & Hfollow)]; [discriminate|].
      apply mayFollow_after_sleep in Hfollow as (args & out & ->). eauto.
  - intros before args out after Hsplit.
    destruct (pacedTo_before _ _ _ _ _ _ Hpaced Hsplit) as (a & Ha & Hfollow).
    apply mayFollow_call in Hfollow as [[ms ->]|(m & p & ->)];
      destruct Ha as [[_ [=]]|[before' ->]]; exists before'.
    + rewrite snoc_cons in Hsplit.
      destruct (Hwait _ _ _ Hsplit) as [-> _]. now left.
    + right. eauto.
Qed.

(** ** One write per request *)

Section Accounting.
Context {W : Type} (C : Collaborators W) (chain : list FallbackEntry).

Lemma writes_app (a b : list Event) : writes (a ++ b) = writes a ++ writes b.
Proof. apply List.filter_app. Qed.

Lemma noWrites_writes (evs : list Event) : noWrites evs -> writes evs = [].
Proof.
  induction 1 as [|ev evs Hev _ IH]; [reflexivity|].
  unfold writes in *. simpl. now rewrite Hev.
Qed.

Lemma Accounted_silent (m : M W Response) : Silent m -> Accounted m.
Proof. intros H w. left. apply noWrites_writes, H. Qed.

Lemma Accounted_bind {A} (m : M W A) (k : A -> M W Response) :
  Silent m -> (forall a, Accounted (k a)) -> Accounted (bind m k).
Proof.
  intros Hm Hk w. rewrite bind_events, bind_outcome, writes_app.
  rewrite (noWrites_writes _ (Hm w)). cbn [app].
  destruct (outcome (m w)) as [a| |]; [apply Hk | now left..].
Qed.

Lemma Accounted_tryCatch (m : M W Response) (h : ErrorObj -> M W Response) :
  Accounted m -> (forall e, Silent (h e)) -> Accounted (tryCatch m h).
Proof.
  intros Hm Hh w. rewrite tryCatch_events, tryCatch_outcome, writes_app.
  destruct (Hm w) as [Hn | (id & r & c & u & f & s & t & Hw & Ho)].
  - rewrite Hn. cbn [app]. left.
    destruct (outcome (m w)); [reflexivity | apply noWrites_writes, Hh | reflexivity].
  - rewrite Ho, Hw. right. exists id, r, c, u, f, s, t. auto.
Qed.

Lemma Accounted_finish locals userId p result :
  Accounted (finish C locals userId p result).
Proof.
  intros w. unfold finish. rewrite bind_log. cbn [prepend outcome events].
  destruct (truthyString (userSupabaseId locals)) as [supabaseId|].
  - rewrite bind_eq, tryCatch_eq.
    destruct (incrementUsage C supabaseId "ai_generation"
                (cumTotalTokens (addUsage (cumulativeUsage p) (usage result)))
                0 w) as [[[]|e] w'] eqn:Hinc.
    + rewrite (bind_await_returns _ _ _ _ _ _ Hinc). right.
      eexists _, _, _, _, _, _, _. split; reflexivity.
    + rewrite (bind_await_throws _ _ _ _ _ _ Hinc). right.
      eexists _, _, _, _, _, _, _. split; reflexivity.
  - left. reflexivity.
Qed.

End Accounting.

(** A request writes to the usage counters at most once, and what it
    writes is the total it reports: in every run of [chatAction] either
    [db.incrementUsage] is not called, or it is called exactly once, for
    ['ai_generation'], with the [totalTokens] of the usage object the 200
    answer carries. *)
Theorem usage_written_once {W : Type} (C : Collaborators W)
    (chain : list FallbackEntry) (fuel : nat) (body : Body) (w : W) :
  let r := chatAction C chain fuel body w in
  writes (events r) = [] \/
  exists id res content u files summ tools,
    writes (events r)
    = [EvIncrementUsage id "ai_generation" (cumTotalTokens u) 0 res] /\
    outcome r = Done (Generated 200 content u files summ tools).
Proof.
  revert w. change (Accounted (chatAction C chain fuel body)).
  unfold chatAction.
  apply Accounted_bind; [silent | intros userId].
  apply Accounted_bind; [silent | intros _].
  apply Accounted_bind; [apply Silent_usageGuard | intros [locals [response|]]].
  - apply Accounted_silent. silent.
  - unfold pipeline.
    apply Accounted_bind; [apply Silent_initialTarget | intros [cm cp]].
    apply Accounted_bind; [apply Silent_planningStage | intros msgs].
    unfold generation.
    apply Accounted_tryCatch; [|apply Silent_errorResponse].
    apply Accounted_bind; [apply Silent_prepare | intros p].
    apply Accounted_bind; [apply Silent_log | intros _].
    apply Accounted_bind; [apply Silent_fallbackLoop | intros result].
    apply Accounted_finish.
Qed.

(** ** When the route rejects *)

Section Rejection.
Context {W : Type} (C : Collaborators W) (chain : list FallbackEntry).

Lemma Fuelless_ret {A} (a : A) : Fuelless (W:=W) (ret a).
Proof. intros w. discriminate. Qed.

Lemma Fuelless_throw {A} e : Fuelless (W:=W) (A:=A) (throw e).
Proof. intros w. discriminate. Qed.

Lemma Fuelless_log l : Fuelless (W:=W) (log l).
Proof. intros w. discriminate. Qed.

Lemma Fuelless_await {A} (f : W -> Outcome A * W) ev : Fuelless (await f ev).
Proof. intros w. unfold await. destruct (f w) as [[a|e] w']; discriminate. Qed.

Lemma Fuelless_newId : Fuelless (newId C).
Proof. intros w. unfold newId. destruct (generateId C w). discriminate. Qed.

Lemma Fuelless_bind {A B} (m : M W A) (k : A -> M W B) :
  Fuelless m -> (forall a, Fuelless (k a)) -> Fuelless (bind m k).
Proof.
  intros Hm Hk w. rewrite bind_outcome. specialize (Hm w).
  destruct (outcome (m w)); [apply Hk | discriminate | contradiction].
Qed.

Lemma Fuelless_tryCatch {A} (m : M W A) (h : ErrorObj -> M W A) :
  Fuelless m -> (forall e, Fuelless (h e)) -> Fuelless (tryCatch m h).
Proof.
  intros Hm Hh w. rewrite tryCatch_outcome. specialize (Hm w).
  destruct (outcome (m w)); [discriminate | apply Hh | contradiction].
Qed.

(** A [try] whose handler always returns does so itself. *)
Lemma tryCatch_returns {A} (m : M W A) (h : ErrorObj -> M W A) w :
  Fuelless m -> (forall e w', exists a, outcome (h e w') = Done a) ->
  exists a, outcome (tryCatch m h w) = Done a.
Proof.
  intros Hm Hh. rewrite tryCatch_outcome. specialize (Hm w).
  destruct (outcome (m w)); [eauto | apply Hh | contradiction].
Qed.

(** The planning stage always hands a message list on. *)
Lemma planningStage_returns body cm cp w :
  exists msgs, outcome (planningStage C body cm cp w) = Done msgs.
Proof.
  unfold planningStage. cbv zeta. rewrite bind_log. cbn [prepend outcome].
  destruct (lastUserMessage (messages body)) as [lastMessage|]; [|eexists; reflexivity].
  destruct (String.eqb (chatMode body) "build" && kimiEnabled (useKimiPlanning body));
    [|eexists; reflexivity].
  rewrite bind_log. cbn [prepend outcome].
  apply tryCatch_returns.
  - repeat first
      [ apply Fuelless_ret | apply Fuelless_throw | apply Fuelless_log
      | apply Fuelless_await | apply Fuelless_newId
      | apply Fuelless_bind; [|intros ?]
      | progress cbv beta zeta
      | match goal with |- Fuelless (if ?c then _ else _) => destruct c end ].
  - intros e w'. rewrite bind_log. eexists. reflexivity.
Qed.

(** The answer of the outer [catch]. *)
Lemma errorResponse_outcome e (w : W) :
  outcome (errorResponse e w)
  = if mentionsApiKey e then
      Done (Failed 401 "Invalid or missing API key" 401 false
              (orDefault (errProvider e) "unknown"))
    else if negb (validStatus (statusOf e)) then
      Thrown (newError "RangeError")
    else if nullBodyStatus (statusOf e) then
      Thrown (newError "TypeError")
    else
      Done (Failed (statusOf e)
              (let m := orDefault (message e) "An unexpected error occurred" in
               if includes m "did not match" || includes m "pattern"
               then "AI returned invalid format. Please try again or simplify your request."
               else m)
              (statusOf e)
              (match isRetryable e with Some false => false | _ => true end)
              (orDefault (errProvider e) "unknown")).
Proof.
  unfold errorResponse, mentionsApiKey, validStatus, statusOf.
  rewrite bind_log. cbn [prepend outcome]. rewrite bind_outcome.
  assert (Hlog : forall b : bool,
             outcome ((if b then log LogValidationError else ret tt) w)
             = Done tt) by (intros []; reflexivity).
  rewrite Hlog.
  destruct (match message e with Some m => includes m "API key" | None => false end);
    [reflexivity|].
  destruct (negb _); [reflexivity|].
  destruct (nullBodyStatus _); reflexivity.
Qed.


End Rejection.



(** ** What the builder is sent *)

Section NeverFacts.
Context {W : Type} (C : Collaborators W) (p : Event -> bool).

Lemma Never_ret {A} (a : A) : Never (W:=W) p (ret a).
Proof. intros w. constructor. Qed.

Lemma Never_throw {A} e : Never (W:=W) (A:=A) p (throw e).
Proof. intros w. constructor. Qed.

Lemma Never_emit ev : p ev = false -> Never (W:=W) p (emit ev).
Proof. intros H w. repeat constructor. exact H. Qed.

Lemma Never_log l : p (EvLog l) = false -> Never (W:=W) p (log l).
Proof. apply Never_emit. Qed.

Lemma Never_await {A} (f : W -> Outcome A * W) (ev : Outcome A -> Event) :
  (forall r, p (ev r) = false) -> Never p (await f ev).
Proof.
  intros H w. unfold await. destruct (f w) as [[a|e] w'];
    repeat constructor; apply H.
Qed.

Lemma Never_newId : (forall id, p (EvGenerateId id) = false) -> Never p (newId C).
Proof.
  intros H w. unfold newId. destruct (generateId C w). repeat constructor.
  apply H.
Qed.

Lemma Never_bind {A B} (m : M W A) (k : A -> M W B) :
  Never p m -> (forall a, Never p (k a)) -> Never p (bind m k).
Proof.
  intros Hm Hk w. rewrite bind_events. apply Forall_app.
  split; [apply Hm|]. destruct (outcome (m w)); [apply Hk | constructor..].
Qed.

Lemma Never_tryCatch {A} (m : M W A) (h : ErrorObj -> M W A) :
  Never p m -> (forall e, Never p (h e)) -> Never p (tryCatch m h).
Proof.
  intros Hm Hh w. rewrite tryCatch_events. apply Forall_app.
  split; [apply Hm|]. destruct (outcome (m w)); [constructor | apply Hh | constructor].
Qed.

Lemma Never_logFinishes line rs :
  (forall l, p (EvLog l) = false) -> Never (W:=W) p (logFinishes line rs).
Proof.
  intros H. induction rs as [|r rs IH]; cbn [logFinishes].
  - apply Never_ret.
  - destruct (respUsage r); [|exact IH].
    apply Never_bind; [apply Never_log, H | intros _; exact IH].
Qed.

End NeverFacts.

Ltac never :=
  repeat first
    [ apply Never_ret | apply Never_throw
    | apply Never_log; reflexivity
    | apply Never_emit; reflexivity
    | apply Never_await; intros ?; reflexivity
    | apply Never_newId; intros ?; reflexivity
    | apply Never_logFinishes; intros ?; reflexivity
    | apply Never_bind; [|intros ?]
    | apply Never_tryCatch; [|intros ?]
    | progress cbv beta zeta
    | match goal with
      | |- Never _ (match ?x with _ => _ end) => destruct x
      end ].

Section BuilderMessages.
Context {W : Type} (C : Collaborators W) (chain : list FallbackEntry).

Lemma Never_prepare body msgs cu : Never isGenerateText (prepare C body msgs cu).
Proof. unfold prepare. never. Qed.

Lemma Never_finish locals userId p' result :
  Never isGenerateText (finish C locals userId p' result).
Proof. unfold finish. never. Qed.

Lemma Never_errorResponse e : Never (W:=W) isGenerateText (errorResponse e).
Proof. unfold errorResponse. never. Qed.

Lemma Post_tryCatch {A} (m : M W A) (h : ErrorObj -> M W A) (P : A -> Prop) :
  Post m P -> (forall e, Post (h e) P) -> Post (tryCatch m h) P.
Proof.
  intros Hm Hh w a. rewrite tryCatch_outcome.
  destruct (outcome (m w)) as [a'|e|] eqn:Ho; [|apply Hh | discriminate].
  intros [= <-]. exact (Hm w a' Ho).
Qed.

Lemma lastUserMessage_length msgs m :
  lastUserMessage msgs = Some m -> 0 < List.length msgs.
Proof.
  destruct msgs as [|m0 rest]; [discriminate | simpl; lia].
Qed.

(** Planning replaces the last message; it never adds one. *)
Lemma planningStage_length body cm cp :
  Post (planningStage C body cm cp)
    (fun msgs => List.length msgs = List.length (messages body)).
Proof.
  unfold planningStage. cbv zeta. apply Post_bind. intros _.
  destruct (lastUserMessage (messages body)) as [lastMessage|] eqn:Hlast;
    [|now apply Post_ret].
  destruct (String.eqb (chatMode body) "build" && kimiEnabled (useKimiPlanning body));
    [|now apply Post_ret].
  apply Post_bind. intros _. apply Post_tryCatch.
  - repeat (apply Post_bind; intros ?).
    destruct (negb _ || _).
    + apply Post_bind. intros _. apply Post_throw.
    + repeat (apply Post_bind; intros ?). apply Post_ret.
      apply lastUserMessage_length in Hlast.
      rewrite length_app. unfold dropLast. rewrite length_take. simpl. lia.
  - intros e. apply Post_bind. intros _. now apply Post_ret.
Qed.

Lemma callsIn_app P a b : callsIn P a -> callsIn P b -> callsIn P (a ++ b).
Proof. intros Ha Hb. apply Forall_app. now split. Qed.

Lemma callsIn_never (P : GenerateArgs -> Prop) evs :
  Forall (fun ev => isGenerateText ev = false) evs -> callsIn P evs.
Proof.
  intros H. eapply Forall_impl; [exact H|]. now intros [].
Qed.

(** Every call of the loop carries an argument made by [mk]. *)
Lemma attemptLoop_callsIn mk n a mr cm cp le w :
  callsIn (fun args => exists cm' cp', args = mk cm' cp')
    (events (attemptLoop C chain mk n a mr cm cp le w)).
Proof.
  revert a le w. induction n as [|n IH]; intros a le w; [constructor|].
  destruct (generateText C (mk cm cp) w) as [[res|e] w'] eqn:Hcall.
  - rewrite (attemptLoop_returns C chain mk n a mr cm cp le w res w' Hcall).
    repeat constructor. eauto.
  - rewrite (attemptLoop_throws C chain mk n a mr cm cp le w e w' Hcall).
    destruct (retryCaught (engine C) chain e a cm && (a <? mr)%nat); cbn [events].
    + constructor; [eauto|]. constructor; [exact I|]. constructor; [exact I|].
      apply IH.
    + repeat constructor. eauto.
Qed.

Lemma fallbackLoop_callsIn mk fuel cm cp le w :
  callsIn (fun args => exists cm' cp', args = mk cm' cp')
    (events (fallbackLoop C chain mk fuel cm cp le w)).
Proof.
  revert cm cp le w. induction fuel as [|fuel IH]; intros cm cp le w;
    [constructor|].
  rewrite fallbackLoop_step. cbv zeta.
  pose proof (attemptLoop_callsIn mk (S (loopBound chain cm)) 0
                (loopBound chain cm) cm cp le w) as Ha.
  destruct (outcome (attemptLoop C chain mk _ 0 _ cm cp le w))
    as [[[res|] le']| |]; cbn [events]; try (constructor; [exact I | exact Ha]).
  destruct (getNextFallback chain cm) as [next|]; cbn [events].
  - constructor; [exact I|]. apply callsIn_app; [exact Ha|].
    constructor; [exact I|]. apply IH.
  - constructor; [exact I|]. apply callsIn_app; [exact Ha|].
    repeat constructor.
Qed.

Lemma generation_callsIn fuel body locals userId cm cp msgs w :
  List.length msgs = List.length (messages body) ->
  callsIn (fun args =>
             exists w', processToolInvocations C msgs w
                        = (Returns (gMessages args), w'))
    (events (generation C chain fuel body locals userId cm cp msgs w)).
Proof.
  intros Hlen. unfold generation. rewrite tryCatch_events.
  apply callsIn_app.
  - rewrite bind_events. apply callsIn_app.
    { apply callsIn_never, Never_prepare. }
    destruct (outcome (prepare C body msgs (mkCumulative 0 0 0) w)) as [p'| |]
      eqn:Hprep; [|constructor..].
    destruct (prepare_inv C body msgs _ w p' Hprep) as (w1 & rest & Hproc & _).
    cbv beta. rewrite bind_log. cbn [prepend events]. constructor; [exact I|].
    rewrite bind_events. apply callsIn_app.
    + eapply Forall_impl; [apply fallbackLoop_callsIn|].
      intros [] Hev; try exact I. destruct Hev as (cm' & cp' & ->).
      exists w1. unfold preparedArgs. rewrite Hlen, Nat.ltb_irrefl. exact Hproc.
    + destruct (outcome (fallbackLoop C chain _ fuel cm cp None _));
        [|constructor..].
      apply callsIn_never, Never_finish.
  - destruct (outcome _) as [|e|]; [constructor | | constructor].
    apply callsIn_never, Never_errorResponse.
Qed.

End BuilderMessages.

(** The builder is never sent [enhancedMessages] themselves: whatever the
    planning stage returns has as many messages as the request, so the test
    [enhancedMessages.length > messages.length] fails, and every call of
    [generateText] after the planning stage carries the list that
    [processToolInvocations] returned. *)
Theorem builder_is_sent_processed_messages {W : Type} (C : Collaborators W)
    (chain : list FallbackEntry) (fuel : nat) (body : Body)
    (locals : GuardLocals) (userId cm cp : string) (w0 w : W)
    (msgs : list Message) (args : GenerateArgs) (r : Outcome GenResult) :
  outcome (planningStage C body cm cp w0) = Done msgs ->
  In (EvGenerateText args r)
    (events (generation C chain fuel body locals userId cm cp msgs w)) ->
  exists w', processToolInvocations C msgs w = (Returns (gMessages args), w').
Proof.
  intros Hplan Hin.
  pose proof (planningStage_length C body cm cp w0 msgs Hplan) as Hlen.
  pose proof (generation_callsIn C chain fuel body locals userId cm cp msgs w
                Hlen) as Hcalls.
  unfold callsIn in Hcalls. rewrite List.Forall_forall in Hcalls.
  exact (Hcalls _ Hin).
Qed.

Lemma builder_is_sent_processed_messages_witness :
  let C := collaborators happy in
  let plan := formattedPrompt "gemini-2.5-flash" "Google" "a plan" in
  let msgs := [mkMessage "id" "user" plan] in
  exists w', processToolInvocations C msgs 0 = (Returns msgs, w').
Proof.
  cbv zeta.
  refine (builder_is_sent_processed_messages (collaborators happy) defaultChain 4
            buildRequest (mkLocals "free" (Some "supa_1")) "user_1"
            "gemini-2.5-flash" "Google" 0 0 _
            (builderArgs buildRequest _ None None 0 "gemini-2.5-flash" "Google")
            (Returns (resultOf "<html/>" (Some (usageOf 20 8 28)))) _ _).
  - vm_compute. reflexivity.
  - vm_compute. do 5 right. left. reflexivity.
Defined.

(** ** The cost of a request *)

Local Open Scope list_scope.

Section Budget.
Context {W : Type} (C : Collaborators W) (chain : list FallbackEntry).
Variable mk : string -> string -> GenerateArgs.

Lemma shouldRetry_grants e a cm :
  retryCaught (engine C) chain e a cm = true -> a < retriesOf chain cm.
Proof.
  unfold retryCaught, shouldRetry, retriesOf.
  destruct (find chain cm); [|discriminate]. rewrite errorMessage_caught.
  intros [_ H]%andb_prop. now apply Nat.ltb_lt.
Qed.

(** The [for] loop calls a model once and then once more for every retry
    the registry grants. *)
Lemma attemptLoop_budget n a mr cm cp le w :
  count isGenerateText (events (attemptLoop C chain mk n a mr cm cp le w))
  <= S (retriesOf chain cm - a).
Proof.
  revert a le w. induction n as [|n IH]; intros a le w; [cbn; lia|].
  destruct (generateText C (mk cm cp) w) as [[res|e] w'] eqn:Hcall.
  - rewrite (attemptLoop_returns C chain mk n a mr cm cp le w res w' Hcall).
    cbn. lia.
  - rewrite (attemptLoop_throws C chain mk n a mr cm cp le w e w' Hcall).
    destruct (retryCaught (engine C) chain e a cm) eqn:Hretry; cbn [andb];
      [destruct (a <? mr)%nat|]; cbn [events]; try (cbn; lia).
    apply shouldRetry_grants in Hretry.
    rewrite count_app. specialize (IH (S a) (Some e) w').
    change (count isGenerateText
              [EvGenerateText (mk cm cp) (Throws e);
               EvLog (LogRetrying cm (a + 1) (mr + 1)); EvSleep 2000]) with 1.
    lia.
Qed.

Lemma count_nil (p : Event -> bool) : count p [] = 0.
Proof. reflexivity. Qed.

Lemma fullWalk_length_cons f rest :
  List.length (fullWalk (f :: rest))
  = S (maxRetries f) + List.length (fullWalk rest).
Proof. now rewrite fullWalk_cons, length_app, length_replicate. Qed.

Lemma fullWalk_length_app before rest :
  List.length (fullWalk rest) <= List.length (fullWalk (before ++ rest)).
Proof.
  induction before as [|f before IH]; [reflexivity|].
  cbn [app]. rewrite fullWalk_length_cons. lia.
Qed.

(** From an entry of a chain of distinct models on, the walk costs at most
    the calls of a full walk of the entries left. *)
Lemma walk_budget :
  NoDup (model <$> chain) ->
  forall rest before entry,
    chain = before ++ entry :: rest ->
    forall fuel cp le w,
      count isGenerateText
        (events (fallbackLoop C chain mk fuel (model entry) cp le w))
      <= List.length (fullWalk (entry :: rest)).
Proof.
  intros Hnodup. induction rest as [|next rest IH];
    intros before entry Hchain fuel cp le w;
    (destruct fuel as [|fuel]; [cbn; lia|]);
    destruct (distinct_entry chain before entry _ Hnodup Hchain)
      as (Hfind & Hnext & _);
    rewrite fallbackLoop_step; cbv zeta;
    pose proof (attemptLoop_budget (S (loopBound chain (model entry))) 0
                  (loopBound chain (model entry)) (model entry) cp le w) as Ha;
    unfold retriesOf in Ha; rewrite Hfind, Nat.sub_0_r in Ha;
    rewrite fullWalk_length_cons;
    destruct (outcome (attemptLoop C chain mk _ 0 _ (model entry) cp le w))
      as [[[res|] le']| |]; cbn [events];
    rewrite ?Hnext; cbn [head events];
    repeat (rewrite count_app || rewrite count_cons); cbn [isGenerateText];
    rewrite ?count_nil; try lia.
  specialize (IH (before ++ [entry]) next
                ltac:(now rewrite <- app_assoc) fuel (provider next) le'
                (final (attemptLoop C chain mk (S (loopBound chain (model entry)))
                          0 (loopBound chain (model entry)) (model entry) cp le w))).
  lia.
Qed.

(** A model the chain does not list is called once. *)
Lemma unlisted_budget fuel cm cp le w :
  find chain cm = None ->
  count isGenerateText (events (fallbackLoop C chain mk fuel cm cp le w)) <= 1.
Proof.
  intros Hfind. destruct fuel as [|fuel]; [cbn; lia|].
  rewrite fallbackLoop_step. cbv zeta.
  pose proof (attemptLoop_budget (S (loopBound chain cm)) 0
                (loopBound chain cm) cm cp le w) as Ha.
  unfold retriesOf in Ha. rewrite Hfind in Ha.
  assert (Hnext : getNextFallback chain cm = None).
  { unfold getNextFallback.
    now rewrite (proj2 (findIndex_None chain cm) (proj1 (find_None chain cm) Hfind)). }
  destruct (outcome (attemptLoop C chain mk _ 0 _ cm cp le w))
    as [[[res|] le']| |]; cbn [events]; rewrite ?Hnext; cbn [events];
    repeat (rewrite count_app || rewrite count_cons); cbn [isGenerateText];
    rewrite ?count_nil; lia.
Qed.

End Budget.

(** A request costs a bounded number of builder calls, wherever the walk
    starts and whatever the providers answer: on a chain of distinct models
    the loop calls [generateText] once for a model the chain does not list,
    and for a listed model at most as often as a full walk of the entries
    from that model's on does ([maxRetries + 1] times for each of them);
    so never more often than a full walk of the chain, or once. *)
Theorem builder_calls_bounded {W : Type} (C : Collaborators W)
    (chain : list FallbackEntry) (mk : string -> string -> GenerateArgs)
    (fuel : nat) (cm cp : string) (lastError : option ErrorObj) (w : W) :
  NoDup (model <$> chain) ->
  let made :=
    count isGenerateText
      (events (fallbackLoop C chain mk fuel cm cp lastError w)) in
  (no_match chain cm -> made <= 1)
  /\
  (forall before entry after,
     chain = before ++ entry :: after -> model entry = cm ->
     made
     <= list_sum ((fun f => S (maxRetries f)) <$> (entry :: after)))
  /\
  made <= Nat.max 1 (list_sum ((fun f => S (maxRetries f)) <$> chain)).
Proof.
  intros Hnodup. cbv zeta.
  assert (Hlen : forall l,
             List.length (fullWalk l)
             = list_sum ((fun f => S (maxRetries f)) <$> l)).
  { induction l as [|f l IH]; [reflexivity|].
    rewrite fullWalk_length_cons, IH. reflexivity. }
  split; [|split].
  - intros Hno. apply unlisted_budget. now apply find_None.
  - intros before entry after Hchain <-. rewrite <- Hlen.
    apply (walk_budget C chain mk Hnodup after before entry Hchain).
  - rewrite <- Hlen. destruct (find chain cm) as [entry|] eqn:Hfind.
    + apply find_Some in Hfind as (before & after & Hchain & <- & _).
      pose proof (walk_budget C chain mk Hnodup after before entry Hchain fuel
                    cp lastError w) as Hwalk.
      pose proof (fullWalk_length_app before (entry :: after)) as Hlen'.
      rewrite <- Hchain in Hlen'. lia.
    + pose proof (unlisted_budget C chain mk fuel cm cp lastError w Hfind).
      lia.
Qed.

(** The default chain allows 3 + 3 + 2 + 2 calls from its first entry on,
    and 2 + 2 from its third. *)
Lemma builder_calls_bounded_witness :
  count isGenerateText
    (events (fallbackLoop (collaborators failing) defaultChain
               (preparedArgs buildRequest (messages buildRequest) prepared) 9
               "x-ai/grok-4-fast" "OpenRouter" None 0))
  <= 4 /\
  count isGenerateText
    (events (fallbackLoop (collaborators failing) defaultChain
               (preparedArgs buildRequest (messages buildRequest) prepared) 9
               "x-ai/grok-4-fast" "OpenRouter" None 0))
  <= Nat.max 1 10.
Proof.
  destruct (builder_calls_bounded (collaborators failing) defaultChain
              (preparedArgs buildRequest (messages buildRequest) prepared) 9
              "x-ai/grok-4-fast" "OpenRouter" None 0) as (_ & Hfrom & Hall).
  - apply (bool_decide_unpack _). vm_compute. exact I.
  - split; [|exact Hall].
    apply (Hfrom [ mkEntry "qwen/qwen3-coder" "OpenRouter" 2;
                   mkEntry "gemini-2.5-flash" "OpenRouter" 2 ]
             (mkEntry "x-ai/grok-4-fast" "OpenRouter" 1)
             [ mkEntry "qwen/qwen3-coder-480b-a35b-instruct" "Novita" 1 ]);
      reflexivity.
Defined.

Section NotTransient.
Context {W : Type} (C : Collaborators W) (chain : list FallbackEntry).
Variable mk : string -> string -> GenerateArgs.

Hypothesis mk_target :
  forall cm cp, forceModel (mk cm cp) = cm /\ forceProvider (mk cm cp) = cp.

(** Every builder call throws an error without a marker. *)
Hypothesis never_transient :
  forall cm cp w, exists e w',
      generateText C (mk cm cp) w = (Throws e, w') /\
      ~ retryableError (engine C) e.

Lemma attempt_fails_once n a mr cm cp le w :
  exists e w',
    generateText C (mk cm cp) w = (Throws e, w') /\
    attemptLoop C chain mk (S n) a mr cm cp le w
    = mkRun (Done (None, Some e)) w'
        [EvGenerateText (mk cm cp) (Throws e);
         EvLog (LogModelFailed cm (a + 1))].
Proof.
  destruct (never_transient cm cp w) as (e & w' & Hcall & Hmsg).
  exists e, w'. split; [exact Hcall|].
  rewrite (attemptLoop_throws C chain mk n a mr cm cp le w e w' Hcall).
  unfold retryCaught. now rewrite (shouldRetry_lasting _ chain e a cm Hmsg).
Qed.

Lemma walk_fails_once :
  NoDup (model <$> chain) ->
  forall rest before entry,
    chain = before ++ entry :: rest ->
    forall fuel cp le w acc,
      List.length rest < fuel ->
      let r := fallbackLoop C chain mk fuel (model entry) cp le w in
      exists e,
        outcome r = Thrown e /\
        calls (events r) = (model entry, cp) :: singleWalk rest /\
        lastCallError (events r) acc = Some e /\
        count isSleep (events r) = 0.
Proof.
  intros Hnodup. induction rest as [|next rest IH];
    intros before entry Hchain fuel cp le w acc Hfuel;
    (destruct fuel as [|fuel]; [simpl in Hfuel; lia|]);
    destruct (distinct_entry chain before entry _ Hnodup Hchain)
      as (_ & Hnext & _);
    cbv zeta; rewrite fallbackLoop_step; cbv zeta;
    destruct (attempt_fails_once (loopBound chain (model entry)) 0
                (loopBound chain (model entry)) (model entry) cp le w)
      as (e & w' & Hcall & ->);
    cbn [outcome events final]; rewrite Hnext; cbn [head].
  - exists e. cbn [outcome events default].
    destruct (mk_target (model entry) cp) as [Hm Hp].
    split; [reflexivity|]. split; [|split; reflexivity].
    cbn. now rewrite Hm, Hp.
  - destruct (IH (before ++ [entry]) next ltac:(now rewrite <- app_assoc)
                fuel (provider next) (Some e) w' (Some e)
                ltac:(simpl in Hfuel; lia)) as (e' & Ho & Hc & Hl & Hs).
    cbv zeta in Ho, Hc, Hl, Hs. exists e'. cbn [outcome events].
    destruct (mk_target (model entry) cp) as [Hm Hp].
    split; [exact Ho|]. split; [|split].
    + cbn [calls app]. rewrite Hm, Hp, Hc. reflexivity.
    + cbn [lastCallError app]. exact Hl.
    + cbn [app]. rewrite !count_cons, Hs. reflexivity.
Qed.

End NotTransient.

(** An error that is not transient costs one call per model: on a chain of
    distinct models entered at entry 0, when every builder call throws an
    error whose message has none of the markers, the loop calls each entry
    once, in chain order, without waiting, and then throws the error of the
    last call. *)
Theorem lasting_errors_cost_one_call_each {W : Type} (C : Collaborators W)
    (chain : list FallbackEntry) (body : Body) (enhancedMessages : list Message)
    (p : Prepared) (first : FallbackEntry) (rest : list FallbackEntry) :
  chain = first :: rest ->
  NoDup (model <$> chain) ->
  (forall cm cp w, exists e w',
      generateText C (preparedArgs body enhancedMessages p cm cp) w
      = (Throws e, w') /\ ~ retryableError (engine C) e) ->
  forall fuel lastError w,
    List.length chain <= fuel ->
    let r := fallbackLoop C chain (preparedArgs body enhancedMessages p) fuel
               (model first) (provider first) lastError w in
    exists e,
      outcome r = Thrown e /\
      lastCallError (events r) None = Some e /\
      calls (events r) = singleWalk chain /\
      count isSleep (events r) = 0.
Proof.
  intros Hchain Hnodup Hfail fuel lastError w Hfuel.
  destruct (walk_fails_once C chain (preparedArgs body enhancedMessages p)
              ltac:(intros; split; reflexivity) Hfail Hnodup rest [] first
              Hchain fuel (provider first) lastError w None
              ltac:(rewrite Hchain in Hfuel; simpl in Hfuel; lia))
    as (e & Ho & Hc & Hl & Hs).
  exists e. cbv zeta. rewrite Ho, Hl, Hc, Hs, Hchain. repeat split.
Qed.

(** The default chain, answered with a refusal only: four calls, no wait,
    and the refusal at the end. *)
Lemma lasting_errors_cost_one_call_each_witness :
  let r := fallbackLoop (collaborators refusing) defaultChain
             (preparedArgs buildRequest (messages buildRequest) prepared) 4
             "qwen/qwen3-coder" "OpenRouter" None 0 in
  exists e,
    outcome r = Thrown e /\
    lastCallError (events r) None = Some e /\
    calls (events r) = singleWalk defaultChain /\
    count isSleep (events r) = 0.
Proof.
  cbv zeta.
  apply (lasting_errors_cost_one_call_each _ defaultChain buildRequest
           (messages buildRequest) prepared
           (mkEntry "qwen/qwen3-coder" "OpenRouter" 2)
           [mkEntry "gemini-2.5-flash" "OpenRouter" 2;
            mkEntry "x-ai/grok-4-fast" "OpenRouter" 1;
            mkEntry "qwen/qwen3-coder-480b-a35b-instruct" "Novita" 1]).
  - reflexivity.
  - apply (bool_decide_unpack _). vm_compute. exact I.
  - intros cm cp w. eexists _, _. split; [reflexivity|].
    intros H. apply isRetryable_caught in H. vm_compute in H. discriminate.
  - vm_compute. lia.
Defined.

(** ** The answers of the route *)

Local Open Scope list_scope.

Section Answers.
Context {W : Type} (C : Collaborators W) (chain : list FallbackEntry).

Lemma Post_bind_with {A B} (m : M W A) (k : A -> M W B) (Q : A -> Prop)
    (P : B -> Prop) :
  Post m Q -> (forall a, Q a -> Post (k a) P) -> Post (bind m k) P.
Proof.
  intros Hm Hk w b. rewrite bind_outcome.
  destruct (outcome (m w)) as [a| |] eqn:Ho; [|discriminate..].
  apply Hk. exact (Hm w a Ho).
Qed.

Lemma Post_usageGuard userId :
  Post (usageGuard C userId)
    (fun r => match r.2 with Some response => coherent response | None => True end).
Proof.
  intros w [locals early]. rewrite usageGuard_run.
  destruct (getAuthenticatedUser C w) as [[user|e] w1]; cbv zeta.
  - destruct (canPerformAction C userId "ai_generation" w1) as [[check|e] w2];
      [destruct (allowed check)|]; intros [= <- <-]; cbn; auto.
  - intros [= <- <-]. exact I.
Qed.

Lemma Post_finish locals userId p result :
  Post (finish C locals userId p result) coherent.
Proof.
  intros w resp.
  destruct (finish_usage C locals userId p result w) as (files & tools & ->).
  intros [= <-]. reflexivity.
Qed.

Lemma Post_errorResponse e : Post (W:=W) (errorResponse e) coherent.
Proof.
  intros w resp. rewrite errorResponse_outcome.
  destruct (mentionsApiKey e); [intros [= <-]; now split|].
  destruct (validStatus (statusOf e)) eqn:Hvalid; cbn [negb]; [|discriminate].
  destruct (nullBodyStatus (statusOf e)); [discriminate|].
  intros [= <-]. now split.
Qed.

End Answers.

(** The status of an answer is the one its body calls for: every answer of
    [chatAction] is the 429 of a reached limit, the 200 of a generation,
    or a failure whose HTTP status equals the [statusCode] in its body and
    lies in 200..599. *)
Theorem answer_status_matches_body {W : Type} (C : Collaborators W)
    (chain : list FallbackEntry) (fuel : nat) (body : Body) (w : W)
    (resp : Response) :
  outcome (chatAction C chain fuel body w) = Done resp -> coherent resp.
Proof.
  revert w resp. change (Post (chatAction C chain fuel body) coherent).
  unfold chatAction.
  apply Post_bind. intros userId. apply Post_bind. intros _.
  apply (Post_bind_with _ _ _ _ (Post_usageGuard C userId)).
  intros [locals [response|]] Hearly; cbn [snd] in Hearly.
  - now apply Post_ret.
  - unfold pipeline. apply Post_bind. intros [cm cp].
    apply Post_bind. intros msgs. unfold generation.
    apply Post_tryCatch; [|apply Post_errorResponse].
    apply Post_bind. intros p. apply Post_bind. intros _.
    apply Post_bind. intros result. apply Post_finish.
Qed.

Lemma answer_status_matches_body_witness :
  coherent (Failed 500 "503 Service Unavailable" 500 true "unknown").
Proof.
  apply (answer_status_matches_body (collaborators failing) defaultChain 9
           buildRequest 0).
  vm_compute. reflexivity.
Defined.

(** ** Who is billed *)

Section Billed.
Context {W : Type} (C : Collaborators W) (chain : list FallbackEntry).

(** A write that follows a computation without writes belongs to what
    comes next. *)
Lemma write_in_bind {A B} (m : M W A) (k : A -> M W B) w ev :
  Silent m -> isIncrementUsage ev = true ->
  In ev (events (bind m k w)) ->
  exists a, outcome (m w) = Done a /\ In ev (events (k a (final (m w)))).
Proof.
  intros Hm Hev. rewrite bind_events. intros [Hin|Hin]%in_app_or.
  - specialize (Hm w). unfold noWrites in Hm.
    rewrite List.Forall_forall in Hm. rewrite (Hm _ Hin) in Hev. discriminate.
  - destruct (outcome (m w)) as [a| |]; [eauto | destruct Hin..].
Qed.

Lemma write_in_tryCatch {A} (m : M W A) (h : ErrorObj -> M W A) w ev :
  (forall e, Silent (h e)) -> isIncrementUsage ev = true ->
  In ev (events (tryCatch m h w)) -> In ev (events (m w)).
Proof.
  intros Hh Hev. rewrite tryCatch_events. intros [Hin|Hin]%in_app_or;
    [exact Hin|].
  destruct (outcome (m w)) as [a|e|]; [destruct Hin | | destruct Hin].
  specialize (Hh e (final (m w))). unfold noWrites in Hh.
  rewrite List.Forall_forall in Hh. rewrite (Hh _ Hin) in Hev. discriminate.
Qed.

(** The one write of [finish] names the id among the locals. *)
Lemma write_in_finish locals userId p result w id kind tokens n r :
  In (EvIncrementUsage id kind tokens n r)
    (events (finish C locals userId p result w)) ->
  truthyString (userSupabaseId locals) = Some id.
Proof.
  unfold finish. rewrite bind_log. cbn [prepend events].
  destruct (truthyString (userSupabaseId locals)) as [supabaseId|].
  - rewrite bind_eq, tryCatch_eq.
    destruct (incrementUsage C supabaseId "ai_generation"
                (cumTotalTokens (addUsage (cumulativeUsage p) (usage result)))
                0 w) as [[[]|e] w'] eqn:Hinc.
    + rewrite (bind_await_returns _ _ _ _ _ _ Hinc).
      cbn. intros [H|[H|[H|[]]]]; try discriminate. now injection H as ->.
    + rewrite (bind_await_throws _ _ _ _ _ _ Hinc).
      cbn. intros [H|[H|[H|[]]]]; try discriminate. now injection H as ->.
  - cbn. intros [H|[]]. discriminate.
Qed.

Lemma write_in_pipeline fuel body locals userId w id kind tokens n r :
  In (EvIncrementUsage id kind tokens n r)
    (events (pipeline C chain fuel body locals userId w)) ->
  truthyString (userSupabaseId locals) = Some id.
Proof.
  unfold pipeline. intros Hin.
  apply write_in_bind in Hin as ([cm cp] & _ & Hin);
    [|apply Silent_initialTarget | reflexivity].
  apply write_in_bind in Hin as (msgs & _ & Hin);
    [|apply Silent_planningStage | reflexivity].
  unfold generation in Hin.
  apply write_in_tryCatch in Hin; [|apply Silent_errorResponse | reflexivity].
  apply write_in_bind in Hin as (p & _ & Hin);
    [|apply Silent_prepare | reflexivity].
  apply write_in_bind in Hin as (? & _ & Hin);
    [|apply Silent_log | reflexivity].
  apply write_in_bind in Hin as (result & _ & Hin);
    [|apply Silent_fallbackLoop | reflexivity].
  now apply write_in_finish in Hin.
Qed.

Lemma truthyString_Some o s : truthyString o = Some s -> o = Some s /\ s <> "".
Proof.
  destruct o as [s'|]; [|discriminate]. cbn.
  destruct s' as [|c rest]; [discriminate|]. now intros [= <-].
Qed.

End Billed.

(** Usage is billed to the user who was looked up: a write to the usage
    counters names the non-empty Supabase id that [getAuthenticatedUser]
    has returned in the same request; when the lookup fails or returns no
    id the request is served without a write. *)
Theorem usage_is_billed_to_the_looked_up_user {W : Type} (C : Collaborators W)
    (chain : list FallbackEntry) (fuel : nat) (body : Body) (w : W)
    (id kind : string) (tokens n : nat) (r : Outcome unit) :
  In (EvIncrementUsage id kind tokens n r)
    (events (chatAction C chain fuel body w)) ->
  id <> "" /\
  exists user,
    In (EvGetAuthenticatedUser (Returns user))
      (events (chatAction C chain fuel body w)) /\
    supabaseUserId user = Some id.
Proof.
  destruct (requireAuth C w) as [[userId|e] w1] eqn:Hauth.
  - pose proof (usageGuard_run C userId w1) as Hguard.
    assert (Hdone : exists locals early,
               outcome (usageGuard C userId w1) = Done (locals, early) /\
               (early = None ->
                forall id', truthyString (userSupabaseId locals) = Some id' ->
                            exists user,
                              In (EvGetAuthenticatedUser (Returns user))
                                (events (usageGuard C userId w1)) /\
                              supabaseUserId user = Some id' /\ id' <> "") /\
               Forall (fun ev => isIncrementUsage ev = false)
                 (events (usageGuard C userId w1))).
    { rewrite Hguard.
      destruct (getAuthenticatedUser C w1) as [[user|e] w2]; cbv zeta.
      - assert (Hid : forall id',
                   truthyString (supabaseUserId user) = Some id' ->
                   supabaseUserId user = Some id' /\ id' <> "")
          by (intros id'; apply truthyString_Some).
        destruct (canPerformAction C userId "ai_generation" w2) as [[check|e] w3];
          [destruct (allowed check)|];
          eexists _, _; (split; [reflexivity|]);
          (split; [|repeat constructor]);
          intros _ id' Hid'; exists user; cbn [events userSupabaseId] in *;
          (split; [now left | now apply Hid]).
      - eexists _, _. split; [reflexivity|]. split; [|repeat constructor].
        intros _ id' Hid'. discriminate. }
    destruct Hdone as (locals & early & Hg & Hlocals & Hquiet).
    rewrite (chatAction_run C chain fuel body w userId w1 locals early Hauth Hg).
    cbv zeta. rewrite List.Forall_forall in Hquiet.
    destruct early as [response|]; cbn [events app].
    + intros [H|[H|Hin]]; try discriminate.
      apply Hquiet in Hin. discriminate.
    + intros [H|[H|Hin]]; try discriminate.
      apply in_app_or in Hin as [Hin|Hin]; [apply Hquiet in Hin; discriminate|].
      apply write_in_pipeline in Hin.
      destruct (Hlocals eq_refl id Hin) as (user & Hu & Hs & Hne).
      split; [exact Hne|]. exists user. split; [|exact Hs].
      right. right. apply in_or_app. now left.
  - unfold chatAction. rewrite (bind_await_throws _ _ _ _ _ _ Hauth).
    cbn. intros [H|[]]. discriminate.
Qed.

Lemma usage_is_billed_to_the_looked_up_user_witness :
  "supa_1" <> "" /\
  exists user,
    In (EvGetAuthenticatedUser (Returns user))
      (events (chatAction (collaborators happy) defaultChain 4 buildRequest 0)) /\
    supabaseUserId user = Some "supa_1".
Proof.
  apply (usage_is_billed_to_the_looked_up_user (collaborators happy) defaultChain
           4 buildRequest 0 "supa_1" "ai_generation" 28 0 (Returns tt)).
  vm_compute. tauto.
Defined.

(** ** The planning call *)

Section Counting.
Context {W : Type} (C : Collaborators W) (p : Event -> bool).

Lemma count_never evs : Forall (fun ev => p ev = false) evs -> count p evs = 0.
Proof.
  induction 1 as [|ev evs Hev _ IH]; [reflexivity|].
  now rewrite count_cons, Hev, IH.
Qed.

Lemma AtMost_never {A} n (m : M W A) : Never p m -> AtMost p n m.
Proof. intros H w. rewrite (count_never _ (H w)). lia. Qed.

Lemma AtMost_after {A B} n (m : M W A) (k : A -> M W B) :
  Never p m -> (forall a, AtMost p n (k a)) -> AtMost p n (bind m k).
Proof.
  intros Hm Hk w. rewrite bind_events, count_app, (count_never _ (Hm w)).
  destruct (outcome (m w)) as [a| |]; [apply Hk | cbn; lia..].
Qed.

Lemma AtMost_before {A B} n (m : M W A) (k : A -> M W B) :
  AtMost p n m -> (forall a, Never p (k a)) -> AtMost p n (bind m k).
Proof.
  intros Hm Hk w. rewrite bind_events, count_app. specialize (Hm w).
  destruct (outcome (m w)) as [a| |];
    [rewrite (count_never _ (Hk a _)) | cbn..]; lia.
Qed.

Lemma AtMost_tryCatch {A} n (m : M W A) (h : ErrorObj -> M W A) :
  AtMost p n m -> (forall e, Never p (h e)) -> AtMost p n (tryCatch m h).
Proof.
  intros Hm Hh w. rewrite tryCatch_events, count_app. specialize (Hm w).
  destruct (outcome (m w)) as [a|e|];
    [cbn | rewrite (count_never _ (Hh e _)) | cbn]; lia.
Qed.

Lemma AtMost_await {A} (f : W -> Outcome A * W) (ev : Outcome A -> Event) :
  AtMost p 1 (await f ev).
Proof.
  intros w. unfold await. destruct (f w) as [[a|e] w']; cbn [events];
    rewrite count_cons; destruct (p _); cbn; lia.
Qed.

End Counting.

Section PlanningOnce.
Context {W : Type} (C : Collaborators W) (chain : list FallbackEntry).

Lemma AtMost_planningStage body cm cp :
  AtMost isPlanningCall 1 (planningStage C body cm cp).
Proof.
  unfold planningStage. cbv zeta.
  apply AtMost_after; [never | intros _].
  destruct (lastUserMessage (messages body)) as [lastMessage|];
    [|apply AtMost_never; never].
  destruct (String.eqb (chatMode body) "build" && kimiEnabled (useKimiPlanning body));
    [|apply AtMost_never; never].
  apply AtMost_after; [never | intros _].
  apply AtMost_tryCatch; [|intros e; never].
  apply AtMost_after; [never | intros _].
  apply AtMost_after; [never | intros _].
  apply AtMost_after; [never | intros id].
  apply AtMost_before; [apply AtMost_await | intros planningResult].
  never.
Qed.

Lemma Never_builder_loop body msgs p fuel cm cp le :
  Never isPlanningCall
    (fallbackLoop C chain (preparedArgs body msgs p) fuel cm cp le).
Proof.
  intros w. eapply Forall_impl; [apply fallbackLoop_callsIn|].
  intros [] Hev; try reflexivity. destruct Hev as (cm' & cp' & ->).
  reflexivity.
Qed.

Lemma Never_generation fuel body locals userId cm cp msgs :
  Never isPlanningCall (generation C chain fuel body locals userId cm cp msgs).
Proof.
  unfold generation. apply Never_tryCatch.
  - apply Never_bind; [unfold prepare; never | intros p].
    apply Never_bind; [never | intros _].
    apply Never_bind; [apply Never_builder_loop | intros result].
    unfold finish. never.
  - intros e. unfold errorResponse. never.
Qed.

(** A call that neither has the tools on nor is a planning call. *)
Lemma Never_other_planningStage body cm cp :
  Never (fun ev => isGenerateText ev && negb (isBuilderCall ev)
                   && negb (isKimiCall ev))
    (planningStage C body cm cp).
Proof. unfold planningStage. never. Qed.

Lemma Never_other_generation fuel body locals userId cm cp msgs :
  Never (fun ev => isGenerateText ev && negb (isBuilderCall ev)
                   && negb (isKimiCall ev))
    (generation C chain fuel body locals userId cm cp msgs).
Proof.
  intros w. eapply Forall_impl; [apply Never_generation|].
  intros ev Hev. cbv beta. unfold isPlanningCall in Hev. now rewrite Hev.
Qed.

End PlanningOnce.

(** A request calls [generateText] with the tools turned off at most
    once, and that call is the planning call, for
    moonshotai/kimi-k2-thinking on OpenRouter with [maxTokens: 50000]: a
    planning call that fails is not tried again, and every other call of
    the request has the tools on.  (The builder loop calls the planning
    model again, with the tools on, when the chain or the request names
    it.) *)
Theorem planning_is_called_at_most_once {W : Type} (C : Collaborators W)
    (chain : list FallbackEntry) (fuel : nat) (body : Body) (w : W) :
  let evs := events (chatAction C chain fuel body w) in
  count isPlanningCall evs <= 1
  /\
  forall args out,
    In (EvGenerateText args out) evs ->
    gToolChoice args = "auto" \/
    gToolChoice args = "none" /\
    forceModel args = "moonshotai/kimi-k2-thinking" /\
    forceProvider args = "OpenRouter" /\
    gMaxTokens args = Some 50000%N.
Proof.
  cbv zeta. split.
  - revert w.
    change (AtMost isPlanningCall 1 (chatAction C chain fuel body)).
    unfold chatAction.
    apply AtMost_after; [never | intros userId].
    apply AtMost_after; [never | intros _].
    apply AtMost_after; [unfold usageGuard; never | intros [locals [response|]]].
    + apply AtMost_never. never.
    + unfold pipeline.
      apply AtMost_after; [unfold initialTarget; never | intros [cm cp]].
      apply AtMost_before; [apply AtMost_planningStage | intros msgs].
      apply Never_generation.
  - assert (Hnever : Never (fun ev => isGenerateText ev
                                      && negb (isBuilderCall ev)
                                      && negb (isKimiCall ev))
                       (chatAction C chain fuel body)).
    { unfold chatAction.
      apply Never_bind; [never | intros userId].
      apply Never_bind; [never | intros _].
      apply Never_bind; [unfold usageGuard; never | intros [locals [response|]]].
      - never.
      - unfold pipeline.
        apply Never_bind; [unfold initialTarget; never | intros [cm cp]].
        apply Never_bind; [apply Never_other_planningStage | intros msgs].
        apply Never_other_generation. }
    intros args out Hin. specialize (Hnever w).
    rewrite List.Forall_forall in Hnever. specialize (Hnever _ Hin).
    cbn [isGenerateText isBuilderCall isKimiCall andb] in Hnever.
    destruct (String.eqb_spec (gToolChoice args) "auto") as [Hauto|_];
      [now left|]. right. cbn [negb] in Hnever.
    apply negb_false_iff in Hnever.
    repeat (apply andb_prop in Hnever as [Hnever ?]).
    repeat match goal with
           | H : String.eqb _ _ = true |- _ => apply String.eqb_eq in H
           end.
    destruct (gMaxTokens args) as [n|]; [|discriminate].
    match goal with H : N.eqb _ _ = true |- _ => apply N.eqb_eq in H end.
    subst n. auto.
Qed.

(** ** A model the chain does not list *)

Section Override.
Context {W : Type} (C : Collaborators W) (chain : list FallbackEntry).

(** Lines 100-102 for a request that names its model. *)
Lemma initialTarget_override body m cp (w : W) :
  requestedModel body = Some m -> m <> "" ->
  truthyString (requestedProvider body) = Some cp \/
  truthyString (requestedProvider body) = None /\
  provider <$> getDefaultModel chain = Some cp ->
  initialTarget chain body w = mkRun (Done (m, cp)) w [].
Proof.
  intros Hm Hne Hcp. unfold initialTarget, bind, ret, throw. rewrite Hm.
  cbn [truthyString]. destruct m as [|c m]; [congruence|].
  cbn [truthy outcome final events].
  destruct Hcp as [->|[-> Hcp]].
  - reflexivity.
  - destruct (getDefaultModel chain) as [d|]; [|discriminate].
    injection Hcp as <-. reflexivity.
Qed.

(** The walk from a model without an entry: one call, no retry, no next
    entry. *)
Lemma fallbackLoop_unlisted mk fuel m cp le w :
  no_match chain m ->
  fallbackLoop C chain mk (S fuel) m cp le w
  = match generateText C (mk m cp) w with
    | (Returns res, w') =>
        mkRun (Done res) w'
          [ EvLog (LogAttempting m cp); EvGenerateText (mk m cp) (Returns res);
            EvLog (LogGenerationSuccessful m) ]
    | (Throws e, w') =>
        mkRun (Thrown e) w'
          [ EvLog (LogAttempting m cp); EvGenerateText (mk m cp) (Throws e);
            EvLog (LogModelFailed m 1); EvLog LogExhausted ]
    end.
Proof.
  intros Hno.
  assert (Hnext : getNextFallback chain m = None)
    by (unfold getNextFallback; now rewrite (proj2 (findIndex_None chain m) Hno)).
  rewrite fallbackLoop_step. cbv zeta.
  destruct (generateText C (mk m cp) w) as [[res|e] w'] eqn:Hcall.
  - now rewrite (attemptLoop_returns C chain _ _ _ _ _ _ _ _ _ _ Hcall).
  - rewrite (attemptLoop_throws C chain _ _ _ _ _ _ _ _ _ _ Hcall).
    unfold retryCaught. rewrite (shouldRetry_unlisted _ _ _ _ _ Hno).
    cbn [andb outcome final events]. now rewrite Hnext.
Qed.

Lemma errorResponse_events e (w : W) :
  exists rest,
    events (errorResponse e w) = EvLog (LogGenerationError e) :: rest.
Proof. unfold errorResponse. rewrite bind_log. cbn. eauto. Qed.

(** The generation stage for such a model, once [prepare] has returned. *)
Lemma generation_unlisted fuel body locals userId m cp msgs w p :
  no_match chain m ->
  outcome (prepare C body msgs (mkCumulative 0 0 0) w) = Done p ->
  let prep := prepare C body msgs (mkCumulative 0 0 0) w in
  let args := preparedArgs body msgs p m cp in
  let g := generation C chain (S fuel) body locals userId m cp msgs w in
  match generateText C args (final prep) with
  | (Returns res, w') =>
      outcome g = outcome (finish C locals userId p res w') /\
      events g
      = events prep
        ++ [ EvLog LogGenerating; EvLog (LogAttempting m cp);
             EvGenerateText args (Returns res);
             EvLog (LogGenerationSuccessful m) ]
        ++ events (finish C locals userId p res w')
  | (Throws e, w') =>
      outcome g = outcome (errorResponse e w') /\
      events g
      = events prep
        ++ [ EvLog LogGenerating; EvLog (LogAttempting m cp);
             EvGenerateText args (Throws e); EvLog (LogModelFailed m 1);
             EvLog LogExhausted ]
        ++ events (errorResponse e w')
  end.
Proof.
  intros Hno Hp. cbv zeta. unfold generation.
  rewrite tryCatch_eq, bind_eq, Hp, bind_log, bind_eq.
  rewrite (fallbackLoop_unlisted _ fuel m cp None _ Hno).
  destruct (generateText C (preparedArgs body msgs p m cp) _) as [[res|e] w'];
    unfold prepend; cbn [outcome final events].
  - destruct (finish_usage C locals userId p res w') as (files & tools & Hdone).
    rewrite Hdone. cbn [outcome events]. split; [reflexivity|].
    rewrite <- ?app_assoc. reflexivity.
  - split; [reflexivity|]. rewrite <- ?app_assoc. reflexivity.
Qed.

Lemma filter_never (p : Event -> bool) (evs : list Event) :
  Forall (fun ev => p ev = false) evs -> List.filter p evs = [].
Proof.
  induction 1 as [|ev evs Hev _ IH]; [reflexivity|].
  cbn [List.filter]. now rewrite Hev.
Qed.

Lemma Never_builder_planningStage body cm cp :
  Never isBuilderCall (planningStage C body cm cp).
Proof. unfold planningStage. never. Qed.

Lemma Never_builder_prepare body msgs cu :
  Never isBuilderCall (prepare C body msgs cu).
Proof. unfold prepare. never. Qed.

Lemma Never_builder_finish locals userId p result :
  Never isBuilderCall (finish C locals userId p result).
Proof. unfold finish. never. Qed.

Lemma Never_builder_errorResponse e :
  Never (W:=W) isBuilderCall (errorResponse e).
Proof. unfold errorResponse. never. Qed.

Lemma Never_sleep_planningStage body cm cp :
  Never isSleep (planningStage C body cm cp).
Proof. unfold planningStage. never. Qed.

Lemma Never_sleep_prepare body msgs cu :
  Never isSleep (prepare C body msgs cu).
Proof. unfold prepare. never. Qed.

Lemma Never_sleep_finish locals userId p result :
  Never isSleep (finish C locals userId p result).
Proof. unfold finish. never. Qed.

Lemma Never_sleep_errorResponse e :
  Never (W:=W) isSleep (errorResponse e).
Proof. unfold errorResponse. never. Qed.

End Override.

(** C9.  A request that names a model no chain entry has is run for that
    model: the target of the walk is the model of the request (with the
    provider of the request, or that of entry 0 when it names none), and
    the planning stage always hands a message list on.  Whenever the
    preparation that follows returns, the route makes exactly one builder
    call, for that model; when the preparation throws it makes none.  When
    the one call throws, [shouldRetry] has answered false and
    [getNextFallback] null, so the error is thrown at once to the outer
    [catch], which answers for it: nothing is waited for, nothing is
    retried and no chain entry is called. *)
Theorem unknown_override_fails_fast {W : Type} (C : Collaborators W)
    (chain : list FallbackEntry) (fuel : nat) (body : Body)
    (locals : GuardLocals) (userId m cp : string) (w : W) :
  requestedModel body = Some m -> m <> "" -> no_match chain m ->
  truthyString (requestedProvider body) = Some cp \/
  truthyString (requestedProvider body) = None /\
  provider <$> getDefaultModel chain = Some cp ->
  let r := pipeline C chain (S fuel) body locals userId w in
  let stage := planningStage C body m cp w in
  (forall error n, shouldRetry (engine C) chain error n m = Returns false)
  /\ getNextFallback chain m = None
  /\ outcome (initialTarget chain body w) = Done (m, cp)
  /\ (exists msgs, outcome stage = Done msgs)
  /\ count isSleep (events r) = 0
  /\ forall msgs,
       outcome stage = Done msgs ->
       let prep := prepare C body msgs (mkCumulative 0 0 0) (final stage) in
       match outcome prep with
       | Done p =>
           let args := preparedArgs body msgs p m cp in
           forceModel args = m /\ forceProvider args = cp /\
           match generateText C args (final prep) with
           | (Returns res, w') =>
               List.filter isBuilderCall (events r)
               = [EvGenerateText args (Returns res)]
           | (Throws e, w') =>
               List.filter isBuilderCall (events r)
               = [EvGenerateText args (Throws e)] /\
               outcome r = outcome (errorResponse e w') /\
               exists before after,
                 events r
                 = before
                   ++ [ EvLog (LogAttempting m cp);
                        EvGenerateText args (Throws e);
                        EvLog (LogModelFailed m 1); EvLog LogExhausted;
                        EvLog (LogGenerationError e) ]
                   ++ after
           end
       | _ => List.filter isBuilderCall (events r) = []
       end.
Proof.
  intros Hm Hne Hno Hcp. cbv zeta.
  pose proof (initialTarget_override chain body m cp w Hm Hne Hcp) as Htarget.
  assert (Hnext : getNextFallback chain m = None)
    by (unfold getNextFallback; now rewrite (proj2 (findIndex_None chain m) Hno)).
  destruct (planningStage_returns C body m cp w) as (msgs0 & Hstage0).
  assert (Hpipe : forall msgs,
             outcome (planningStage C body m cp w) = Done msgs ->
             let g := generation C chain (S fuel) body locals userId m cp msgs
                        (final (planningStage C body m cp w)) in
             outcome (pipeline C chain (S fuel) body locals userId w)
             = outcome g /\
             events (pipeline C chain (S fuel) body locals userId w)
             = events (planningStage C body m cp w) ++ events g).
  { intros msgs Hstage.
    apply (pipeline_run C chain (S fuel) body locals userId m cp msgs w);
      [now rewrite Htarget | exact Hstage]. }
  assert (Hfailed : forall msgs w1,
             let prep := prepare C body msgs (mkCumulative 0 0 0) w1 in
             let g := generation C chain (S fuel) body locals userId m cp msgs
                        w1 in
             match outcome prep with
             | Done _ => True
             | Thrown e =>
                 events g = events prep ++ events (errorResponse e (final prep))
             | OutOfFuel => events g = events prep
             end).
  { intros msgs w1. cbv zeta. unfold generation.
    rewrite tryCatch_eq, bind_eq.
    destruct (outcome (prepare C body msgs (mkCumulative 0 0 0) w1));
      cbn [outcome events prepend]; [exact I | reflexivity..]. }
  split; [intros error n; now apply shouldRetry_unlisted|].
  split; [exact Hnext|]. split; [now rewrite Htarget|].
  split; [now exists msgs0|]. split.
  - unfold count. rewrite filter_never; [reflexivity|].
    destruct (Hpipe msgs0 Hstage0) as [_ ->].
    apply Forall_app. split; [apply Never_sleep_planningStage|].
    pose proof (Hfailed msgs0 (final (planningStage C body m cp w))) as Hf.
    cbv zeta in Hf.
    destruct (outcome (prepare C body msgs0 (mkCumulative 0 0 0) _))
      as [p|e|] eqn:Hp.
    + pose proof (generation_unlisted C chain fuel body locals userId m cp
                    msgs0 _ p Hno Hp) as Hgen. cbv zeta in Hgen.
      destruct (generateText C (preparedArgs body msgs0 p m cp) _)
        as [[res|e] w']; destruct Hgen as [_ ->];
        (apply Forall_app; split; [apply Never_sleep_prepare|]);
        (apply Forall_app; split; [repeat constructor|]);
        [apply Never_sleep_finish | apply Never_sleep_errorResponse].
    + rewrite Hf. apply Forall_app.
      split; [apply Never_sleep_prepare | apply Never_sleep_errorResponse].
    + rewrite Hf. apply Never_sleep_prepare.
  - intros msgs Hstage. destruct (Hpipe msgs Hstage) as [Hout Hev].
    cbv zeta in Hout, Hev. rewrite Hout, Hev, List.filter_app.
    rewrite (filter_never _ _ (Never_builder_planningStage C body m cp w)).
    cbn [app].
    pose proof (Hfailed msgs (final (planningStage C body m cp w))) as Hf.
    cbv zeta in Hf.
    destruct (outcome (prepare C body msgs (mkCumulative 0 0 0) _))
      as [p|e|] eqn:Hp.
    + split; [reflexivity|]. split; [reflexivity|].
      pose proof (generation_unlisted C chain fuel body locals userId m cp msgs
                    _ p Hno Hp) as Hgen. cbv zeta in Hgen.
      destruct (generateText C (preparedArgs body msgs p m cp) _)
        as [[res|e] w']; destruct Hgen as [Hgo Hge]; rewrite Hge.
      * rewrite !List.filter_app.
        rewrite (filter_never _ _ (Never_builder_prepare C body msgs _ _)).
        rewrite (filter_never _ _ (Never_builder_finish C locals userId p res w')).
        reflexivity.
      * split; [|split; [exact Hgo|]].
        -- rewrite !List.filter_app.
           rewrite (filter_never _ _ (Never_builder_prepare C body msgs _ _)).
           rewrite (filter_never _ _ (Never_builder_errorResponse e w')).
           reflexivity.
        -- destruct (errorResponse_events e w') as (rest & ->).
           exists (events (planningStage C body m cp w)
                   ++ events (prepare C body msgs (mkCumulative 0 0 0)
                                (final (planningStage C body m cp w)))
                   ++ [EvLog LogGenerating]), rest.
           rewrite <- !app_assoc. reflexivity.
    + rewrite Hf, List.filter_app.
      rewrite (filter_never _ _ (Never_builder_prepare C body msgs _ _)).
      exact (filter_never _ _ (Never_builder_errorResponse e _)).
    + rewrite Hf.
      exact (filter_never _ _ (Never_builder_prepare C body msgs _ _)).
Qed.

(** A request for "my/model" on the default chain, answered with a 503:
    one call, with the message the planning stage has written, and the 503
    as the answer. *)
Lemma unknown_override_fails_fast_witness :
  let r := pipeline (collaborators failing) defaultChain 1 overrideRequest
             (mkLocals "free" (Some "supa_1")) "user_1" 0 in
  let planned :=
    [ mkMessage "id" "user"
        (formattedPrompt "my/model" "OpenRouter" "a plan") ] in
  List.filter isBuilderCall (events r)
  = [ EvGenerateText
        (preparedArgs overrideRequest planned
           (mkPrepared planned 0 None None (mkCumulative 0 0 0))
           "my/model" "OpenRouter")
        (Throws (errorOf "503 Service Unavailable")) ] /\
  outcome r = Done (Failed 500 "503 Service Unavailable" 500 true "unknown").
Proof.
  destruct (unknown_override_fails_fast (collaborators failing) defaultChain 0
              overrideRequest (mkLocals "free" (Some "supa_1")) "user_1"
              "my/model" "OpenRouter" 0)
    as (_ & _ & _ & _ & _ & Hwalk).
  - reflexivity.
  - discriminate.
  - apply find_None. reflexivity.
  - right. split; reflexivity.
  - specialize (Hwalk
      [ mkMessage "id" "user"
          (formattedPrompt "my/model" "OpenRouter" "a plan") ]
      ltac:(vm_compute; reflexivity)).
    vm_compute in Hwalk. destruct Hwalk as (_ & _ & Hcalls & Hout & _).
    split; [exact Hcalls | exact Hout].
Defined.

(** ** The cookie header *)

Import Cookies.
Local Open Scope string_scope.

Section CookieFacts.
Variable E : Engine.
Variable decodeURIComponent : string -> Outcome string.

Lemma split_nonempty sep s : split sep s <> [].
Proof.
  destruct s as [|c rest]; [discriminate|]. cbn [split].
  destruct (Ascii.eqb c sep); [discriminate|].
  destruct (split sep rest); discriminate.
Qed.

(** A text without the separator is one piece. *)
Lemma split_free sep s : hasChar sep s = false -> split sep s = [s].
Proof.
  induction s as [|c rest IH]; [reflexivity|]. cbn [hasChar split].
  intros [Hc Hrest]%orb_false_elim. rewrite Hc, (IH Hrest). reflexivity.
Qed.

(** The first piece ends at the first separator. *)
Lemma split_first sep a b :
  hasChar sep a = false ->
  split sep (a ++ String sep b) = a :: split sep b.
Proof.
  induction a as [|c rest IH]; cbn [hasChar].
  - intros _. rewrite append_nil. cbn [split]. now rewrite Ascii.eqb_refl.
  - intros [Hc Hrest]%orb_false_elim. rewrite append_cons. cbn [split].
    rewrite Hc, (IH Hrest). reflexivity.
Qed.

(** The last piece starts after the last separator. *)
Lemma split_last sep a b :
  hasChar sep b = false ->
  split sep (a ++ String sep b) = (split sep a ++ [b])%list.
Proof.
  intros Hb. induction a as [|c rest IH].
  - rewrite append_nil. cbn [split]. rewrite Ascii.eqb_refl.
    now rewrite (split_free _ _ Hb).
  - rewrite append_cons. cbn [split]. rewrite IH.
    destruct (Ascii.eqb c sep); [reflexivity|].
    destruct (split sep rest) eqn:Hs; [now apply split_nonempty in Hs|].
    reflexivity.
Qed.

(** [join] undoes [split]. *)
Lemma join_split sep s : join (String sep "") (split sep s) = s.
Proof.
  induction s as [|c rest IH]; [reflexivity|]. cbn [split].
  destruct (Ascii.eqb_spec c sep) as [->|_].
  - destruct (split sep rest) as [|piece pieces] eqn:Hs;
      [now apply split_nonempty in Hs|].
    cbn [join] in *. rewrite append_nil, append_cons, append_nil.
    destruct pieces; now rewrite IH.
  - destruct (split sep rest) as [|piece pieces] eqn:Hs;
      [now apply split_nonempty in Hs|].
    cbn [join] in *. destruct pieces; [now rewrite IH|].
    rewrite append_cons. now rewrite IH.
Qed.

Lemma forEach_app items items' cookies :
  forEach E decodeURIComponent (items ++ items')%list cookies
  = match forEach E decodeURIComponent items cookies with
    | Throws e => Throws e
    | Returns cookies' => forEach E decodeURIComponent items' cookies'
    end.
Proof.
  revert cookies. induction items as [|item rest IH]; intros cookies;
    [reflexivity|].
  cbn [forEach app]. destruct (eachItem E decodeURIComponent cookies item);
    [apply IH | reflexivity].
Qed.

End CookieFacts.

(** A cookie's value is everything after its first equals sign: for an
    item [name=value] whose non-empty name has no equals sign, the entry
    stored is the decoded, trimmed name with the decoded, trimmed value,
    whatever equals signs the value has itself; an error of
    [decodeURIComponent] on either is thrown on. *)
Theorem cookie_value_keeps_equals_signs (E : Engine)
    (decodeURIComponent : string -> Outcome string)
    (cookies : Jar) (name value : string) :
  hasChar "=" name = false ->
  name <> "" ->
  eachItem E decodeURIComponent cookies (name ++ String "=" value)
  = match decodeURIComponent (trim E name) with
    | Throws e => Throws e
    | Returns decodedName =>
        match decodeURIComponent (trim E value) with
        | Throws e => Throws e
        | Returns decodedValue =>
            Returns (setProperty cookies decodedName decodedValue)
        end
    end.
Proof.
  intros Hname Hne. unfold eachItem.
  rewrite (split_first "=" name value Hname).
  destruct name as [|c rest]; [contradiction|]. cbn [truthy].
  now rewrite join_split.
Qed.

Lemma cookie_value_keeps_equals_signs_witness :
  eachItem asciiEngine plain ∅ ("token" ++ String "=" "YWJj==")
  = Returns (setProperty ∅ "token" "YWJj==").
Proof.
  apply (cookie_value_keeps_equals_signs asciiEngine plain ∅ "token" "YWJj==").
  - reflexivity.
  - discriminate.
Defined.

(** The cookies are read from left to right, each on top of the earlier
    ones, so that of two cookies with one name the later one is kept: the
    jar of a header followed by [;] and one more item is the jar of the
    header with that item, trimmed, put in; and an error thrown in the
    header is thrown for the whole. *)
Theorem parseCookies_later_item_on_top (E : Engine)
    (decodeURIComponent : string -> Outcome string)
    (cookieHeader item : string) :
  hasChar ";" item = false ->
  parseCookies E decodeURIComponent (cookieHeader ++ String ";" item)
  = match parseCookies E decodeURIComponent cookieHeader with
    | Throws e => Throws e
    | Returns cookies => eachItem E decodeURIComponent cookies (trim E item)
    end.
Proof.
  intros Hitem. unfold parseCookies.
  rewrite (split_last ";" cookieHeader item Hitem), List.map_app, forEach_app.
  destruct (forEach E decodeURIComponent _ ∅) as [cookies|e]; [|reflexivity].
  cbn [List.map forEach].
  now destruct (eachItem E decodeURIComponent cookies (trim E item)).
Qed.

Lemma parseCookies_later_item_on_top_witness :
  parseCookies asciiEngine plain ("a=1; b=2" ++ String ";" " a=3")
  = match parseCookies asciiEngine plain "a=1; b=2" with
    | Throws e => Throws e
    | Returns cookies => eachItem asciiEngine plain cookies (trim asciiEngine " a=3")
    end.
Proof.
  apply (parseCookies_later_item_on_top asciiEngine plain "a=1; b=2" " a=3").
  reflexivity.
Defined.

(** ** One call of the model *)

Import GenerateText.
Local Open Scope string_scope.

Section ParamsFacts.
Context {Instance : Type}.
Implicit Types (instance : Instance) (options : gmap string Setting).

(** The settings that reach the SDK: all of them, or for a reasoning
    model those that are no sampling key. *)
Lemma filteredOptions_lookup isReasoning options key :
  filteredOptions isReasoning (Some options) !! key
  = if isReasoning && bool_decide (key ∈ samplingKeys) then None
    else options !! key.
Proof.
  unfold filteredOptions. destruct isReasoning; [|reflexivity]. cbn [andb].
  apply option_eq. intros v. rewrite map_lookup_filter_Some. cbn [fst].
  destruct (bool_decide_reflect (key ∈ samplingKeys)); split;
    try discriminate; tauto.
Qed.

(** What the literal holds before the options are spread into it. *)
Lemma literal_lookup instance system isReasoning safe msgs key :
  (<["messages" := VMessages msgs]>
     (tokenParams isReasoning safe
      ∪ <["system" := VSystem system]> {[ "model" := VModel instance ]})
   : gmap string (Value Instance)) !! key
  = if String.eqb key "messages" then Some (VMessages msgs)
    else if String.eqb key (if isReasoning then "maxCompletionTokens" else "maxTokens")
    then Some (VOption (SNumber safe))
    else if String.eqb key "system" then Some (VSystem system)
    else if String.eqb key "model" then Some (VModel instance)
    else None.
Proof.
  destruct (String.eqb_spec key "messages") as [->|Hm];
    [now rewrite lookup_insert_eq|].
  rewrite lookup_insert_ne by congruence.
  rewrite lookup_union. unfold tokenParams.
  destruct isReasoning;
    (match goal with
     | |- context [String.eqb key ?k] =>
         destruct (String.eqb_spec key k) as [->|Ht]
     end;
     [ rewrite lookup_singleton_eq, lookup_insert_ne, lookup_singleton_ne
         by discriminate; reflexivity
     | rewrite lookup_singleton_ne by congruence;
       destruct (String.eqb_spec key "system") as [->|Hs];
       [ now rewrite lookup_insert_eq
       | rewrite lookup_insert_ne by congruence;
         destruct (String.eqb_spec key "model") as [->|Hmo];
         [ now rewrite lookup_singleton_eq
         | now rewrite lookup_singleton_ne by congruence ] ] ]).
Qed.

(** A setting that is left in the options is what the SDK finds under its
    key. *)
Lemma kept_option_lookup instance system isReasoning safe msgs options key v :
  filteredOptions isReasoning (Some options) !! key = Some v ->
  isReasoning = false \/ key <> "temperature" ->
  generateParams instance system isReasoning safe msgs (Some options) !! key
  = Some (VOption v).
Proof.
  intros Hkept Htemp. unfold generateParams. cbv zeta.
  assert (Hopt : (VOption (Instance:=Instance)
                    <$> filteredOptions isReasoning (Some options)) !! key
                 = Some (VOption v)) by now rewrite lookup_fmap, Hkept.
  destruct isReasoning.
  - destruct Htemp as [|Htemp]; [discriminate|].
    rewrite lookup_insert_ne by congruence. now apply lookup_union_Some_l.
  - now apply lookup_union_Some_l.
Qed.

Lemma temperature_is_sampling : "temperature" ∈ samplingKeys.
Proof. apply (bool_decide_unpack _). vm_compute. exact I. Qed.

End ParamsFacts.

(** What the caller puts in [options] wins over what [generateText] has
    computed: a setting of the caller reaches the SDK under its key, also
    under [maxTokens], [system], [messages] or [model]; the one exception
    are the sampling keys of a reasoning model. *)
Theorem caller_options_replace_computed_values {Instance : Type}
    (instance : Instance) (system : string) (isReasoning : bool) (safe : Z)
    (msgs : list Message) (options : gmap string Setting) (key : string)
    (v : Setting) :
  options !! key = Some v ->
  (isReasoning = true -> key ∉ samplingKeys) ->
  generateParams instance system isReasoning safe msgs (Some options) !! key
  = Some (VOption v).
Proof.
  intros Hkey Hsampling. apply kept_option_lookup.
  - rewrite filteredOptions_lookup. destruct isReasoning; [|exact Hkey].
    cbn [andb]. now rewrite bool_decide_eq_false_2 by auto.
  - destruct isReasoning; [right | now left].
    intros ->. apply Hsampling; [reflexivity|]. apply temperature_is_sampling.
Qed.

Lemma caller_options_replace_computed_values_witness :
  generateParams "instance" "prompt" false 8192 []
    (Some {[ "maxTokens" := SNumber 50000 ]}) !! "maxTokens"
  = Some (VOption (Instance:=string) (SNumber 50000)).
Proof.
  apply caller_options_replace_computed_values.
  - reflexivity.
  - discriminate.
Defined.

(** A reasoning model is always run at temperature 1: whatever the caller
    asks for, the object handed to the SDK has [temperature: 1], none of
    the other six sampling keys, and a [maxTokens] only if the caller has
    set one (the computed limit goes under [maxCompletionTokens]). *)
Theorem reasoning_models_run_at_temperature_1 {Instance : Type}
    (instance : Instance) (system : string) (safe : Z) (msgs : list Message)
    (options : gmap string Setting) :
  let params := generateParams instance system true safe msgs (Some options) in
  params !! "temperature" = Some (VOption (SNumber 1)) /\
  (forall key, key ∈ samplingKeys -> key <> "temperature" ->
               params !! key = None) /\
  params !! "maxTokens" = VOption <$> options !! "maxTokens".
Proof.
  cbv zeta. unfold generateParams. cbv zeta. split; [|split].
  - now rewrite lookup_insert_eq.
  - intros key Hin Hne. rewrite lookup_insert_ne by congruence.
    rewrite lookup_union, lookup_fmap, filteredOptions_lookup, literal_lookup.
    rewrite bool_decide_eq_true_2 by exact Hin. cbn [andb fmap option_fmap option_map].
    unfold samplingKeys in Hin.
    repeat (apply elem_of_cons in Hin as [->|Hin]; [reflexivity|]).
    now apply elem_of_nil in Hin.
  - rewrite lookup_insert_ne by discriminate.
    rewrite lookup_union, lookup_fmap, filteredOptions_lookup, literal_lookup.
    cbn. now destruct (options !! "maxTokens").
Qed.

Lemma lastUserMessage_snoc msgs message :
  lastUserMessage (msgs ++ [message])%list
  = if String.eqb (role message) "user" then Some message
    else lastUserMessage msgs.
Proof.
  unfold lastUserMessage. rewrite List.filter_app. cbn [List.filter].
  destruct (String.eqb (role message) "user").
  - now rewrite last_snoc.
  - now rewrite app_nil_r.
Qed.

(** The model and the provider of a call: a forced one is never replaced
    by what the messages are tagged with; without it the tag of the last
    user message decides, and the default when there is no user message. *)
Theorem target_is_forced_or_last_tag (DEFAULT_MODEL : string)
    (DEFAULT_PROVIDER : ProviderInfo)
    (extractPropertiesFromMessage : Message -> Properties) (props : Props) :
  let tag := extractPropertiesFromMessage <$> lastUserMessage (pMessages props) in
  target DEFAULT_MODEL DEFAULT_PROVIDER extractPropertiesFromMessage props
  = (match truthyString (pForceModel props) with
     | Some forced => forced
     | None => default DEFAULT_MODEL (xModel <$> tag)
     end,
     match truthyString (pForceProvider props) with
     | Some forced => forced
     | None => default (pName DEFAULT_PROVIDER) (xProvider <$> tag)
     end).
Proof.
  cbv zeta. unfold target.
  induction (pMessages props) as [|message msgs IH] using rev_ind.
  - cbn. now destruct (truthyString (pForceModel props)),
      (truthyString (pForceProvider props)).
  - rewrite fold_left_app, IH, lastUserMessage_snoc. cbn [fold_left].
    destruct (String.eqb (role message) "user"); [|reflexivity].
    cbn [fst snd fmap option_fmap option_map default].
    now destruct (truthyString (pForceModel props)),
      (truthyString (pForceProvider props)).
Qed.

(** The model of a call is always a listed one: the model named in the
    static list of the manager, else the model named among the provider's
    own and dynamic models, else, when no list names it, the first of
    these; the request is never sent for a model no list holds. *)
Theorem resolved_model_is_listed
    (getStaticModelListFromProvider getModelListFromProvider :
       ProviderInfo -> Outcome (list ModelInfo))
    (provider : ProviderInfo) (currentModel : string) (m : ModelInfo) :
  resolveModel getStaticModelListFromProvider getModelListFromProvider
    provider currentModel = Returns m ->
  exists static,
    getStaticModelListFromProvider provider = Returns static /\
    ((In m static /\ mName m = currentModel) \/
     exists dynamic,
       getModelListFromProvider provider = Returns dynamic /\
       let modelsList := (default [] (staticModels provider) ++ dynamic)%list in
       In m modelsList /\
       (mName m = currentModel \/
        (head modelsList = Some m /\
         Forall (fun m' => mName m' <> currentModel) (static ++ modelsList)%list))).
Proof.
  unfold resolveModel.
  destruct (getStaticModelListFromProvider provider) as [static|e];
    [|discriminate].
  intros H. exists static. split; [reflexivity|].
  destruct (List.find (named currentModel) static) as [found|] eqn:Hstatic.
  - injection H as ->. apply List.find_some in Hstatic as [Hin Hname].
    left. split; [exact Hin|]. now apply String.eqb_eq.
  - right. destruct (getModelListFromProvider provider) as [dynamic|e];
      [|discriminate].
    exists dynamic. split; [reflexivity|]. cbv zeta in *.
    destruct (default [] (staticModels provider) ++ dynamic)%list
      as [|first rest] eqn:Hlist; [discriminate|].
    destruct (List.find (named currentModel) (first :: rest)) as [found|]
      eqn:Hfound; injection H as <-; cbn [default].
    + apply List.find_some in Hfound as [Hin Hname].
      split; [exact Hin|]. left. now apply String.eqb_eq.
    + split; [now left|]. right. split; [reflexivity|].
      apply Forall_app. split; apply List.Forall_forall; intros m' Hin Heq.
      * apply (List.find_none _ _ Hstatic) in Hin.
        unfold named in Hin. apply String.eqb_neq in Hin. contradiction.
      * apply (List.find_none _ _ Hfound) in Hin.
        unfold named in Hin. apply String.eqb_neq in Hin. contradiction.
Qed.

Lemma resolved_model_is_listed_witness :
  let static := fun p : ProviderInfo => Returns (default [] (staticModels p)) in
  let dynamic := fun _ : ProviderInfo => Returns ([] : list ModelInfo) in
  let m := mkModelInfo "moonshotai/kimi-k2-thinking" "OpenRouter" 262144
             (Some 16000%Z) in
  exists listed,
    static openRouter = Returns listed /\
    ((In m listed /\ mName m = "gpt-unknown") \/
     exists more,
       dynamic openRouter = Returns more /\
       let modelsList := (default [] (staticModels openRouter) ++ more)%list in
       In m modelsList /\
       (mName m = "gpt-unknown" \/
        (head modelsList = Some m /\
         Forall (fun m' => mName m' <> "gpt-unknown") (listed ++ modelsList)%list))).
Proof.
  cbv zeta.
  apply (resolved_model_is_listed
           (fun p => Returns (default [] (staticModels p)))
           (fun _ => Returns []) openRouter "gpt-unknown").
  reflexivity.
Defined.

(** The completion limit computed for a model is never 0: a limit of 0 on
    the model or in the table of the providers counts as absent.  It is
    what the SDK receives under [maxTokens] ([maxCompletionTokens] for a
    reasoning model) unless the options of the caller set that key
    themselves. *)
Theorem completion_limit_is_never_zero (MAX_TOKENS : Z)
    (PROVIDER_COMPLETION_LIMITS : string -> option Z) (modelDetails : ModelInfo) :
  MAX_TOKENS <> 0%Z ->
  let limit :=
    getCompletionTokenLimit MAX_TOKENS PROVIDER_COMPLETION_LIMITS modelDetails in
  limit <> 0%Z /\
  forall (Instance : Type) (instance : Instance) (system : string)
         (isReasoning : bool) (msgs : list Message)
         (options : option (gmap string Setting)),
    let key := if isReasoning then "maxCompletionTokens" else "maxTokens" in
    (forall set, options = Some set -> set !! key = None) ->
    generateParams instance system isReasoning limit msgs options !! key
    = Some (VOption (SNumber limit)).
Proof.
  intros Hmax. cbv zeta. split.
  - unfold getCompletionTokenLimit. cbv zeta.
    destruct (maxCompletionTokens modelDetails) as [own|];
      [destruct (Z.ltb_spec 0 own); [lia|]|];
      (destruct (PROVIDER_COMPLETION_LIMITS (mProvider modelDetails))
         as [providerDefault|];
       [destruct (Z.eqb_spec providerDefault 0); [lia | assumption] | lia]).
  - intros Instance instance system isReasoning msgs options Hunset.
    unfold generateParams. cbv zeta.
    assert (Hnone : (VOption (Instance:=Instance)
                       <$> filteredOptions isReasoning options)
                    !! (if isReasoning then "maxCompletionTokens"
                        else "maxTokens") = None).
    { rewrite lookup_fmap. destruct options as [set|].
      - rewrite filteredOptions_lookup, (Hunset set eq_refl).
        now destruct (_ && _).
      - unfold filteredOptions. now rewrite lookup_empty. }
    destruct isReasoning.
    + rewrite lookup_insert_ne by discriminate.
      rewrite lookup_union_r by exact Hnone.
      rewrite literal_lookup. reflexivity.
    + rewrite lookup_union_r by exact Hnone.
      rewrite literal_lookup. reflexivity.
Qed.

(** A model and a table that both say 0: the limit is [MAX_TOKENS], and a
    call without options of its own asks for it. *)
Lemma completion_limit_is_never_zero_witness :
  getCompletionTokenLimit 8000 (fun _ => Some 0%Z)
    (mkModelInfo "qwen/qwen3-coder" "OpenRouter" 262144 (Some 0%Z))
  = 8000%Z /\
  generateParams "instance" "prompt" false 8000 [] None !! "maxTokens"
  = Some (VOption (SNumber 8000)).
Proof.
  destruct (completion_limit_is_never_zero 8000 (fun _ => Some 0%Z)
              (mkModelInfo "qwen/qwen3-coder" "OpenRouter" 262144 (Some 0%Z)))
    as [_ Hsent]; [discriminate|].
  split; [reflexivity|].
  apply (Hsent string "instance" "prompt" false [] None). discriminate.
Defined.

(** ** The route and the call *)

Section RouteAndCall.
Context {W : Type} (C : Collaborators W).

(** The slice the route asks for: all but the last three messages once
    there are more than three. *)
Lemma prepare_slice body msgs cu :
  Post (prepare C body msgs cu)
    (fun p =>
       messageSliceId p
       = if (3 <? List.length (processedMessages p))%nat
         then List.length (processedMessages p) - 3 else 0).
Proof.
  unfold prepare.
  repeat first
    [ apply Post_bind; intros ?
    | match goal with x : _ * _ |- _ => destruct x end
    | match goal with
      | |- Post (if ?c then _ else _) _ => destruct c
      end
    | progress cbv beta zeta
    | apply Post_ret; reflexivity ].
Qed.

Lemma drop_last {A} (l : list A) x :
  last l = Some x -> drop (List.length l - 1) l = [x].
Proof.
  intros (l' & ->)%last_Some. rewrite length_app. cbn [List.length].
  replace (List.length l' + 1 - 1) with (List.length l' + 0) by lia.
  now rewrite drop_app_add.
Qed.

End RouteAndCall.

(** What a builder call sends of a long chat: in build mode with context
    optimization, selected files and a summary, the model receives the
    last three messages when the route has processed more than three,
    and the last message alone when it has processed three or fewer (the
    slice index 0 the route then passes counts as absent). *)
Theorem builder_window_is_three_or_one {W : Type} (C : Collaborators W)
    (extractPropertiesFromMessage : Message -> Properties)
    (sanitizeText : string -> string)
    (body : Body) (msgs : list Message) (cu : CumulativeUsage) (w : W)
    (p : Prepared) (cm cp : string) (locks : option (list (string * bool)))
    (options : gmap string Setting) :
  outcome (prepare C body msgs cu w) = Done p ->
  List.length msgs = List.length (messages body) ->
  chatMode body = "build" ->
  contextOptimization body = true ->
  is_Some (filteredFiles p) ->
  is_Some (truthyString (summary p)) ->
  let props := builderProps (preparedArgs body msgs p cm cp) locks options in
  let sent := sanitized extractPropertiesFromMessage sanitizeText props in
  List.length sent = List.length (processedMessages p) /\
  window props sent
  = lastN (if (3 <? List.length sent)%nat then 3 else 1) sent.
Proof.
  intros Hprep Hlen Hmode Hopt Hfiles [s Hsummary]. cbv zeta.
  pose proof (prepare_slice C body msgs cu w p Hprep) as Hslice.
  assert (Hsent : List.length
                    (sanitized extractPropertiesFromMessage sanitizeText
                       (builderProps (preparedArgs body msgs p cm cp) locks
                          options))
                  = List.length (processedMessages p)).
  { unfold sanitized, builderProps, preparedArgs, builderArgs.
    cbn [pMessages gMessages]. rewrite length_map, Hlen, Nat.ltb_irrefl.
    reflexivity. }
  split; [exact Hsent|].
  unfold window, inContext, builderProps, preparedArgs, builderArgs.
  cbn [pChatMode pContextFiles pContextOptimization pSummary pMessageSliceId
       gChatMode gContextFiles gContextOptimization gSummary gMessageSliceId].
  rewrite Hmode, Hopt, Hsummary.
  rewrite bool_decide_eq_true_2 by reflexivity.
  rewrite bool_decide_eq_true_2 by exact Hfiles. cbn [andb].
  fold (builderArgs body
          (if (List.length (messages body) <? List.length msgs)%nat
           then msgs else processedMessages p)
          (filteredFiles p) (summary p) (messageSliceId p) cm cp).
  fold (preparedArgs body msgs p cm cp).
  fold (builderProps (preparedArgs body msgs p cm cp) locks options).
  set (sent := sanitized extractPropertiesFromMessage sanitizeText _) in *.
  rewrite Hslice, <- Hsent. unfold lastN.
  destruct (Nat.ltb_spec 3 (List.length sent)) as [Hlong|Hshort].
  - destruct (List.length sent - 3) as [|n] eqn:Hn; [lia|]. reflexivity.
  - destruct (last sent) as [lastMessage|] eqn:Hlast.
    + symmetry. now apply drop_last.
    + apply last_None in Hlast. rewrite Hlast. reflexivity.
Qed.

Lemma builder_window_is_three_or_one_witness :
  let p := mkPrepared (messages contextRequest) 0 (Some "the chat so far")
             (Some [("/home/project/app.ts", "export {}")])
             (mkCumulative 0 0 0) in
  let props :=
    builderProps
      (preparedArgs contextRequest (messages contextRequest) p
         "qwen/qwen3-coder" "OpenRouter") None ∅ in
  let sent :=
    sanitized (fun message => mkProperties "" "" (content message))
      (fun t => t) props in
  List.length sent = List.length (processedMessages p) /\
  window props sent
  = lastN (if (3 <? List.length sent)%nat then 3 else 1) sent.
Proof.
  cbv zeta.
  apply (builder_window_is_three_or_one (collaborators summarising)
           (fun message => mkProperties "" "" (content message)) (fun t => t)
           contextRequest (messages contextRequest) (mkCumulative 0 0 0) 0).
  - vm_compute. reflexivity.
  - reflexivity.
  - reflexivity.
  - reflexivity.
  - eexists. reflexivity.
  - eexists. reflexivity.
Defined.

(** The provider of a call is the listed one of that name, or the
    default when the list has none. *)
Lemma resolveProvider_spec (DEFAULT_PROVIDER : ProviderInfo)
    (PROVIDER_LIST : list ProviderInfo) (currentProvider : string) :
  let provider := resolveProvider DEFAULT_PROVIDER PROVIDER_LIST currentProvider in
  In provider PROVIDER_LIST /\ pName provider = currentProvider \/
  provider = DEFAULT_PROVIDER /\
  Forall (fun p => pName p <> currentProvider) PROVIDER_LIST.
Proof.
  cbv zeta. unfold resolveProvider.
  destruct (List.find _ PROVIDER_LIST) as [found|] eqn:Hfind; cbn [default].
  - apply List.find_some in Hfind as [Hin Hname]. left.
    split; [exact Hin | now apply String.eqb_eq].
  - right. split; [reflexivity|]. apply List.Forall_forall. intros p Hin Heq.
    apply (List.find_none _ _ Hfind) in Hin. apply String.eqb_neq in Hin.
    contradiction.
Qed.

(** The model of a call has the name asked for, or is the first listed
    model when no list has that name. *)
Lemma resolveModel_spec
    (getStaticModelListFromProvider getModelListFromProvider :
       ProviderInfo -> Outcome (list ModelInfo))
    (provider : ProviderInfo) (currentModel : string) (m : ModelInfo) :
  resolveModel getStaticModelListFromProvider getModelListFromProvider
    provider currentModel = Returns m ->
  mName m = currentModel \/
  exists static dynamic,
    getStaticModelListFromProvider provider = Returns static /\
    getModelListFromProvider provider = Returns dynamic /\
    head (default [] (staticModels provider) ++ dynamic)%list = Some m /\
    Forall (fun m' => mName m' <> currentModel)
      (static ++ default [] (staticModels provider) ++ dynamic)%list.
Proof.
  unfold resolveModel.
  destruct (getStaticModelListFromProvider provider) as [static|e];
    [|discriminate].
  destruct (List.find (named currentModel) static) as [found|] eqn:Hstatic.
  - intros [= ->]. apply List.find_some in Hstatic as [_ Hname].
    left. now apply String.eqb_eq.
  - destruct (getModelListFromProvider provider) as [dynamic|e];
      [|discriminate]. cbv zeta.
    destruct (default [] (staticModels provider) ++ dynamic)%list
      as [|first rest] eqn:Hlist; [discriminate|].
    destruct (List.find (named currentModel) (first :: rest)) as [found|]
      eqn:Hfound; intros [= <-]; cbn [default].
    + apply List.find_some in Hfound as [_ Hname].
      left. now apply String.eqb_eq.
    + right. exists static, dynamic. rewrite Hlist.
      split; [reflexivity|]. split; [reflexivity|]. split; [reflexivity|].
      apply Forall_app. split; apply List.Forall_forall; intros m' Hin Heq.
      * apply (List.find_none _ _ Hstatic) in Hin.
        unfold named in Hin. apply String.eqb_neq in Hin. contradiction.
      * apply (List.find_none _ _ Hfound) in Hin.
        unfold named in Hin. apply String.eqb_neq in Hin. contradiction.
Qed.

(** The planning call as the SDK receives it: whatever the limit computed
    for the model, the call asks for [maxTokens: 50000] with the tools
    turned off, under the discuss prompt and with the one planning message.
    Whatever the message is tagged with, the model and the provider asked
    for are moonshotai/kimi-k2-thinking and OpenRouter; the call goes to
    the provider of that name in [PROVIDER_LIST] (to the default provider
    when the list has none), and to the model of that name (to the first
    listed model of the provider when no list has it). *)
Theorem planning_call_overrides_the_limit {Instance : Type}
    (DEFAULT_MODEL : string) (DEFAULT_PROVIDER : ProviderInfo)
    (PROVIDER_LIST : list ProviderInfo) (MAX_TOKENS : Z)
    (PROVIDER_COMPLETION_LIMITS : string -> option Z)
    (isReasoningModel : string -> bool)
    (extractPropertiesFromMessage : Message -> Properties)
    (sanitizeText : string -> string)
    (getStaticModelListFromProvider getModelListFromProvider :
       ProviderInfo -> Outcome (list ModelInfo))
    (getPropmtFromLibrary : string -> Outcome (option string))
    (getSystemPrompt discussPrompt : string)
    (createFilesContext : FileMap -> string)
    (getModelInstance : ProviderInfo -> string -> Outcome Instance)
    (id cleanContent : string) (pid : option string)
    (params : gmap string (Value Instance)) :
  prepareCall DEFAULT_MODEL DEFAULT_PROVIDER PROVIDER_LIST MAX_TOKENS
    PROVIDER_COMPLETION_LIMITS isReasoningModel extractPropertiesFromMessage
    sanitizeText getStaticModelListFromProvider getModelListFromProvider
    getPropmtFromLibrary getSystemPrompt discussPrompt createFilesContext
    getModelInstance (planningProps (planningArgs id cleanContent pid))
  = Returns params ->
  params !! "maxTokens" = Some (VOption (SNumber 50000)) /\
  params !! "toolChoice" = Some (VOption (SString "none")) /\
  params !! "system" = Some (VSystem discussPrompt) /\
  params !! "messages"
  = Some (VMessages
            [mkMessage id "user"
               (sanitizeText
                  (xContent
                     (extractPropertiesFromMessage
                        (mkMessage id "user" (planningPrompt cleanContent)))))]) /\
  target DEFAULT_MODEL DEFAULT_PROVIDER extractPropertiesFromMessage
    (planningProps (planningArgs id cleanContent pid))
  = ("moonshotai/kimi-k2-thinking", "OpenRouter") /\
  exists provider m instance,
    provider = resolveProvider DEFAULT_PROVIDER PROVIDER_LIST "OpenRouter" /\
    (In provider PROVIDER_LIST /\ pName provider = "OpenRouter" \/
     provider = DEFAULT_PROVIDER /\
     Forall (fun p => pName p <> "OpenRouter") PROVIDER_LIST) /\
    resolveModel getStaticModelListFromProvider getModelListFromProvider
      provider "moonshotai/kimi-k2-thinking" = Returns m /\
    (mName m = "moonshotai/kimi-k2-thinking" \/
     exists static dynamic,
       getStaticModelListFromProvider provider = Returns static /\
       getModelListFromProvider provider = Returns dynamic /\
       head (default [] (staticModels provider) ++ dynamic)%list = Some m /\
       Forall (fun m' => mName m' <> "moonshotai/kimi-k2-thinking")
         (static ++ default [] (staticModels provider) ++ dynamic)%list) /\
    getModelInstance provider (mName m) = Returns instance /\
    params !! "model" = Some (VModel instance).
Proof.
  unfold prepareCall. cbv zeta.
  change (target DEFAULT_MODEL DEFAULT_PROVIDER extractPropertiesFromMessage
            (planningProps (planningArgs id cleanContent pid)))
    with ("moonshotai/kimi-k2-thinking", "OpenRouter").
  cbn [fst snd].
  destruct (resolveModel _ _ _ _) as [m|e] eqn:Hmodel; [|discriminate].
  destruct (getPropmtFromLibrary _) as [libraryPrompt|e]; [|discriminate].
  destruct (getModelInstance _ _) as [instance|e] eqn:Hinstance; [|discriminate].
  intros [= <-].
  set (options := {[ "toolChoice" := SString "none";
                      "maxTokens" := SNumber 50000 ]} : gmap string Setting).
  change (pOptions (planningProps (planningArgs id cleanContent pid)))
    with (Some options).
  change (bool_decide (pChatMode (planningProps (planningArgs id cleanContent pid))
                       = Some "build")) with false.
  cbv iota.
  assert (Hmax : options !! "maxTokens" = Some (SNumber 50000)) by reflexivity.
  assert (Htool : options !! "toolChoice" = Some (SString "none")) by reflexivity.
  assert (Hother : forall key v,
             key <> "toolChoice" -> key <> "maxTokens" -> key <> "temperature" ->
             (<["messages" := VMessages (window (planningProps (planningArgs id cleanContent pid))
                                          (sanitized extractPropertiesFromMessage sanitizeText
                                             (planningProps (planningArgs id cleanContent pid))))]>
                (tokenParams (isReasoningModel (mName m))
                   (getCompletionTokenLimit MAX_TOKENS PROVIDER_COMPLETION_LIMITS m)
                 ∪ <["system" := VSystem discussPrompt]> {[ "model" := VModel instance ]})
              : gmap string (Value Instance)) !! key = Some v ->
             generateParams instance discussPrompt (isReasoningModel (mName m))
               (getCompletionTokenLimit MAX_TOKENS PROVIDER_COMPLETION_LIMITS m)
               (window (planningProps (planningArgs id cleanContent pid))
                  (sanitized extractPropertiesFromMessage sanitizeText
                     (planningProps (planningArgs id cleanContent pid))))
               (Some options) !! key = Some v).
  { intros key v Ht Hm Htemp Hlit. unfold generateParams. cbv zeta.
    assert (Hnone : (VOption (Instance:=Instance)
                       <$> filteredOptions (isReasoningModel (mName m))
                             (Some options)) !! key = None).
    { rewrite lookup_fmap, filteredOptions_lookup.
      destruct (_ && _); [reflexivity|]. unfold options.
      rewrite lookup_insert_ne by congruence.
      now rewrite lookup_singleton_ne by congruence. }
    destruct (isReasoningModel (mName m));
      rewrite ?lookup_insert_ne by congruence;
      rewrite lookup_union_r by exact Hnone; exact Hlit. }
  split; [|split; [|split; [|split; [|split]]]].
  - apply kept_option_lookup; [|right; discriminate].
    rewrite filteredOptions_lookup, Hmax. now destruct (isReasoningModel _).
  - apply kept_option_lookup; [|right; discriminate].
    rewrite filteredOptions_lookup, Htool. now destruct (isReasoningModel _).
  - apply Hother; try discriminate. rewrite literal_lookup. cbn.
    now destruct (isReasoningModel (mName m)).
  - apply Hother; try discriminate. rewrite literal_lookup. reflexivity.
  - reflexivity.
  - exists (resolveProvider DEFAULT_PROVIDER PROVIDER_LIST "OpenRouter"), m,
      instance.
    split; [reflexivity|].
    split; [apply resolveProvider_spec|].
    split; [exact Hmodel|].
    split; [exact (resolveModel_spec _ _ _ _ _ Hmodel)|].
    split; [exact Hinstance|].
    apply Hother; try discriminate. rewrite literal_lookup. cbn.
    now destruct (isReasoningModel (mName m)).
Qed.

(** With OpenRouter in the list and the planning model in its static
    list, the call goes to that model. *)
Lemma planning_call_overrides_the_limit_witness :
  match exampleCall (planningProps (planningArgs "id" "a todo app" None)) with
  | Returns params =>
      params !! "maxTokens" = Some (VOption (SNumber 50000)) /\
      params !! "model"
      = Some (VModel "OpenRouter/moonshotai/kimi-k2-thinking")
  | Throws _ => False
  end.
Proof.
  destruct (exampleCall (planningProps (planningArgs "id" "a todo app" None)))
    as [params|e] eqn:Hcall.
  - unfold exampleCall in Hcall.
    destruct (planning_call_overrides_the_limit _ _ _ _ _ _ _ _ _ _ _ _ _ _
                _ _ _ _ _ Hcall)
      as (Hmax & _ & _ & _ & _ & provider & m & instance & -> & _ & Hm & _
          & Hinstance & Hmodel).
    split; [exact Hmax|].
    vm_compute in Hm. injection Hm as <-.
    vm_compute in Hinstance. injection Hinstance as <-. exact Hmodel.
  - vm_compute in Hcall. discriminate.
Defined.

(** ** The provider preferences of OpenRouter *)

Import OpenRouterConfig.
Local Open Scope string_scope.

Section TrimFacts.












Lemma isAscii_app a b : isAscii (a ++ b) = isAscii a && isAscii b.
Proof.
  induction a as [|c a IH]; rewrite ?append_nil, ?append_cons;
    [reflexivity|]. cbn [isAscii]. now rewrite IH, andb_assoc.
Qed.





End TrimFacts.

(** OpenRouter is left to choose the provider exactly for a model whose
    name mentions kimi or does not mention qwen, whatever the environment
    says: the configuration is [{}] for these and for no other model. *)
Theorem unrestricted_iff_kimi_or_not_qwen (E : Engine)
    (model : option string) (serverEnv : option Env) :
  getOpenRouterProviderConfig E model serverEnv = mkConfig None None <->
  mentions model "kimi" = true \/ mentions model "qwen" = false.
Proof.
  unfold getOpenRouterProviderConfig.
  destruct (mentions model "kimi"); [tauto|].
  destruct (mentions model "qwen"); [|tauto]. cbv zeta.
  destruct (negb _); split; try discriminate; intros [|]; discriminate.
Qed.



(** ** Creating a screen *)

Local Open Scope list_scope.

(** A screen is counted only once it exists, and is created only below
    the limit: in every run of the route a call of [db.incrementUsage]
    comes after a [db.createScreen] that returned, [db.createScreen] is
    called only when the count is below the limit, and the route answers
    200 exactly when both calls have returned. *)
Theorem screen_counted_only_when_created {Input Screen : Type}
    (getAuth : Outcome (option string)) (requestJson : Outcome Input)
    (getUserByClerkId : string -> Outcome (option ScreensCreate.DbUser))
    (getUserLimits : string -> Outcome Z)
    (createScreen : Input -> Outcome Screen)
    (incrementUsage : string -> string -> Outcome unit) :
  let run := ScreensCreate.action getAuth requestJson getUserByClerkId
               getUserLimits createScreen incrementUsage in
  (forall userId kind,
      In (ScreensCreate.IncrementUsage userId kind) run.2 ->
      exists before input screen,
        run.2 = before ++ [ScreensCreate.CreateScreen input;
                           ScreensCreate.IncrementUsage userId kind] /\
        createScreen input = Returns screen) /\
  (forall input,
      In (ScreensCreate.CreateScreen input) run.2 ->
      exists clerkUserId user maxAiGenerations,
        getUserByClerkId clerkUserId = Returns (Some user) /\
        getUserLimits (ScreensCreate.uId user) = Returns maxAiGenerations /\
        (ScreensCreate.aiGenerationsCount user < maxAiGenerations)%Z) /\
  (ScreensCreate.status run.1 = 200 <->
   exists userId,
     In (ScreensCreate.IncrementUsage userId "screen_created") run.2 /\
     incrementUsage userId "screen_created" = Returns tt).
Proof.
  cbv zeta. unfold ScreensCreate.action.
  destruct getAuth as [clerkUserId|e]; cbn [fst snd];
    [|split; [|split]; [intros ? ? [] | intros ? [] |
                        split; [discriminate | intros (? & [] & _)]]].
  destruct (truthyString clerkUserId) as [id|]; cbn [fst snd];
    [|split; [|split]; [intros ? ? [] | intros ? [] |
                        split; [discriminate | intros (? & [] & _)]]].
  destruct requestJson as [input|e]; cbn [fst snd];
    [|split; [|split]; [intros ? ? [] | intros ? [] |
                        split; [discriminate | intros (? & [] & _)]]].
  destruct (getUserByClerkId id) as [[user|]|e] eqn:Huser; cbv zeta;
    cbn [fst snd app];
    try (split; [|split];
         [ intros ? ? [|[]]; discriminate
         | intros ? [|[]]; discriminate
         | split; [discriminate | intros (? & [|[]] & _); discriminate] ]).
  destruct (getUserLimits (ScreensCreate.uId user)) as [maxAiGenerations|e]
    eqn:Hlimits; cbn [fst snd app];
    try (split; [|split];
         [ intros ? ? [|[|[]]]; discriminate
         | intros ? [|[|[]]]; discriminate
         | split; [discriminate | intros (? & [|[|[]]] & _); discriminate] ]).
  destruct (Z.leb_spec maxAiGenerations (ScreensCreate.aiGenerationsCount user))
    as [Hfull|Hroom]; cbn [fst snd app];
    try (split; [|split];
         [ intros ? ? [|[|[]]]; discriminate
         | intros ? [|[|[]]]; discriminate
         | split; [discriminate | intros (? & [|[|[]]] & _); discriminate] ]).
  assert (Hbelow :
             exists clerkUserId user' maxAiGenerations',
               getUserByClerkId clerkUserId = Returns (Some user') /\
               getUserLimits (ScreensCreate.uId user') = Returns maxAiGenerations' /\
               (ScreensCreate.aiGenerationsCount user' < maxAiGenerations')%Z)
    by (exists id, user, maxAiGenerations; auto).
  destruct (createScreen input) as [screen|e] eqn:Hcreate; cbn [fst snd app].
  - destruct (incrementUsage (ScreensCreate.uId user) "screen_created")
      as [[]|e] eqn:Hinc; cbn [fst snd ScreensCreate.status];
      (split; [|split]; [| intros; exact Hbelow |]).
    + intros userId kind [H|[H|[H|[H|[]]]]]; try discriminate.
      injection H as <- <-.
      exists [ScreensCreate.GetUserByClerkId id;
              ScreensCreate.GetUserLimits (ScreensCreate.uId user)], input, screen.
      auto.
    + split; [intros _ | reflexivity].
      exists (ScreensCreate.uId user). split; [|exact Hinc].
      do 3 right. now left.
    + intros userId kind [H|[H|[H|[H|[]]]]]; try discriminate.
      injection H as <- <-.
      exists [ScreensCreate.GetUserByClerkId id;
              ScreensCreate.GetUserLimits (ScreensCreate.uId user)], input, screen.
      auto.
    + split; [discriminate|].
      intros (userId & [H|[H|[H|[H|[]]]]] & Hret); try discriminate.
      injection H as <-. congruence.
  - split; [|split]; [| intros; exact Hbelow |].
    + intros userId kind [H|[H|[H|[]]]]; discriminate.
    + split; [discriminate|].
      intros (userId & [H|[H|[H|[]]]] & _); discriminate.
Qed.

(** Creating and counting are not one step: when [db.createScreen] has
    returned and [db.incrementUsage] throws, the route answers 500
    ['Failed to create screen'] although the screen has been created. *)
Theorem created_screen_can_be_reported_failed {Input Screen : Type}
    (getAuth : Outcome (option string)) (requestJson : Outcome Input)
    (getUserByClerkId : string -> Outcome (option ScreensCreate.DbUser))
    (getUserLimits : string -> Outcome Z)
    (createScreen : Input -> Outcome Screen)
    (incrementUsage : string -> string -> Outcome unit)
    (clerkUserId : string) (input : Input) (user : ScreensCreate.DbUser)
    (maxAiGenerations : Z) (screen : Screen) (e : ErrorObj) :
  getAuth = Returns (Some clerkUserId) ->
  clerkUserId <> "" ->
  requestJson = Returns input ->
  getUserByClerkId clerkUserId = Returns (Some user) ->
  getUserLimits (ScreensCreate.uId user) = Returns maxAiGenerations ->
  (ScreensCreate.aiGenerationsCount user < maxAiGenerations)%Z ->
  createScreen input = Returns screen ->
  incrementUsage (ScreensCreate.uId user) "screen_created" = Throws e ->
  ScreensCreate.action getAuth requestJson getUserByClerkId getUserLimits
    createScreen incrementUsage
  = (ScreensCreate.FailedToCreate,
     [ScreensCreate.GetUserByClerkId clerkUserId;
      ScreensCreate.GetUserLimits (ScreensCreate.uId user);
      ScreensCreate.CreateScreen input;
      ScreensCreate.IncrementUsage (ScreensCreate.uId user) "screen_created"]).
Proof.
  intros -> Hid -> Huser Hlimits Hroom Hcreate Hinc.
  unfold ScreensCreate.action. cbn [truthyString].
  destruct clerkUserId as [|c rest]; [contradiction|]. cbn [truthy].
  rewrite Huser, Hlimits. cbv zeta.
  rewrite (proj2 (Z.leb_gt _ _) Hroom), Hcreate, Hinc. reflexivity.
Qed.

Lemma created_screen_can_be_reported_failed_witness :
  let user := ScreensCreate.mkDbUser "u1" 3 (Some "free") in
  ScreensCreate.action (Screen:=string) (Returns (Some "clerk_1")) (Returns "a screen")
    (fun _ => Returns (Some user)) (fun _ => Returns 10%Z)
    (fun input => Returns input)
    (fun _ _ => Throws (newError "connection lost"))
  = (ScreensCreate.FailedToCreate,
     [ScreensCreate.GetUserByClerkId "clerk_1"; ScreensCreate.GetUserLimits "u1";
      ScreensCreate.CreateScreen "a screen";
      ScreensCreate.IncrementUsage "u1" "screen_created"]).
Proof.
  cbv zeta.
  apply (created_screen_can_be_reported_failed _ _ _ _ _ _ "clerk_1" "a screen"
           (ScreensCreate.mkDbUser "u1" 3 (Some "free")) 10 "a screen"
           (newError "connection lost"));
    try reflexivity.
  discriminate.
Defined.

(** ** The limits of a subscription *)

(** The limit on projects is never [-1] and so never unlimited: whatever
    tier the database names, [canCreateProject] reports one of the four
    limits, refuses exactly when the count has reached it, and never
    answers ['Unlimited projects available']; [enforceProjectLimit] throws
    its 403 in exactly these cases. *)
Theorem project_limit_is_never_unlimited
    (getUserByClerkId : string -> Outcome (option Billing.BillingUser))
    (getUserProjects : string -> Z -> Z -> Outcome (option nat))
    (getUserScreenCount : string -> Outcome Z)
    (clerkUserId : string) (check : Billing.GuardCheck) :
  Billing.canCreateProject getUserByClerkId getUserProjects
    getUserScreenCount clerkUserId
  = Returns check ->
  In (Billing.gMax check) [5; 20; 100; 200]%Z /\
  Billing.gUnlimited check = false /\
  Billing.gError check <> Some Billing.UnlimitedProjectsAvailable /\
  (Billing.gAllowed check = true <->
   (Billing.gCurrent check < Billing.gMax check)%Z) /\
  Billing.enforceProjectLimit getUserByClerkId getUserProjects
    getUserScreenCount clerkUserId
  = if (Billing.gMax check <=? Billing.gCurrent check)%Z
    then Billing.Refused 403
           (Some (Billing.ProjectLimitReached (Billing.gCurrent check)
                    (Billing.gMax check)))
           "projects" (Billing.gCurrent check) (Billing.gMax check)
    else Billing.Passed check.
Proof.
  unfold Billing.enforceProjectLimit, Billing.canCreateProject,
    Billing.canPerformAction, Billing.checkUsageLimit.
  destruct (getUserByClerkId clerkUserId) as [[user|]|e]; try discriminate.
  destruct (getUserProjects (Billing.buId user) 1000%Z 0%Z) as [projectCount|e];
    [|discriminate].
  cbv zeta. cbn [Billing.exceeded Billing.current Billing.max Billing.unlimited].
  set (n := match projectCount with Some n => Z.of_nat n | None => 0%Z end).
  assert (Hmax : In (Billing.projects
                       (Billing.getTierLimits
                          (orDefault (Billing.subscription_tier user) "free")))
                   [5; 20; 100; 200]%Z).
  { unfold Billing.getTierLimits.
    repeat (match goal with |- context [if ?c then _ else _] => destruct c end;
            [cbn; tauto|]).
    cbn. tauto. }
  set (max := Billing.projects _) in *.
  assert (Hne : (max =? -1)%Z = false).
  { apply Z.eqb_neq. cbn in Hmax. lia. }
  rewrite Hne. cbn [negb andb].
  destruct (Z.leb_spec max n) as [Hfull|Hroom]; cbn [negb];
    intros [= <-]; cbn [Billing.gMax Billing.gUnlimited Billing.gError
                          Billing.gAllowed Billing.gCurrent negb].
  - rewrite (proj2 (Z.leb_le _ _) Hfull).
    repeat split; try discriminate; try assumption; lia.
  - rewrite (proj2 (Z.leb_gt _ _) Hroom).
    repeat split; try discriminate; try assumption; lia.
Qed.

Lemma project_limit_is_never_unlimited_witness :
  let check := Billing.mkGuardCheck false
                 (Some (Billing.ProjectLimitReached 5 5)) 5 5 false in
  In (Billing.gMax check) [5; 20; 100; 200]%Z /\
  Billing.gUnlimited check = false /\
  Billing.gError check <> Some Billing.UnlimitedProjectsAvailable /\
  (Billing.gAllowed check = true <->
   (Billing.gCurrent check < Billing.gMax check)%Z) /\
  Billing.enforceProjectLimit
    (fun _ => Returns (Some (Billing.mkBillingUser "u1" None)))
    (fun _ _ _ => Returns (Some 5)) (fun _ => Returns 0%Z) "clerk_1"
  = if (Billing.gMax check <=? Billing.gCurrent check)%Z
    then Billing.Refused 403
           (Some (Billing.ProjectLimitReached (Billing.gCurrent check)
                    (Billing.gMax check)))
           "projects" (Billing.gCurrent check) (Billing.gMax check)
    else Billing.Passed check.
Proof.
  cbv zeta.
  apply (project_limit_is_never_unlimited
           (fun _ => Returns (Some (Billing.mkBillingUser "u1" None)))
           (fun _ _ _ => Returns (Some 5)) (fun _ => Returns 0%Z) "clerk_1").
  reflexivity.
Defined.

(** ** Which prompts are enhanced *)

Local Open Scope string_scope.

Section EnhancerFacts.
Import PromptEnhancer.

Lemma keyword_lower keyword :
  In keyword designKeywords -> asciiLowerCase keyword = keyword.
Proof.
  unfold designKeywords. simpl.
  intros H; repeat destruct H as [<-|H]; try contradiction; reflexivity.
Qed.

Lemma keyword_ascii keyword :
  In keyword designKeywords -> isAscii keyword = true.
Proof.
  unfold designKeywords. simpl.
  intros H; repeat destruct H as [<-|H]; try contradiction; reflexivity.
Qed.

Lemma append_assoc3 (a b c : string) : (a ++ b) ++ c = a ++ b ++ c.
Proof.
  induction a as [|x a IH]; rewrite ?append_nil, ?append_cons;
    [reflexivity | now rewrite IH].
Qed.

(** What contains a keyword, case ignored, does so inside any text. *)
Lemma ci_contains_inside (before msg after marker : string) :
  ci_contains msg marker -> ci_contains (before ++ msg ++ after) marker.
Proof.
  intros (pre & mid & post & -> & H).
  exists (before ++ pre), mid, (post ++ after). split; [|exact H].
  now rewrite !append_assoc3.
Qed.

End EnhancerFacts.

(** A prompt is enhanced exactly when, put in lower case, it contains one
    of the fourteen keywords, at any place and also inside a longer word.
    On a standard engine a prompt that contains a keyword in any letter
    case is enhanced, and a prompt of ASCII text is enhanced only then;
    such a prompt stays one to enhance whatever is written before or after
    it. *)
Theorem shouldEnhancePrompt_iff (E : Engine) (prompt : string) :
  let keywords :=
    [ "create"; "design"; "build"; "make"; "generate"; "mockup"; "screen";
      "page"; "interface"; "checkout"; "menu"; "landing"; "dashboard";
      "profile" ] in
  (PromptEnhancer.shouldEnhancePrompt E prompt = true <->
   exists keyword before after,
     In keyword keywords /\
     toLowerCase E prompt = before ++ keyword ++ after)
  /\
  (Standard E ->
   (forall keyword,
      In keyword keywords -> ci_contains prompt keyword ->
      PromptEnhancer.shouldEnhancePrompt E prompt = true)
   /\
   (isAscii prompt = true ->
    PromptEnhancer.shouldEnhancePrompt E prompt = true ->
    (exists keyword, In keyword keywords /\ ci_contains prompt keyword)
    /\
    forall before after,
      PromptEnhancer.shouldEnhancePrompt E (before ++ prompt ++ after) = true)).
Proof.
  cbv zeta.
  assert (Hgeneral : forall text,
             PromptEnhancer.shouldEnhancePrompt E text = true <->
             exists keyword,
               In keyword PromptEnhancer.designKeywords /\
               occursIn keyword (toLowerCase E text)).
  { intros text. unfold PromptEnhancer.shouldEnhancePrompt. cbv zeta.
    rewrite existsb_exists.
    split; intros (keyword & Hin & H); exists keyword; split; try exact Hin;
      now apply occursIn_includes. }
  assert (Hfinds : Standard E -> forall text keyword,
             In keyword PromptEnhancer.designKeywords ->
             ci_contains text keyword ->
             PromptEnhancer.shouldEnhancePrompt E text = true).
  { intros HE text keyword Hin Hci. apply Hgeneral. exists keyword.
    split; [exact Hin|].
    now apply (standard_finds E text keyword HE (keyword_ascii _ Hin)
                 (keyword_lower _ Hin)). }
  split; [|intros HE; split].
  - rewrite Hgeneral. split.
    + intros (keyword & Hin & before & after & H). now exists keyword, before, after.
    + intros (keyword & before & after & Hin & H). exists keyword.
      split; [exact Hin | now exists before, after].
  - now apply Hfinds.
  - intros Hprompt Henhanced.
    apply Hgeneral in Henhanced as (keyword & Hin & Hocc).
    apply (standard_lower E prompt keyword HE Hprompt (keyword_lower _ Hin))
      in Hocc.
    split; [now exists keyword|].
    intros before after. apply (Hfinds HE _ keyword Hin).
    now apply ci_contains_inside.
Qed.
